(** * Split allocation of the expense and credit forms

    A shallow embedding of the two [handleSubmit] handlers of

      - [src/app/groups/[groupId]/expenses/add/page.tsx]  (module [AddExpense])
      - [src/app/groups/[groupId]/credits/add/page.tsx]   (module [AddCredit])

    of the functions of the two pages around them ([loadData],
    [toggleSelectedMember], [handleCustomShareChange] and the running total
    of the custom shares; modules [AddExpensePage] and [AddCreditPage]),
    together with the JavaScript built-ins they call ([String.prototype.trim],
    [String.prototype.split], [RegExp.prototype.test], [parseFloat],
    [Math.round], [Math.floor] and the arithmetic of [number]).

    Numbers.  A JavaScript [number] is an IEEE-754 binary64 value.  The model
    is [spec_float] of the Standard Library at precision 53 and maximal
    exponent 1024: signed zeros, finite values [m * 2^e], the two infinities
    and a single [NaN].  Sums, differences, products and quotients are the
    library's [SFadd], [SFsub], [SFmul] and [SFdiv], rounded to nearest, ties
    to even; [parseFloat] rounds the decimal literal it reads the same way.
    The arithmetic rounds as the browser does: [0.07 * 100] is
    [7.000000000000001], and the facts about integers below 2^53 that the
    proofs use are proved from the definition of the rounding (module
    [Binary64Facts]).

    Strings.  A string is a sequence of code units below 256 (the Latin-1
    characters); white space is what [trim] and [parseFloat] skip among
    them: TAB, LF, VT, FF, CR, SP and NBSP. *)

From Stdlib Require Import ZArith Lia.
From Stdlib Require Import Ascii String.
From Stdlib Require Import SpecFloat.
From stdpp Require Import base list strings gmap.

Local Open Scope Z_scope.

(** ** Strings *)

Module Js.

Definition isWhiteSpace (c : ascii) : bool :=
  match nat_of_ascii c with
  | 9%nat | 10%nat | 11%nat | 12%nat | 13%nat | 32%nat | 160%nat => true
  | _ => false
  end.

Fixpoint trimStart (s : string) : string :=
  match s with
  | String c s' => if isWhiteSpace c then trimStart s' else s
  | EmptyString => EmptyString
  end.

(** [trimEnd] keeps a character when it is not white space or when something
    is kept after it. *)
Fixpoint trimEnd (s : string) : string :=
  match s with
  | EmptyString => EmptyString
  | String c s' =>
      match trimEnd s' with
      | EmptyString => if isWhiteSpace c then EmptyString else String c EmptyString
      | rest => String c rest
      end
  end.

(** [s.trim()] *)
Definition trim (s : string) : string := trimEnd (trimStart s).

(** [!s] for a string: only the empty string is falsy. *)
Definition isEmpty (s : string) : bool :=
  match s with EmptyString => true | _ => false end.

(** [s.split(sep)] for a one-character separator: the pieces between the
    occurrences of [sep], at least one piece. *)
Fixpoint split (sep : ascii) (s : string) : list string :=
  match s with
  | EmptyString => [EmptyString]
  | String c s' =>
      if Ascii.eqb c sep then EmptyString :: split sep s'
      else match split sep s' with
           | piece :: pieces => String c piece :: pieces
           | [] => [String c EmptyString]
           end
  end.

(** ** Numbers *)

(** The binary64 format. *)
Definition prec : Z := 53.
Definition emax : Z := 1024.

Definition number : Type := spec_float.

Definition NaN : number := S754_nan.
Definition Infinity (negative : bool) : number := S754_infinity negative.

(** The double nearest to an integer: the integer itself below 2^53. *)
Definition ofZ (z : Z) : number := binary_normalize prec emax z 0 false.
Definition ofNat (n : nat) : number := ofZ (Z.of_nat n).

(** [Number.isNaN(x)] *)
Definition isNaN (x : number) : bool :=
  match x with S754_nan => true | _ => false end.

(** [Number.isFinite(x)] *)
Definition isFinite (x : number) : bool :=
  match x with S754_zero _ | S754_finite _ _ _ => true | _ => false end.

(** [-x] *)
Definition neg (x : number) : number := SFopp x.

(** [x + y] *)
Definition add (x y : number) : number := SFadd prec emax x y.

(** [x - y] *)
Definition sub (x y : number) : number := SFsub prec emax x y.

(** [x * y] *)
Definition mul (x y : number) : number := SFmul prec emax x y.

(** [x / y] *)
Definition div (x y : number) : number := SFdiv prec emax x y.

(** [x < y]; false as soon as one side is [NaN]. *)
Definition lt (x y : number) : bool := SFltb x y.

(** [x === y] on numbers; [NaN] differs from everything, the two zeros are
    equal. *)
Definition strictEq (x y : number) : bool := SFeqb x y.

(** [x <= y] *)
Definition le (x y : number) : bool := SFleb x y.

(** [x > y] *)
Definition gt (x y : number) : bool := SFltb y x.

(** [Math.floor(x)]: a finite [m * 2^e] with [e < 0] is below 2^53 in
    absolute value, so its floor is an integer that a double holds. *)
Definition Math_floor (x : number) : number :=
  match x with
  | S754_finite s m e =>
      if 0 <=? e then x
      else binary_normalize prec emax (cond_Zopp s (Z.pos m) / 2 ^ (- e)) 0 s
  | _ => x
  end.

(** [Math.round(x)]: the nearest integer, a tie going up; the sign of a
    zero result is the sign of [x]. *)
Definition Math_round (x : number) : number :=
  match x with
  | S754_finite s m e =>
      if 0 <=? e then x
      else binary_normalize prec emax
             ((2 * cond_Zopp s (Z.pos m) + 2 ^ (- e)) / 2 ^ (1 - e)) 0 s
  | _ => x
  end.

(** ** [parseFloat] *)

Definition digitValue (c : ascii) : option Z :=
  let n := nat_of_ascii c in
  if (48 <=? n)%nat && (n <=? 57)%nat then Some (Z.of_nat n - 48) else None.

(** The longest run of decimal digits at the head of [s]: its value from
    the accumulator [acc], how many digits it has, and what follows. *)
Fixpoint readDigits (acc : Z) (len : nat) (s : string) : Z * nat * string :=
  match s with
  | String c s' =>
      match digitValue c with
      | Some d => readDigits (10 * acc + d) (S len) s'
      | None => (acc, len, s)
      end
  | EmptyString => (acc, len, s)
  end.

(** An optional sign: [true] for a minus. *)
Definition readSign (s : string) : bool * string :=
  match s with
  | String "-" s' => (true, s')
  | String "+" s' => (false, s')
  | _ => (false, s)
  end.

(** [ExponentPart]: [e] or [E], an optional sign and at least one digit;
    when the part is not complete it does not belong to the literal. *)
Definition readExponent (s : string) : Z :=
  match s with
  | String c s' =>
      if Ascii.eqb c "e" || Ascii.eqb c "E" then
        let '(negative, s'') := readSign s' in
        let '(e, len, _) := readDigits 0 0 s'' in
        match len with
        | O => 0
        | _ => if negative then - e else e
        end
      else 0
  | EmptyString => 0
  end.

(** The double nearest to [m * 10^e] for a natural number [m], with the
    sign [negative]: the integer [m * 10^e] rounded, or the quotient of [m]
    by [10^(-e)] rounded once. *)
Definition decimal (negative : bool) (m e : Z) : number :=
  match m with
  | Z.pos _ =>
      if 0 <=? e then binary_round prec emax negative (Z.to_pos (m * 10 ^ e)) 0
      else
        let '(q, e', l) := SFdiv_core_binary prec emax m 0 (10 ^ (- e)) 0 in
        binary_round_aux prec emax negative q e' l
  | _ => S754_zero negative
  end.

Definition startsWith (prefix s : string) : bool :=
  String.prefix prefix s.

(** [parseFloat(s)]: leading white space is skipped, then the longest prefix
    that is a [StrDecimalLiteral] is read; [NaN] when there is none. *)
Definition parseFloat (s : string) : number :=
  let '(negative, s1) := readSign (trimStart s) in
  if startsWith "Infinity" s1 then Infinity negative
  else
    let '(int, intLen, s2) := readDigits 0 0 s1 in
    let '(mant, fracLen, s3) :=
      match s2 with
      | String "." s2' =>
          let '(m, n, s3) := readDigits int 0 s2' in
          match intLen, n with
          | O, O => (int, O, s2)
          | _, _ => (m, n, s3)
          end
      | _ => (int, O, s2)
      end in
    match intLen, fracLen with
    | O, O => NaN
    | _, _ => decimal negative mant (readExponent s3 - Z.of_nat fracLen)
    end.

End Js.

(** ** Rounding, written with divisions

    The vocabulary in which module [Binary64Facts] describes the rounding of
    [spec_float]: the mantissa after a shift to the right with its round and
    sticky bits, the mantissa rounded to nearest even, the result of
    [binary_round_aux] on a mantissa of at least 53 digits, and the double
    that holds an integer below 2^53. *)
Module Binary64.

Import Js.

Definition loc_r (l : location) : bool :=
  match l with loc_Inexact Eq | loc_Inexact Gt => true | _ => false end.

Definition loc_s (l : location) : bool :=
  match l with loc_Inexact Lt | loc_Inexact Gt => true | _ => false end.

Definition shifted (m : Z) (l : location) (n : Z) : shr_record :=
  if n <=? 0 then shr_record_of_loc m l
  else {| shr_m := m / 2 ^ n;
          shr_r := Z.testbit m (n - 1);
          shr_s := loc_r l || loc_s l || negb (m mod 2 ^ (n - 1) =? 0) |}.

Definition rne (mrs : shr_record) : Z :=
  shr_m mrs + (if shr_r mrs && (shr_s mrs || Z.odd (shr_m mrs)) then 1 else 0).

Definition rounded (sx : bool) (m1 e1 : Z) : number :=
  if m1 =? 2 ^ 53 then
    if e1 + 1 <=? 971 then S754_finite sx (Z.to_pos (2 ^ 52)) (e1 + 1)
    else S754_infinity sx
  else if e1 <=? 971 then S754_finite sx (Z.to_pos m1) e1
       else S754_infinity sx.

Definition repr (z : Z) : number :=
  S754_finite false (Z.to_pos (z * 2 ^ (53 - Zdigits2 z))) (Zdigits2 z - 53).

(** The integers that doubles hold without loss and that the handler
    counts with. *)
Definition safe (z : Z) : Prop := 0 <= z < 2 ^ 53.

End Binary64.
(** ** Types shared by the two pages *)

Module AuthUser.
Record t := { id : string; email : option string }.
End AuthUser.

Module Member.
Record t := { userId : string; email : option string }.
End Member.

Inductive SplitType := equal_all | equal_selected | custom.
Inductive ExpenseType := expense | credit.

#[global] Instance SplitType_eq_dec : EqDecision SplitType.
Proof. solve_decision. Defined.

(** The row sent to the [expenses] table. *)
Module ExpenseRow.
Record t := {
  group_id : string;
  description : string;
  amount : Js.number;
  paid_by : string;
  split_type : SplitType;
  created_by : string;
  type : ExpenseType }.
End ExpenseRow.

(** A row sent to the [expense_splits] table. *)
Module ExpenseSplitRow.
Record t := { expense_id : string; user_id : string; amount : Js.number }.
End ExpenseSplitRow.

(** [descriptionPattern.test(s)]: one or more characters, each a letter, a
    digit, a space or one of the eight punctuation marks of the pattern
    (comma, full stop, exclamation and question mark, single and double
    quote, hyphen). *)
Definition descriptionChar (c : ascii) : bool :=
  let n := nat_of_ascii c in
  ((65 <=? n) && (n <=? 90) || (97 <=? n) && (n <=? 122) ||
   (48 <=? n) && (n <=? 57))%nat ||
  bool_decide (n ∈ [32; 44; 46; 33; 63; 39; 34; 45]%nat).

Fixpoint allChars (p : ascii -> bool) (s : string) : bool :=
  match s with
  | EmptyString => true
  | String c s' => p c && allChars p s'
  end.

Definition descriptionPattern_test (s : string) : bool :=
  negb (Js.isEmpty s) && allChars descriptionChar s.

(** [amountParts[1] && amountParts[1].length > 2] for
    [amountParts = amount.split('.')]; both pages run this check. *)
Definition tooManyDecimals (amount : string) : bool :=
  match Js.split "." amount !! 1%nat with
  | Some part => negb (Js.isEmpty part) && (2 <? String.length part)%nat
  | None => false
  end.

(** What a handler does when it stops: it returns, it redirects, or it sends
    the expense row to the store followed, once the store has answered with
    the id of the new expense, by the split rows.  The answers of the store
    are not part of the model. *)
Inductive Effect : Type :=
  | Return
  | RouterReplace (path : string)
  | Insert (expense : ExpenseRow.t) (splits : string -> list ExpenseSplitRow.t).

(** ** The add-expense page *)

Module AddExpense.

Import Js.

(** [type SplitRow = { user_id: string; amount: number }] *)
Module SplitRow.
Record t := { user_id : string; amount : number }.
End SplitRow.

(** The state of the component that [handleSubmit] reads.  [customShares] is
    a [Record<string, string>] holding the text typed for each member. *)
Record State := {
  groupId : string;
  currentUser : option AuthUser.t;
  members : list Member.t;
  description : string;
  amount : string;
  paidBy : string;
  expenseType : ExpenseType;
  splitType : SplitType;
  selectedMemberIds : list string;
  customShares : gmap string string }.

(** The four error slots; [handleSubmit] clears them all first, and the last
    [set...Error] of a slot is the one displayed. *)
Record Errors := {
  descriptionError : option string;
  amountError : option string;
  splitError : option string;
  generalError : option string }.

Definition noErrors : Errors :=
  {| descriptionError := None; amountError := None;
     splitError := None; generalError := None |}.

Definition setDescriptionError (msg : string) : Errors :=
  {| descriptionError := Some msg; amountError := None;
     splitError := None; generalError := None |}.

Definition setAmountError (msg : string) : Errors :=
  {| descriptionError := None; amountError := Some msg;
     splitError := None; generalError := None |}.

Definition setSplitError (msg : option string) : Errors :=
  {| descriptionError := None; amountError := None;
     splitError := msg; generalError := None |}.

(** The messages of the split errors, under the names of the error
    taxonomy. *)
Definition NoParticipants : string :=
  "No members available to split this expense.".
Definition NoneSelected : string :=
  "Please select at least one member to split between.".
Definition InvalidShare : string :=
  "Custom amounts must be non-negative numbers.".
Definition TotalMismatch : string :=
  "Custom amounts must add up exactly to the total amount.".
Definition EmptyCustomSet : string :=
  "Please enter at least one custom amount.".
Definition NoSplits : string :=
  "Could not compute splits for this expense.".

(** [participantIds] *)
Definition participantIds (s : State) : list string :=
  match splitType s with
  | equal_all => map Member.userId (members s)
  | equal_selected => selectedMemberIds s
  | custom => map Member.userId (members s)
  end.

(** The equal split: the body of [participantIds.forEach] for one
    participant, then the whole loop.  [count] and [index] are an array
    length and an array index, read as numbers. *)
Definition equalShare (baseCents remainder : number) (index : nat)
    (userId : string) : SplitRow.t :=
  let shareCents :=
    add baseCents (if lt (ofNat index) remainder then ofZ 1 else ofZ 0) in
  {| SplitRow.user_id := userId; SplitRow.amount := div shareCents (ofZ 100) |}.

Definition equalSplits (totalCents : number) (participantIds : list string)
    : list SplitRow.t :=
  let count := ofNat (length participantIds) in
  let baseCents := Math_floor (div totalCents count) in
  let remainder := sub totalCents (mul baseCents count) in
  imap (equalShare baseCents remainder) participantIds.

(** The custom split: what the callback of [members.forEach] does to
    [splitError], [sumCents] and [customSplits] for one member.  Its
    [return] statements leave the callback, not [handleSubmit]. *)
Definition customShare (customShares : gmap string string)
    (acc : option string * number * list SplitRow.t) (member : Member.t)
    : option string * number * list SplitRow.t :=
  let '(splitError, sumCents, customSplits) := acc in
  let raw := trim (default ""%string (customShares !! Member.userId member)) in
  if isEmpty raw then acc
  else
    let value := parseFloat raw in
    if isNaN value || lt value (ofZ 0) then
      (Some InvalidShare, sumCents, customSplits)
    else
      let cents := Math_round (mul value (ofZ 100)) in
      if gt cents (ofZ 0) then
        (splitError, add sumCents cents,
         customSplits ++ [{| SplitRow.user_id := Member.userId member;
                             SplitRow.amount := div cents (ofZ 100) |}])
      else acc.

Definition customLoop (members : list Member.t)
    (customShares : gmap string string)
    : option string * number * list SplitRow.t :=
  fold_left (customShare customShares) members (None, ofZ 0, []).

(** The block that builds the per-user splits: the value of [splitError]
    when it is left and, unless it returns from [handleSubmit], the array
    [splits]. *)
Definition buildSplits (splitType : SplitType) (totalCents : number)
    (participantIds : list string) (members : list Member.t)
    (customShares : gmap string string)
    : option string * option (list SplitRow.t) :=
  match splitType with
  | equal_all | equal_selected =>
      let count := length participantIds in
      if (count =? 0)%nat then (Some NoParticipants, None)
      else (None, Some (equalSplits totalCents participantIds))
  | custom =>
      let '(splitError, sumCents, customSplits) :=
        customLoop members customShares in
      if negb (strictEq sumCents totalCents) then (Some TotalMismatch, None)
      else if (length customSplits =? 0)%nat then (Some EmptyCustomSet, None)
      else (splitError, Some customSplits)
  end.

(** The guards in front of the split: they stop [handleSubmit] with an
    error or a redirect, or let it go on with the trimmed description, the
    parsed amount and the signed-in user. *)
Definition validate (s : State)
    : Errors * Effect + string * number * AuthUser.t :=
  let trimmedDescription := trim (description s) in
  if isEmpty trimmedDescription then
    inl (setDescriptionError "Please enter a description.", Return)
  else if negb (descriptionPattern_test trimmedDescription) then
    inl (setDescriptionError
           "Description can only contain letters, numbers, spaces, and basic punctuation.",
         Return)
  else
    let numericAmount := parseFloat (amount s) in
    if isEmpty (amount s) || isNaN numericAmount || le numericAmount (ofZ 0)
    then inl (setAmountError "Please enter a valid positive amount.", Return)
    else if tooManyDecimals (amount s) then
      inl (setAmountError "Amount cannot have more than 2 decimal places.",
           Return)
    else
      match currentUser s with
      | None => inl (noErrors, RouterReplace "/login")
      | Some user => inr (trimmedDescription, numericAmount, user)
      end.

(** [splits.map((s) => ({ expense_id: expenseId, ... }))] *)
Definition splitRows (splits : list SplitRow.t) (expenseId : string)
    : list ExpenseSplitRow.t :=
  map (fun s => {| ExpenseSplitRow.expense_id := expenseId;
                   ExpenseSplitRow.user_id := SplitRow.user_id s;
                   ExpenseSplitRow.amount := SplitRow.amount s |}) splits.

Definition handleSubmit (s : State) : Errors * Effect :=
  match validate s with
  | inl stopped => stopped
  | inr (trimmedDescription, numericAmount, user) =>
      let participantIds := participantIds s in
      if bool_decide (splitType s = equal_selected)
         && (length participantIds =? 0)%nat
      then (setSplitError (Some NoneSelected), Return)
      else
        let totalCents := Math_round (mul numericAmount (ofZ 100)) in
        match buildSplits (splitType s) totalCents participantIds
                (members s) (customShares s) with
        | (splitError, None) => (setSplitError splitError, Return)
        | (splitError, Some splits) =>
            if (length splits =? 0)%nat then
              (setSplitError (Some NoSplits), Return)
            else
              (setSplitError splitError,
               Insert {| ExpenseRow.group_id := groupId s;
                         ExpenseRow.description := trimmedDescription;
                         ExpenseRow.amount := numericAmount;
                         ExpenseRow.paid_by := paidBy s;
                         ExpenseRow.split_type := splitType s;
                         ExpenseRow.created_by := AuthUser.id user;
                         ExpenseRow.type := expenseType s |}
                      (splitRows splits))
        end
  end.

(** *** Vocabulary of the properties *)

(** The minor-unit value of a decimal amount, as [handleSubmit] takes it for
    the total and for the custom shares: [Math.round(amount * 100)]. *)
Definition minorUnits (amount : number) : number :=
  Math_round (mul amount (ofZ 100)).

Definition sumOf (l : list number) : number := fold_left add l (ofZ 0).

(** The minor-unit amounts of split lines, in the order of the lines. *)
Definition lineCents (splits : list SplitRow.t) : list number :=
  map (fun line => minorUnits (SplitRow.amount line)) splits.

(** The share in minor units of the participant at [index] when [T] minor
    units are split between [N]: the quotient, and one more for the first
    [T mod N]. *)
Definition shareCents (T : Z) (N index : nat) : Z :=
  T / Z.of_nat N + (if Z.of_nat index <? T mod Z.of_nat N then 1 else 0).

Definition Zsum (l : list Z) : Z := foldr Z.add 0 l.

(** The text of a member's custom share, white space trimmed. *)
Definition entry (customShares : gmap string string) (member : Member.t)
    : string :=
  trim (default ""%string (customShares !! Member.userId member)).

(** A share is accepted when it is not blank, parses to a number and is not
    negative. *)
Definition accepted (raw : string) : bool :=
  negb (isEmpty raw) && negb (isNaN (parseFloat raw))
  && negb (lt (parseFloat raw) (ofZ 0)).

Definition rejected (raw : string) : bool :=
  negb (isEmpty raw) && (isNaN (parseFloat raw) || lt (parseFloat raw) (ofZ 0)).

(** The minor-unit values of the accepted shares, in the order of the
    members. *)
Definition acceptedCents (members : list Member.t)
    (customShares : gmap string string) : list number :=
  map (fun member => minorUnits (parseFloat (entry customShares member)))
    (List.filter (fun member => accepted (entry customShares member)) members).

(** A member has a positive share when the share is accepted and worth at
    least one minor unit. *)
Definition hasPositiveShare (customShares : gmap string string)
    (member : Member.t) : bool :=
  accepted (entry customShares member)
  && gt (minorUnits (parseFloat (entry customShares member))) (ofZ 0).

(** The line that the loop of the custom split pushes for a member with a
    positive share. *)
Definition customLine (customShares : gmap string string) (member : Member.t)
    : SplitRow.t :=
  {| SplitRow.user_id := Member.userId member;
     SplitRow.amount :=
       div (minorUnits (parseFloat (entry customShares member))) (ofZ 100) |}.

(** The minor-unit values that the loop of the custom split adds up: those
    of the members with a positive share, in the order of the members. *)
Definition positiveCents (members : list Member.t)
    (customShares : gmap string string) : list number :=
  map (fun member => minorUnits (parseFloat (entry customShares member)))
    (List.filter (hasPositiveShare customShares) members).

(** The amounts of split lines, in the order of the lines. *)
Definition amounts (splits : list SplitRow.t) : list number :=
  map SplitRow.amount splits.

End AddExpense.

(** ** The add-credit page *)

Module AddCredit.

Import Js.

Record State := {
  groupId : string;
  currentUser : option AuthUser.t;
  members : list Member.t;
  description : string;
  amount : string;
  paidBy : string;
  paidTo : string }.

Record Errors := {
  descriptionError : option string;
  amountError : option string;
  participantError : option string;
  generalError : option string }.

Definition noErrors : Errors :=
  {| descriptionError := None; amountError := None;
     participantError := None; generalError := None |}.

Definition setDescriptionError (msg : string) : Errors :=
  {| descriptionError := Some msg; amountError := None;
     participantError := None; generalError := None |}.

Definition setAmountError (msg : string) : Errors :=
  {| descriptionError := None; amountError := Some msg;
     participantError := None; generalError := None |}.

Definition setParticipantError (msg : string) : Errors :=
  {| descriptionError := None; amountError := None;
     participantError := Some msg; generalError := None |}.

Definition MissingParticipant : string :=
  "Please select both who paid and who received.".
Definition SameParticipant : string :=
  "Paid by and Paid to cannot be the same person.".

(** The guards on the description and on the amount. *)
Definition validate (s : State) : Errors * Effect + string * number :=
  let trimmedDescription := trim (description s) in
  if isEmpty trimmedDescription then
    inl (setDescriptionError "Please enter a description.", Return)
  else if negb (descriptionPattern_test trimmedDescription) then
    inl (setDescriptionError
           "Description can only contain letters, numbers, spaces, and basic punctuation.",
         Return)
  else
    let numericAmount := parseFloat (amount s) in
    if isEmpty (amount s) || isNaN numericAmount || le numericAmount (ofZ 0)
    then inl (setAmountError "Amount must be greater than zero.", Return)
    else if tooManyDecimals (amount s) then
      inl (setAmountError "Amount cannot have more than 2 decimal places.",
           Return)
    else inr (trimmedDescription, numericAmount).

(** The array [splits] built once the store has answered with [expenseId]. *)
Definition splits (paidBy paidTo : string) (numericAmount : number)
    (expenseId : string) : list ExpenseSplitRow.t :=
  [ {| ExpenseSplitRow.expense_id := expenseId;
       ExpenseSplitRow.user_id := paidBy;
       ExpenseSplitRow.amount := neg numericAmount |};
    {| ExpenseSplitRow.expense_id := expenseId;
       ExpenseSplitRow.user_id := paidTo;
       ExpenseSplitRow.amount := numericAmount |} ].

Definition handleSubmit (s : State) : Errors * Effect :=
  match validate s with
  | inl stopped => stopped
  | inr (trimmedDescription, numericAmount) =>
      if isEmpty (paidBy s) || isEmpty (paidTo s) then
        (setParticipantError MissingParticipant, Return)
      else if String.eqb (paidBy s) (paidTo s) then
        (setParticipantError SameParticipant, Return)
      else
        match currentUser s with
        | None => (noErrors, RouterReplace "/login")
        | Some user =>
            if String.eqb (paidBy s) (paidTo s) then
              (setParticipantError SameParticipant, Return)
            else
              (noErrors,
               Insert {| ExpenseRow.group_id := groupId s;
                         ExpenseRow.description := trimmedDescription;
                         ExpenseRow.amount := numericAmount;
                         ExpenseRow.paid_by := paidBy s;
                         ExpenseRow.split_type := custom;
                         ExpenseRow.created_by := AuthUser.id user;
                         ExpenseRow.type := credit |}
                      (splits (paidBy s) (paidTo s) numericAmount))
        end
  end.

(** The same form with payer and recipient exchanged. *)
Definition swapParticipants (s : State) : State :=
  {| groupId := groupId s; currentUser := currentUser s;
     members := members s; description := description s;
     amount := amount s; paidBy := paidTo s; paidTo := paidBy s |}.

(** *** Vocabulary of the properties *)

(** A split line with its amount negated. *)
Definition negateLine (line : ExpenseSplitRow.t) : ExpenseSplitRow.t :=
  {| ExpenseSplitRow.expense_id := ExpenseSplitRow.expense_id line;
     ExpenseSplitRow.user_id := ExpenseSplitRow.user_id line;
     ExpenseSplitRow.amount := neg (ExpenseSplitRow.amount line) |}.

End AddCredit.

(** ** The rest of the two pages *)

(** The answers of the collaborators to the four requests of [loadData]:
    the signed-in user, the membership of the user in the group, the member
    rows of the group and the profiles of the members.  For each request
    the answer is the pair of [data] and [error]; either can be [null]. *)
Module Store.

Record Error := { code : string; message : string }.

Record ProfileRow := { id : string; email : option string }.

Record Answers := {
  user : option AuthUser.t;
  userError : option Error;
  membership : option string;
  membershipError : option Error;
  memberRows : option (list string);
  membersError : option Error;
  profiles : option (list ProfileRow);
  profilesError : option Error }.

(** [emailById]: the map filled by [emailById.set] for each profile row, a
    later row replacing an earlier one with the same id. *)
Definition emailById (profiles : option (list ProfileRow))
    : gmap string (option string) :=
  fold_left (fun emails p => <[id p := email p]> emails)
    (default [] profiles) ∅.

(** [mappedMembers]; [emailById.get(id) ?? null] is [null] for an id without
    a profile row. *)
Definition mappedMembers (userIds : list string)
    (emails : gmap string (option string)) : list Member.t :=
  map (fun userId => {| Member.userId := userId;
                        Member.email := default None (emails !! userId) |})
    userIds.

(** [membershipError && membershipError.code !== 'PGRST116'] *)
Definition membershipFailed (answers : Answers) : bool :=
  match membershipError answers with
  | Some e => negb (String.eqb (code e) "PGRST116")
  | None => false
  end.

End Store.

(** The component [AddExpensePage] around [handleSubmit]. *)
Module AddExpensePage.

Import Js AddExpense.

(** What [loadData] leaves in the state of the component, and where it
    redirects.  The component mounts with no user, no member, an empty
    [paidBy], no error, and [isLoading] set. *)
Module Loaded.
Record t := {
  currentUser : option AuthUser.t;
  members : list Member.t;
  paidBy : string;
  generalError : option string;
  isLoading : bool;
  redirect : option string }.
End Loaded.

Definition stopped (currentUser : option AuthUser.t)
    (generalError : option string) : Loaded.t :=
  {| Loaded.currentUser := currentUser; Loaded.members := [];
     Loaded.paidBy := ""; Loaded.generalError := generalError;
     Loaded.isLoading := false; Loaded.redirect := None |}.

Definition redirected (currentUser : option AuthUser.t) (path : string)
    : Loaded.t :=
  {| Loaded.currentUser := currentUser; Loaded.members := [];
     Loaded.paidBy := ""; Loaded.generalError := None;
     Loaded.isLoading := true; Loaded.redirect := Some path |}.

(** The default of "Paid By": the current user when listed, otherwise the
    first member. *)
Definition defaultPaidBy (authUser : AuthUser.t)
    (mappedMembers : list Member.t) : string :=
  if existsb (fun m => String.eqb (Member.userId m) (AuthUser.id authUser))
       mappedMembers
  then AuthUser.id authUser
  else match mappedMembers with
       | m :: _ => Member.userId m
       | [] => ""
       end.

Definition loadData (answers : Store.Answers) : Loaded.t :=
  match Store.userError answers, Store.user answers with
  | Some _, _ | None, None => redirected None "/login"
  | None, Some authUser =>
      if Store.membershipFailed answers then
        stopped (Some authUser)
          (Some "Could not verify your access to this group."%string)
      else
        match Store.membership answers with
        | None => redirected (Some authUser) "/dashboard"
        | Some _ =>
            match Store.membersError answers with
            | Some _ =>
                stopped (Some authUser)
                  (Some "Could not load group members."%string)
            | None =>
                let userIds := default [] (Store.memberRows answers) in
                if (length userIds =? 0)%nat then stopped (Some authUser) None
                else
                  match Store.profilesError answers with
                  | Some _ =>
                      stopped (Some authUser)
                        (Some "Could not load member details."%string)
                  | None =>
                      let mappedMembers :=
                        Store.mappedMembers userIds
                          (Store.emailById (Store.profiles answers)) in
                      {| Loaded.currentUser := Some authUser;
                         Loaded.members := mappedMembers;
                         Loaded.paidBy := defaultPaidBy authUser mappedMembers;
                         Loaded.generalError := None;
                         Loaded.isLoading := false;
                         Loaded.redirect := None |}
                  end
            end
        end
  end.

(** The form as [loadData] leaves it, with what the user then enters. *)
Definition form (loaded : Loaded.t) (groupId description amount : string)
    (expenseType : ExpenseType) (splitType : SplitType)
    (selectedMemberIds : list string) (customShares : gmap string string)
    : State :=
  {| groupId := groupId;
     currentUser := Loaded.currentUser loaded;
     members := Loaded.members loaded;
     description := description;
     amount := amount;
     paidBy := Loaded.paidBy loaded;
     expenseType := expenseType;
     splitType := splitType;
     selectedMemberIds := selectedMemberIds;
     customShares := customShares |}.

(** [prev.includes(userId)] *)
Definition includes (userId : string) (prev : list string) : bool :=
  existsb (String.eqb userId) prev.

(** The update that [toggleSelectedMember] hands to
    [setSelectedMemberIds]. *)
Definition toggled (userId : string) (prev : list string) : list string :=
  if includes userId prev
  then List.filter (fun id => negb (String.eqb id userId)) prev
  else prev ++ [userId].

Definition setSelectedMemberIds (s : State) (ids : list string) : State :=
  {| groupId := groupId s; currentUser := currentUser s;
     members := members s; description := description s;
     amount := amount s; paidBy := paidBy s;
     expenseType := expenseType s; splitType := splitType s;
     selectedMemberIds := ids; customShares := customShares s |}.

Definition setCustomShares (s : State) (shares : gmap string string) : State :=
  {| groupId := groupId s; currentUser := currentUser s;
     members := members s; description := description s;
     amount := amount s; paidBy := paidBy s;
     expenseType := expenseType s; splitType := splitType s;
     selectedMemberIds := selectedMemberIds s; customShares := shares |}.

Definition toggleSelectedMember (s : State) (userId : string) : State :=
  setSelectedMemberIds s (toggled userId (selectedMemberIds s)).

(** [{ ...prev, [userId]: value }] *)
Definition handleCustomShareChange (s : State) (userId value : string)
    : State :=
  setCustomShares s (<[userId := value]> (customShares s)).

(** The running total shown above the custom shares: the callback of
    [members.reduce], then [customTotal]. *)
Definition addShare (customShares : gmap string string) (sum : number)
    (member : Member.t) : number :=
  let raw := trim (default ""%string (customShares !! Member.userId member)) in
  if isEmpty raw then sum
  else
    let value := parseFloat raw in
    if isNaN value || lt value (ofZ 0) then sum else add sum value.

Definition customTotal (s : State) : number :=
  match splitType s with
  | custom => fold_left (addShare (customShares s)) (members s) (ofZ 0)
  | _ => ofZ 0
  end.

Definition amountNumber (s : State) : number := parseFloat (amount s).

Definition hasValidAmountNumber (s : State) : bool :=
  negb (isNaN (amountNumber s)) && gt (amountNumber s) (ofZ 0).

(** The running total is shown in green when
    [Math.round(customTotal * 100) === Math.round(amountNumber * 100)],
    in amber otherwise. *)
Definition totalIsGreen (s : State) : bool :=
  strictEq (Math_round (mul (customTotal s) (ofZ 100)))
           (Math_round (mul (amountNumber s) (ofZ 100))).

(** *** Vocabulary of the properties *)

(** The selection after a series of clicks on the check boxes, starting
    with nobody selected. *)
Definition clicked (clicks : list string) : list string :=
  fold_left (fun prev userId => toggled userId prev) clicks [].

End AddExpensePage.

(** The component [AddCreditPage] around [handleSubmit]. *)
Module AddCreditPage.

Import Js AddCredit.

Module Loaded.
Record t := {
  currentUser : option AuthUser.t;
  members : list Member.t;
  paidBy : string;
  paidTo : string;
  generalError : option string;
  isLoading : bool;
  redirect : option string }.
End Loaded.

Definition stopped (currentUser : option AuthUser.t)
    (generalError : option string) : Loaded.t :=
  {| Loaded.currentUser := currentUser; Loaded.members := [];
     Loaded.paidBy := ""; Loaded.paidTo := "";
     Loaded.generalError := generalError;
     Loaded.isLoading := false; Loaded.redirect := None |}.

Definition redirected (currentUser : option AuthUser.t) (path : string)
    : Loaded.t :=
  {| Loaded.currentUser := currentUser; Loaded.members := [];
     Loaded.paidBy := ""; Loaded.paidTo := "";
     Loaded.generalError := None;
     Loaded.isLoading := true; Loaded.redirect := Some path |}.

(** [firstOther.userId]: the first member who is not the current user,
    otherwise the first member. *)
Definition defaultPaidTo (authUser : AuthUser.t)
    (mappedMembers : list Member.t) : string :=
  match List.find (fun m => negb (String.eqb (Member.userId m)
                                              (AuthUser.id authUser)))
          mappedMembers with
  | Some firstOther => Member.userId firstOther
  | None => match mappedMembers with
            | m :: _ => Member.userId m
            | [] => ""
            end
  end.

Definition loadData (answers : Store.Answers) : Loaded.t :=
  match Store.userError answers, Store.user answers with
  | Some _, _ | None, None => redirected None "/login"
  | None, Some authUser =>
      if Store.membershipFailed answers then
        stopped (Some authUser)
          (Some "Could not verify your access to this group."%string)
      else
        match Store.membership answers with
        | None => redirected (Some authUser) "/dashboard"
        | Some _ =>
            match Store.membersError answers with
            | Some _ =>
                stopped (Some authUser)
                  (Some "Could not load group members."%string)
            | None =>
                let userIds := default [] (Store.memberRows answers) in
                if (length userIds =? 0)%nat then stopped (Some authUser) None
                else
                  match Store.profilesError answers with
                  | Some _ =>
                      stopped (Some authUser)
                        (Some "Could not load member details."%string)
                  | None =>
                      let mappedMembers :=
                        Store.mappedMembers userIds
                          (Store.emailById (Store.profiles answers)) in
                      {| Loaded.currentUser := Some authUser;
                         Loaded.members := mappedMembers;
                         Loaded.paidBy :=
                           if (0 <? length mappedMembers)%nat
                           then AuthUser.id authUser else "";
                         Loaded.paidTo :=
                           if (0 <? length mappedMembers)%nat
                           then defaultPaidTo authUser mappedMembers else "";
                         Loaded.generalError := None;
                         Loaded.isLoading := false;
                         Loaded.redirect := None |}
                  end
            end
        end
  end.

(** The form as [loadData] leaves it, with what the user then enters. *)
Definition form (loaded : Loaded.t) (groupId description amount : string)
    : State :=
  {| groupId := groupId;
     currentUser := Loaded.currentUser loaded;
     members := Loaded.members loaded;
     description := description;
     amount := amount;
     paidBy := Loaded.paidBy loaded;
     paidTo := Loaded.paidTo loaded |}.

(** *** Vocabulary of the properties *)

(** The sum of the amounts of split rows. *)
Definition total (rows : list ExpenseSplitRow.t) : number :=
  fold_left (fun sum row => add sum (ExpenseSplitRow.amount row)) rows (ofZ 0).

End AddCreditPage.

(** ** Forms used as worked examples *)

Module Examples.

Definition member (userId : string) : Member.t :=
  {| Member.userId := userId; Member.email := None |}.

Definition me : AuthUser.t :=
  {| AuthUser.id := "A"; AuthUser.email := Some "a@example.org"%string |}.

(** A dinner shared by the members [A], [B] and [C]. *)
Definition dinner (amount : string) (splitType : SplitType)
    (selectedMemberIds : list string) (customShares : gmap string string)
    : AddExpense.State :=
  {| AddExpense.groupId := "g1";
     AddExpense.currentUser := Some me;
     AddExpense.members := [member "A"; member "B"; member "C"];
     AddExpense.description := "Dinner";
     AddExpense.amount := amount;
     AddExpense.paidBy := "A";
     AddExpense.expenseType := expense;
     AddExpense.splitType := splitType;
     AddExpense.selectedMemberIds := selectedMemberIds;
     AddExpense.customShares := customShares |}.

(** A repayment between two members. *)
Definition repayment (amount paidBy paidTo : string) : AddCredit.State :=
  {| AddCredit.groupId := "g1";
     AddCredit.currentUser := Some me;
     AddCredit.members := [member "A"; member "B"; member "C"];
     AddCredit.description := "Settling up";
     AddCredit.amount := amount;
     AddCredit.paidBy := paidBy;
     AddCredit.paidTo := paidTo |}.

(** Custom shares typed for [A] and [B]; the field of [C] is left blank. *)
Definition shares (forA forB : string) : gmap string string :=
  <["A"%string := forA]> (<["B"%string := forB]> ∅).

(** Custom shares given as a list of member and text. *)
Definition typed (l : list (string * string)) : gmap string string :=
  list_to_map l.

(** Answers of the store for a group whose member rows are [userIds],
    for the signed-in user [me]; one profile row has no email. *)
Definition answersFor (userIds : list string) : Store.Answers :=
  {| Store.user := Some me;
     Store.userError := None;
     Store.membership := Some "m1"%string;
     Store.membershipError := None;
     Store.memberRows := Some userIds;
     Store.membersError := None;
     Store.profiles :=
       Some [ {| Store.id := "A"; Store.email := Some "old@example.org"%string |};
              {| Store.id := "B"; Store.email := None |};
              {| Store.id := "A"; Store.email := Some "a@example.org"%string |} ];
     Store.profilesError := None |}.

End Examples.
(** * Facts *)

(** ** Rounding to nearest even, in integers *)

Module Binary64Facts.

Import Js Binary64.

Lemma digits2_size p : digits2_pos p = Pos.size p.
Proof. induction p; simpl; congruence. Qed.

Lemma Zdigits2_log2 m : 0 < m -> Zdigits2 m = Z.log2 m + 1.
Proof.
  destruct m as [|p|p]; try lia. intros _.
  destruct p; simpl; rewrite ?digits2_size; lia.
Qed.

Lemma Zdigits2_bounds m : 0 < m -> 2 ^ (Zdigits2 m - 1) <= m < 2 ^ Zdigits2 m.
Proof.
  intros H. rewrite (Zdigits2_log2 m H).
  replace (Z.log2 m + 1 - 1) with (Z.log2 m) by lia.
  apply Z.log2_spec; exact H.
Qed.

Lemma Zdigits2_unique m d : 0 < d -> 2 ^ (d - 1) <= m < 2 ^ d -> Zdigits2 m = d.
Proof.
  intros Hd H.
  assert (0 < m) by (assert (0 < 2 ^ (d - 1)) by (apply Z.pow_pos_nonneg; lia); lia).
  rewrite Zdigits2_log2 by assumption.
  rewrite (Z.log2_unique m (d - 1)); [lia | lia |].
  replace (Z.succ (d - 1)) with d by lia. exact H.
Qed.

Lemma Zdigits2_pos m : 0 < m -> 0 < Zdigits2 m.
Proof. destruct m; simpl; lia. Qed.

Lemma iter_pos_nat {A} (f : A -> A) p x :
  SpecFloat.iter_pos f p x = Nat.iter (Pos.to_nat p) f x.
Proof.
  revert x. induction p as [p IH|p IH|]; intros x.
  - rewrite Pos2Nat.inj_xI.
    replace (S (2 * Pos.to_nat p))%nat with (Pos.to_nat p + (Pos.to_nat p + 1))%nat by lia.
    rewrite !Nat.iter_add. cbn [SpecFloat.iter_pos]. rewrite !IH. reflexivity.
  - rewrite Pos2Nat.inj_xO.
    replace (2 * Pos.to_nat p)%nat with (Pos.to_nat p + Pos.to_nat p)%nat by lia.
    rewrite Nat.iter_add. cbn [SpecFloat.iter_pos]. rewrite !IH. reflexivity.
  - reflexivity.
Qed.

Lemma shr_1_spec m r s :
  0 <= m ->
  shr_1 {| shr_m := m; shr_r := r; shr_s := s |}
  = {| shr_m := m / 2; shr_r := Z.odd m; shr_s := r || s |}.
Proof.
  intros H. rewrite <- Z.div2_div.
  destruct m as [|[p|p|]|p]; try reflexivity. lia.
Qed.

Lemma mod_pow2_succ m n :
  0 <= n ->
  (m mod 2 ^ (n + 1) =? 0) = negb (Z.testbit m n) && (m mod 2 ^ n =? 0).
Proof.
  intros Hn.
  assert (H2 : 0 < 2 ^ n) by (apply Z.pow_pos_nonneg; lia).
  rewrite Z.pow_add_r by lia. change (2 ^ 1) with 2.
  rewrite Z.rem_mul_r by lia.
  rewrite <- Z.testbit_spec' by lia.
  pose proof (Z.mod_pos_bound m (2 ^ n) H2).
  destruct (Z.testbit m n); simpl; destruct (Z.eqb_spec (m mod 2 ^ n) 0); lia.
Qed.

Lemma shr_iter n m r s :
  0 <= m ->
  Nat.iter (S n) shr_1 {| shr_m := m; shr_r := r; shr_s := s |}
  = {| shr_m := m / 2 ^ Z.of_nat (S n);
       shr_r := Z.testbit m (Z.of_nat n);
       shr_s := r || s || negb (m mod 2 ^ Z.of_nat n =? 0) |}.
Proof.
  intros H. induction n as [|n IH].
  - unfold Nat.iter; cbn [nat_rect]. rewrite shr_1_spec by assumption.
    change (Z.of_nat 1) with 1. change (Z.of_nat 0) with 0.
    rewrite Z.pow_1_r, Z.pow_0_r, Z.mod_1_r, Z.bit0_odd. simpl.
    rewrite orb_false_r. reflexivity.
  - rewrite (Nat.iter_succ (S n)). rewrite IH. rewrite shr_1_spec.
    2:{ apply Z.div_pos; [lia | apply Z.pow_pos_nonneg; lia]. }
    f_equal.
    + rewrite Z.div_div by (try apply Z.pow_pos_nonneg; lia).
      f_equal. rewrite (Nat2Z.inj_succ (S n)), Z.pow_succ_r by lia. lia.
    + rewrite Z.testbit_odd, Z.shiftr_div_pow2 by lia. reflexivity.
    + rewrite (Nat2Z.inj_succ n). unfold Z.succ.
      rewrite mod_pow2_succ by lia.
      destruct (Z.testbit m (Z.of_nat n)), r, s, (m mod 2 ^ Z.of_nat n =? 0);
        reflexivity.
Qed.

Lemma shr_record_of_loc_bits m l :
  shr_record_of_loc m l = {| shr_m := m; shr_r := loc_r l; shr_s := loc_s l |}.
Proof. destruct l as [|[]]; reflexivity. Qed.

Lemma shr_spec m l e n :
  0 <= m ->
  shr (shr_record_of_loc m l) e n = (shifted m l n, e + Z.max 0 n).
Proof.
  intros H. unfold shr, shifted. destruct n as [|p|p].
  - simpl. f_equal. lia.
  - rewrite iter_pos_nat.
    destruct (Pos2Nat.is_succ p) as [k Hk]. rewrite Hk.
    rewrite shr_record_of_loc_bits, shr_iter by assumption.
    replace (Z.of_nat (S k)) with (Z.pos p) by lia.
    replace (Z.of_nat k) with (Z.pos p - 1) by lia.
    simpl (Z.pos p <=? 0). cbv iota. f_equal.
  - simpl. f_equal. lia.
Qed.

Lemma rne_spec mrs :
  round_nearest_even (shr_m mrs) (loc_of_shr_record mrs) = rne mrs.
Proof.
  unfold rne. destruct mrs as [m [] []]; simpl.
  - lia.
  - destruct (Z.even m) eqn:E; rewrite <- Z.negb_even, E; simpl; lia.
  - lia.
  - lia.
Qed.

Lemma shifted_nonneg m l n : 0 <= m -> 0 <= shr_m (shifted m l n).
Proof.
  intros H. unfold shifted. destruct (n <=? 0) eqn:E.
  - rewrite shr_record_of_loc_bits. exact H.
  - simpl. apply Z.div_pos; [lia | apply Z.pow_pos_nonneg; lia].
Qed.

Lemma rne_nonneg mrs : 0 <= shr_m mrs -> 0 <= rne mrs.
Proof. unfold rne. destruct (_ && _); lia. Qed.

(** [binary_round_aux] with its shifts written as divisions. *)
Lemma binary_round_aux_unfold sx mx ex lx :
  0 <= mx ->
  binary_round_aux prec emax sx mx ex lx =
  let n1 := fexp prec emax (Zdigits2 mx + ex) - ex in
  let m1 := rne (shifted mx lx n1) in
  let e1 := ex + Z.max 0 n1 in
  let n2 := fexp prec emax (Zdigits2 m1 + e1) - e1 in
  let e2 := e1 + Z.max 0 n2 in
  match shr_m (shifted m1 loc_Exact n2) with
  | Z0 => S754_zero sx
  | Z.pos m => if e2 <=? emax - prec then S754_finite sx m e2 else S754_infinity sx
  | Z.neg _ => S754_nan
  end.
Proof.
  intros H. unfold binary_round_aux, shr_fexp.
  rewrite shr_spec by assumption.
  rewrite rne_spec.
  rewrite shr_spec by (apply rne_nonneg, shifted_nonneg, H).
  reflexivity.
Qed.


Lemma fexp_eq e : fexp prec emax e = Z.max (e - 53) (-1074).
Proof. reflexivity. Qed.

Lemma rne_bounds mrs : shr_m mrs <= rne mrs <= shr_m mrs + 1.
Proof. unfold rne. destruct (_ && _); lia. Qed.

Lemma pow2_pos n : 0 <= n -> 0 < 2 ^ n.
Proof. intros. apply Z.pow_pos_nonneg; lia. Qed.

Lemma shifted_normal mx lx d :
  0 < mx -> Zdigits2 mx = d -> 53 <= d ->
  2 ^ 52 <= shr_m (shifted mx lx (d - 53)) < 2 ^ 53.
Proof.
  intros Hm Hd H53. pose proof (Zdigits2_bounds mx Hm) as B. rewrite Hd in B.
  unfold shifted. destruct (Z.leb_spec (d - 53) 0) as [E|E].
  - assert (E53 : d = 53) by lia. rewrite E53 in B.
    rewrite shr_record_of_loc_bits. simpl shr_m.
    change (53 - 1) with 52 in B. exact B.
  - simpl shr_m.
    assert (P : 0 < 2 ^ (d - 53)) by (apply pow2_pos; lia).
    assert (E1 : 2 ^ (d - 1) = 2 ^ 52 * 2 ^ (d - 53))
      by (rewrite <- Z.pow_add_r by lia; f_equal; lia).
    assert (E2 : 2 ^ d = 2 ^ 53 * 2 ^ (d - 53))
      by (rewrite <- Z.pow_add_r by lia; f_equal; lia).
    split.
    + apply Z.div_le_lower_bound; lia.
    + apply Z.div_lt_upper_bound; lia.
Qed.

Lemma round_normal sx mx ex lx d :
  0 < mx -> -1074 <= ex -> Zdigits2 mx = d -> 53 <= d ->
  binary_round_aux prec emax sx mx ex lx
  = rounded sx (rne (shifted mx lx (d - 53))) (ex + (d - 53)).
Proof.
  intros Hm He Hd H53.
  rewrite binary_round_aux_unfold by lia. cbv zeta.
  rewrite Hd, !fexp_eq.
  replace (Z.max (d + ex - 53) (-1074) - ex) with (d - 53) by lia.
  replace (Z.max 0 (d - 53)) with (d - 53) by lia.
  pose proof (shifted_normal mx lx d Hm Hd H53) as B.
  pose proof (rne_bounds (shifted mx lx (d - 53))) as R.
  set (m1 := rne (shifted mx lx (d - 53))) in *.
  set (e1 := ex + (d - 53)).
  unfold rounded. destruct (Z.eqb_spec m1 (2 ^ 53)) as [E|E].
  - rewrite E. change (Zdigits2 (2 ^ 53)) with 54.
    replace (Z.max (54 + e1 - 53) (-1074) - e1) with 1 by lia.
    reflexivity.
  - assert (D1 : Zdigits2 m1 = 53) by (apply Zdigits2_unique; lia).
    rewrite D1.
    replace (Z.max (53 + e1 - 53) (-1074) - e1) with 0 by lia.
    unfold shifted. simpl (0 <=? 0). cbv iota. simpl shr_m.
    replace (e1 + Z.max 0 0) with e1 by lia.
    destruct m1 as [|p|p]; try lia. reflexivity.
Qed.

Lemma iter_xO p k : Z.pos (Pos.iter xO p k) = Z.pos p * 2 ^ Z.pos k.
Proof.
  induction k as [|k IH] using Pos.peano_ind.
  - simpl. lia.
  - rewrite Pos.iter_succ, Pos2Z.inj_xO, IH, Pos2Z.inj_succ, Z.pow_succ_r by lia. lia.
Qed.

Lemma shl_align_spec mx ex ex' :
  let '(mz, ez) := shl_align mx ex ex' in
  Z.pos mz = Z.pos mx * 2 ^ (ex - Z.min ex ex') /\ ez = Z.min ex ex'.
Proof.
  unfold shl_align. destruct (ex' - ex) as [|d|d] eqn:E.
  - replace (Z.min ex ex') with ex by lia. rewrite Z.sub_diag. simpl. lia.
  - replace (Z.min ex ex') with ex by lia. rewrite Z.sub_diag. simpl. lia.
  - replace (Z.min ex ex') with ex' by lia. rewrite iter_xO.
    replace (ex - ex') with (Z.pos d) by lia. auto.
Qed.

Lemma scaled_digits z k :
  0 < z -> 0 <= k -> Zdigits2 (z * 2 ^ k) = Zdigits2 z + k.
Proof.
  intros Hz Hk. pose proof (Zdigits2_bounds z Hz) as B.
  pose proof (Zdigits2_pos z Hz).
  apply Zdigits2_unique; [lia|].
  replace (Zdigits2 z + k - 1) with (Zdigits2 z - 1 + k) by lia.
  rewrite !Z.pow_add_r by lia.
  pose proof (pow2_pos k Hk). nia.
Qed.

Lemma safe_digits z : 0 < z < 2 ^ 53 -> 1 <= Zdigits2 z <= 53.
Proof.
  intros [Hz H]. pose proof (Zdigits2_bounds z Hz) as B.
  pose proof (Zdigits2_pos z Hz). split; [lia|].
  destruct (Z.le_gt_cases (Zdigits2 z) 53) as [L|G]; [exact L|exfalso].
  assert (2 ^ 53 <= 2 ^ (Zdigits2 z - 1)) by (apply Z.pow_le_mono_r; lia). lia.
Qed.

(** Rounding a mantissa that carries an integer below 2^53 shifted left
    loses nothing. *)
Lemma round_scaled sx z k :
  0 < z < 2 ^ 53 -> 0 <= k <= 1074 -> 53 <= Zdigits2 z + k ->
  binary_round_aux prec emax sx (z * 2 ^ k) (- k) loc_Exact
  = S754_finite sx (Z.to_pos (z * 2 ^ (53 - Zdigits2 z))) (Zdigits2 z - 53).
Proof.
  intros Hz Hk Hd. pose proof (safe_digits z Hz) as D.
  pose proof (pow2_pos k ltac:(lia)) as Pk.
  rewrite (round_normal sx _ _ _ (Zdigits2 z + k));
    [| nia | lia | apply scaled_digits; lia | lia].
  set (d := Zdigits2 z) in *.
  set (n := d + k - 53).
  assert (M : shifted (z * 2 ^ k) loc_Exact n
              = {| shr_m := z * 2 ^ (53 - d); shr_r := false; shr_s := false |}).
  { unfold shifted. destruct (Z.leb_spec n 0) as [E|E].
    - assert (k = 53 - d) by lia. subst k. reflexivity.
    - f_equal.
      + replace k with ((53 - d) + n) by lia.
        rewrite Z.pow_add_r, Z.mul_assoc by lia.
        apply Z.div_mul. pose proof (pow2_pos n); lia.
      + apply Z.mul_pow2_bits_low. lia.
      + simpl. replace k with ((k - (n - 1)) + (n - 1)) by lia.
        rewrite Z.pow_add_r, Z.mul_assoc by lia.
        rewrite Z.mod_mul by (pose proof (pow2_pos (n - 1)); lia).
        reflexivity. }
  rewrite M. unfold rne. simpl.
  rewrite Z.add_0_r.
  assert (B : 2 ^ 52 <= z * 2 ^ (53 - d) < 2 ^ 53).
  { pose proof (Zdigits2_bounds z ltac:(lia)) as B. fold d in B.
    assert (E1 : 2 ^ (d - 1) * 2 ^ (53 - d) = 2 ^ 52)
      by (rewrite <- Z.pow_add_r by lia; f_equal; lia).
    assert (E2 : 2 ^ d * 2 ^ (53 - d) = 2 ^ 53)
      by (rewrite <- Z.pow_add_r by lia; f_equal; lia).
    pose proof (pow2_pos (53 - d) ltac:(lia)). nia. }
  unfold rounded. destruct (Z.eqb_spec (z * 2 ^ (53 - d)) (2 ^ 53)); [lia|].
  replace (- k + n) with (d - 53) by lia.
  destruct (Z.leb_spec (d - 53) 971); [reflexivity | lia].
Qed.

(** [binary_normalize] of an integer below 2^53 shifted left. *)
Lemma normalize_scaled z k :
  0 < z < 2 ^ 53 -> 0 <= k <= 1074 ->
  binary_normalize prec emax (z * 2 ^ k) (- k) false = repr z.
Proof.
  intros Hz Hk. pose proof (safe_digits z Hz) as D.
  pose proof (pow2_pos k ltac:(lia)) as Pk.
  assert (P : 0 < z * 2 ^ k) by nia.
  destruct (z * 2 ^ k) as [|p|p] eqn:Ep; try lia.
  unfold binary_normalize, binary_round.
  change (Z.pos (digits2_pos p)) with (Zdigits2 (Z.pos p)).
  rewrite <- Ep, scaled_digits, fexp_eq by lia.
  replace (Z.max (Zdigits2 z + k + - k - 53) (-1074)) with (Zdigits2 z - 53) by lia.
  pose proof (shl_align_spec p (- k) (Zdigits2 z - 53)) as S.
  destruct (shl_align p (- k) (Zdigits2 z - 53)) as [mz ez].
  destruct S as [Sm Se]. rewrite <- Ep in Sm.
  destruct (Z.le_gt_cases (- k) (Zdigits2 z - 53)) as [L|G].
  - replace (Z.min (- k) (Zdigits2 z - 53)) with (- k) in * by lia.
    rewrite Z.sub_diag, Z.mul_1_r in Sm. subst ez. rewrite Sm.
    apply round_scaled; lia.
  - replace (Z.min (- k) (Zdigits2 z - 53)) with (Zdigits2 z - 53) in * by lia.
    subst ez. rewrite Sm.
    replace (z * 2 ^ k * 2 ^ (- k - (Zdigits2 z - 53)))
      with (z * 2 ^ (53 - Zdigits2 z)).
    2:{ rewrite <- Z.mul_assoc, <- Z.pow_add_r by lia. do 2 f_equal. lia. }
    replace (Zdigits2 z - 53) with (- (53 - Zdigits2 z)) at 1 by lia.
    rewrite (round_scaled false z (53 - Zdigits2 z)) by lia.
    reflexivity.
Qed.

Lemma ofZ_repr z : 0 < z < 2 ^ 53 -> ofZ z = repr z.
Proof.
  intros Hz. unfold ofZ.
  rewrite <- (normalize_scaled z 0) by lia.
  rewrite Z.pow_0_r, Z.mul_1_r. reflexivity.
Qed.


Lemma repr_mantissa z :
  0 < z < 2 ^ 53 ->
  exists m, repr z = S754_finite false m (Zdigits2 z - 53) /\
            Z.pos m = z * 2 ^ (53 - Zdigits2 z) /\
            2 ^ 52 <= Z.pos m < 2 ^ 53.
Proof.
  intros Hz. pose proof (safe_digits z Hz) as D.
  pose proof (Zdigits2_bounds z ltac:(lia)) as B.
  set (d := Zdigits2 z) in *.
  assert (E1 : 2 ^ (d - 1) * 2 ^ (53 - d) = 2 ^ 52)
    by (rewrite <- Z.pow_add_r by lia; f_equal; lia).
  assert (E2 : 2 ^ d * 2 ^ (53 - d) = 2 ^ 53)
    by (rewrite <- Z.pow_add_r by lia; f_equal; lia).
  pose proof (pow2_pos (53 - d) ltac:(lia)).
  exists (Z.to_pos (z * 2 ^ (53 - d))). split; [reflexivity|].
  rewrite Z2Pos.id by nia. split; [reflexivity | nia].
Qed.

Lemma ofZ_0 : ofZ 0 = S754_zero false.
Proof. reflexivity. Qed.

Lemma add_ofZ a b :
  safe a -> safe b -> safe (a + b) -> add (ofZ a) (ofZ b) = ofZ (a + b).
Proof.
  unfold safe. intros Ha Hb Hab.
  destruct (Z.eq_dec a 0) as [->|Na]; [|destruct (Z.eq_dec b 0) as [->|Nb]].
  - rewrite Z.add_0_l. destruct (Z.eq_dec b 0) as [->|Nb]; [reflexivity|].
    rewrite (ofZ_repr b) by lia. reflexivity.
  - rewrite Z.add_0_r. rewrite (ofZ_repr a) by lia. reflexivity.
  - rewrite (ofZ_repr a), (ofZ_repr b), (ofZ_repr (a + b)) by lia.
    destruct (repr_mantissa a ltac:(lia)) as (ma & -> & Ma & _).
    destruct (repr_mantissa b ltac:(lia)) as (mb & -> & Mb & _).
    pose proof (safe_digits a ltac:(lia)) as Da.
    pose proof (safe_digits b ltac:(lia)) as Db.
    set (ea := Zdigits2 a - 53) in *. set (eb := Zdigits2 b - 53) in *.
    unfold add, SFadd. cbv zeta.
    pose proof (shl_align_spec ma ea (Z.min ea eb)) as Sa.
    pose proof (shl_align_spec mb eb (Z.min ea eb)) as Sb.
    destruct (shl_align ma ea (Z.min ea eb)) as [za ?].
    destruct (shl_align mb eb (Z.min ea eb)) as [zb ?].
    destruct Sa as [Sa _], Sb as [Sb _]. simpl fst. unfold cond_Zopp.
    rewrite Sa, Sb, Ma, Mb.
    replace (Z.min ea (Z.min ea eb)) with (Z.min ea eb) by lia.
    replace (Z.min eb (Z.min ea eb)) with (Z.min ea eb) by lia.
    rewrite <- !Z.mul_assoc, <- !Z.pow_add_r by lia.
    set (k := - Z.min ea eb).
    replace (53 - Zdigits2 a + (ea - Z.min ea eb)) with k by lia.
    replace (53 - Zdigits2 b + (eb - Z.min ea eb)) with k by lia.
    rewrite <- Z.mul_add_distr_r.
    replace (Z.min ea eb) with (- k) by lia.
    apply normalize_scaled; lia.
Qed.

Lemma sub_ofZ a b :
  safe a -> safe b -> b <= a -> sub (ofZ a) (ofZ b) = ofZ (a - b).
Proof.
  unfold safe. intros Ha Hb Hab.
  destruct (Z.eq_dec b 0) as [->|Nb].
  - rewrite Z.sub_0_r. destruct (Z.eq_dec a 0) as [->|Na]; [reflexivity|].
    rewrite (ofZ_repr a) by lia. reflexivity.
  - rewrite (ofZ_repr a), (ofZ_repr b) by lia.
    destruct (repr_mantissa a ltac:(lia)) as (ma & -> & Ma & _).
    destruct (repr_mantissa b ltac:(lia)) as (mb & -> & Mb & _).
    pose proof (safe_digits a ltac:(lia)) as Da.
    pose proof (safe_digits b ltac:(lia)) as Db.
    set (ea := Zdigits2 a - 53) in *. set (eb := Zdigits2 b - 53) in *.
    unfold sub, SFsub. cbv zeta.
    pose proof (shl_align_spec ma ea (Z.min ea eb)) as Sa.
    pose proof (shl_align_spec mb eb (Z.min ea eb)) as Sb.
    destruct (shl_align ma ea (Z.min ea eb)) as [za ?].
    destruct (shl_align mb eb (Z.min ea eb)) as [zb ?].
    destruct Sa as [Sa _], Sb as [Sb _]. simpl fst. unfold cond_Zopp.
    rewrite Sa, Sb, Ma, Mb.
    replace (Z.min ea (Z.min ea eb)) with (Z.min ea eb) by lia.
    replace (Z.min eb (Z.min ea eb)) with (Z.min ea eb) by lia.
    rewrite <- !Z.mul_assoc, <- !Z.pow_add_r by lia.
    set (k := - Z.min ea eb).
    replace (53 - Zdigits2 a + (ea - Z.min ea eb)) with k by lia.
    replace (53 - Zdigits2 b + (eb - Z.min ea eb)) with k by lia.
    rewrite <- Z.mul_sub_distr_r.
    replace (Z.min ea eb) with (- k) by lia.
    destruct (Z.eq_dec a b) as [->|Nab].
    + rewrite Z.sub_diag. reflexivity.
    + rewrite (ofZ_repr (a - b)) by lia. apply normalize_scaled; lia.
Qed.

Lemma mul_ofZ a b :
  safe a -> safe b -> safe (a * b) -> mul (ofZ a) (ofZ b) = ofZ (a * b).
Proof.
  unfold safe. intros Ha Hb Hab.
  destruct (Z.eq_dec a 0) as [->|Na]; [|destruct (Z.eq_dec b 0) as [->|Nb]].
  - rewrite Z.mul_0_l. destruct (Z.eq_dec b 0) as [->|Nb]; [reflexivity|].
    rewrite (ofZ_repr b) by lia. reflexivity.
  - rewrite Z.mul_0_r. rewrite (ofZ_repr a) by lia. reflexivity.
  - assert (Pab : 0 < a * b) by nia.
    rewrite (ofZ_repr a), (ofZ_repr b), (ofZ_repr (a * b)) by lia.
    destruct (repr_mantissa a ltac:(lia)) as (ma & -> & Ma & Ba).
    destruct (repr_mantissa b ltac:(lia)) as (mb & -> & Mb & Bb).
    pose proof (safe_digits a ltac:(lia)) as Da.
    pose proof (safe_digits b ltac:(lia)) as Db.
    pose proof (safe_digits (a * b) ltac:(lia)) as Dab.
    unfold mul, SFmul. simpl xorb.
    rewrite Pos2Z.inj_mul, Ma, Mb.
    set (k := (53 - Zdigits2 a) + (53 - Zdigits2 b)).
    replace (a * 2 ^ (53 - Zdigits2 a) * (b * 2 ^ (53 - Zdigits2 b)))
      with (a * b * 2 ^ k)
      by (unfold k; rewrite Z.pow_add_r by lia; ring).
    replace (Zdigits2 a - 53 + (Zdigits2 b - 53)) with (- k) by lia.
    apply round_scaled; [lia | lia |].
    rewrite <- scaled_digits by lia.
    assert (L : 2 ^ 104 <= a * b * 2 ^ k).
    { unfold k. rewrite Z.pow_add_r by lia.
      replace (a * b * (2 ^ (53 - Zdigits2 a) * 2 ^ (53 - Zdigits2 b)))
        with (a * 2 ^ (53 - Zdigits2 a) * (b * 2 ^ (53 - Zdigits2 b))) by ring.
      rewrite <- Ma, <- Mb. change (2 ^ 104) with (2 ^ 52 * 2 ^ 52). nia. }
    pose proof (Zdigits2_bounds (a * b * 2 ^ k) ltac:(lia)) as B.
    destruct (Z.le_gt_cases 53 (Zdigits2 (a * b * 2 ^ k))) as [?|G]; [assumption|exfalso].
    assert (2 ^ Zdigits2 (a * b * 2 ^ k) <= 2 ^ 52) by (apply Z.pow_le_mono_r; lia).
    change (2 ^ 104) with (2 ^ 52 * 2 ^ 52) in L. lia.
Qed.

Lemma compare_repr a b :
  0 < a < 2 ^ 53 -> 0 < b < 2 ^ 53 ->
  SFcompare (repr a) (repr b) = Some (a ?= b).
Proof.
  intros Ha Hb.
  destruct (repr_mantissa a Ha) as (ma & -> & Ma & Ba).
  destruct (repr_mantissa b Hb) as (mb & -> & Mb & Bb).
  pose proof (safe_digits a Ha) as Da. pose proof (safe_digits b Hb) as Db.
  pose proof (Zdigits2_bounds a ltac:(lia)) as Za.
  pose proof (Zdigits2_bounds b ltac:(lia)) as Zb.
  unfold SFcompare. f_equal.
  destruct (Z.compare_spec (Zdigits2 a - 53) (Zdigits2 b - 53)) as [E|L|G].
  - change (Pos.compare_cont Eq ma mb) with (Z.pos ma ?= Z.pos mb).
    rewrite Ma, Mb. replace (Zdigits2 b) with (Zdigits2 a) by lia.
    pose proof (pow2_pos (53 - Zdigits2 a) ltac:(lia)).
    destruct (Z.compare_spec a b); [subst; apply Z.compare_refl | apply Z.compare_lt_iff; nia | apply Z.compare_gt_iff; nia].
  - symmetry. apply Z.compare_lt_iff.
    assert (2 ^ Zdigits2 a <= 2 ^ (Zdigits2 b - 1)) by (apply Z.pow_le_mono_r; lia). lia.
  - symmetry. apply Z.compare_gt_iff.
    assert (2 ^ Zdigits2 b <= 2 ^ (Zdigits2 a - 1)) by (apply Z.pow_le_mono_r; lia). lia.
Qed.

Lemma compare_ofZ a b :
  safe a -> safe b -> SFcompare (ofZ a) (ofZ b) = Some (a ?= b).
Proof.
  unfold safe. intros Ha Hb.
  destruct (Z.eq_dec a 0) as [->|Na]; destruct (Z.eq_dec b 0) as [->|Nb].
  - reflexivity.
  - rewrite (ofZ_repr b) by lia.
    destruct (repr_mantissa b ltac:(lia)) as (mb & -> & _).
    rewrite ofZ_0. unfold SFcompare. f_equal. symmetry. apply Z.compare_lt_iff. lia.
  - rewrite (ofZ_repr a) by lia.
    destruct (repr_mantissa a ltac:(lia)) as (ma & -> & _).
    rewrite ofZ_0. unfold SFcompare. f_equal. symmetry. apply Z.compare_gt_iff. lia.
  - rewrite (ofZ_repr a), (ofZ_repr b) by lia. apply compare_repr; lia.
Qed.

Lemma lt_ofZ a b : safe a -> safe b -> lt (ofZ a) (ofZ b) = (a <? b).
Proof.
  intros Ha Hb. unfold lt, SFltb. rewrite compare_ofZ by assumption.
  unfold Z.ltb. destruct (a ?= b); reflexivity.
Qed.

Lemma gt_ofZ a b : safe a -> safe b -> gt (ofZ a) (ofZ b) = (b <? a).
Proof. intros. unfold gt. apply (lt_ofZ b a); assumption. Qed.

Lemma strictEq_ofZ a b : safe a -> safe b -> strictEq (ofZ a) (ofZ b) = (a =? b).
Proof.
  intros Ha Hb. unfold strictEq, SFeqb. rewrite compare_ofZ by assumption.
  destruct (Z.eqb_spec a b) as [->|N].
  - rewrite Z.compare_refl. reflexivity.
  - destruct (Z.compare_spec a b); [lia | reflexivity | reflexivity].
Qed.


(** *** Division *)

Lemma rne_shifted_0 q l : q <= rne (shifted q l 0) <= q + 1.
Proof.
  pose proof (rne_bounds (shifted q l 0)) as R.
  change (shifted q l 0) with (shr_record_of_loc q l) in *.
  rewrite shr_record_of_loc_bits in *. exact R.
Qed.

Lemma rne_shifted_1 q l :
  q / 2 <= rne (shifted q l 1) /\ 2 * rne (shifted q l 1) <= q + 1.
Proof.
  unfold shifted, rne. change (1 <=? 0) with false. cbv iota.
  cbn [shr_m shr_r shr_s].
  change (2 ^ 1) with 2. change (1 - 1) with 0. rewrite Z.bit0_odd.
  pose proof (Z.div_mod q 2 ltac:(lia)) as Dq.
  rewrite Zmod_odd in Dq.
  destruct (Z.odd q); cbn [andb]; [destruct (_ || _)|]; lia.
Qed.

Lemma div_core ma ea mb eb :
  2 ^ 52 <= Z.pos ma < 2 ^ 53 -> 2 ^ 52 <= Z.pos mb < 2 ^ 53 ->
  -1021 <= ea - eb ->
  SFdiv_core_binary prec emax (Z.pos ma) ea (Z.pos mb) eb
  = (Z.pos ma * 2 ^ 53 / Z.pos mb, ea - eb - 53,
     new_location (Z.pos mb) (Z.pos ma * 2 ^ 53 mod Z.pos mb)).
Proof.
  intros Ba Bb He. unfold SFdiv_core_binary.
  rewrite (Zdigits2_unique (Z.pos ma) 53), (Zdigits2_unique (Z.pos mb) 53) by (change (53 - 1) with 52; lia).
  rewrite fexp_eq.
  replace (Z.min (Z.max (53 + ea - (53 + eb) - 53) (-1074)) (ea - eb))
    with (ea - eb - 53) by lia.
  replace (ea - eb - (ea - eb - 53)) with 53 by lia.
  rewrite Z.shiftl_mul_pow2 by lia.
  unfold Z.div, Z.modulo.
  destruct (Z.div_eucl (Z.pos ma * 2 ^ 53) (Z.pos mb)) as [q r]. reflexivity.
Qed.

Lemma div_enclosed m A P : 0 < P -> A * P <= m < (A + 1) * P -> m / P = A.
Proof.
  intros HP H. symmetry. apply Z.div_unique with (m - A * P); [left; lia | lia].
Qed.

(** What [Math.floor] makes of a rounded value that lies between the
    integer [A] and [A + 1]. *)
Lemma floor_rounded m1 E1 A :
  2 ^ 52 <= m1 <= 2 ^ 53 -> 0 <= E1 <= 1074 -> 0 <= A < 2 ^ 53 ->
  A * 2 ^ E1 <= m1 < (A + 1) * 2 ^ E1 ->
  Math_floor (rounded false m1 (- E1)) = ofZ A.
Proof.
  intros Bm HE HA V. unfold rounded.
  destruct (Z.eqb_spec m1 (2 ^ 53)) as [E|N].
  - subst m1.
    assert (E1 <> 0) by (intros ->; rewrite Z.pow_0_r in V; lia).
    destruct (Z.leb_spec (- E1 + 1) 971); [|lia].
    assert (P : 2 ^ E1 = 2 * 2 ^ (E1 - 1))
      by (rewrite <- Z.pow_succ_r by lia; f_equal; lia).
    pose proof (pow2_pos (E1 - 1) ltac:(lia)) as Pp.
    change (2 ^ 53) with (2 * 2 ^ 52) in V.
    unfold Math_floor. destruct (Z.leb_spec 0 (- E1 + 1)) as [L|L].
    + assert (E1 = 1) by lia. subst E1. simpl in V.
      assert (A = 2 ^ 52) by lia. subst A. reflexivity.
    + unfold cond_Zopp. rewrite Z2Pos.id by reflexivity.
      replace (- (- E1 + 1)) with (E1 - 1) by lia.
      rewrite (div_enclosed (2 ^ 52) A) by nia. reflexivity.
  - destruct (Z.leb_spec (- E1) 971); [|lia].
    pose proof (pow2_pos E1 ltac:(lia)) as Pp.
    unfold Math_floor. destruct (Z.leb_spec 0 (- E1)) as [L|L].
    + assert (E1 = 0) by lia. subst E1. rewrite Z.pow_0_r in V.
      assert (m1 = A) by lia. subst m1.
      rewrite (ofZ_repr A) by lia. unfold repr.
      rewrite (Zdigits2_unique A 53) by (change (53 - 1) with 52; lia).
      simpl. rewrite Z.mul_1_r. reflexivity.
    + unfold cond_Zopp. rewrite Z2Pos.id by lia.
      rewrite Z.opp_involutive.
      rewrite (div_enclosed m1 A) by nia. reflexivity.
Qed.

Lemma floor_div_ofZ a b :
  safe a -> 0 < b < 2 ^ 53 ->
  Math_floor (div (ofZ a) (ofZ b)) = ofZ (a / b).
Proof.
  unfold safe. intros Ha Hb.
  rewrite (ofZ_repr b) by lia.
  destruct (repr_mantissa b ltac:(lia)) as (mb & -> & Mb & Bb).
  destruct (Z.eq_dec a 0) as [->|Na]; [reflexivity|].
  rewrite (ofZ_repr a) by lia.
  destruct (repr_mantissa a ltac:(lia)) as (ma & -> & Ma & Ba).
  pose proof (safe_digits a ltac:(lia)) as Da.
  pose proof (safe_digits b ltac:(lia)) as Db.
  set (ka := 53 - Zdigits2 a) in *. set (kb := 53 - Zdigits2 b) in *.
  replace (Zdigits2 a - 53) with (- ka) by lia.
  replace (Zdigits2 b - 53) with (- kb) by lia.
  unfold div, SFdiv. rewrite div_core by lia. simpl xorb.
  set (q := Z.pos ma * 2 ^ 53 / Z.pos mb).
  set (r := Z.pos ma * 2 ^ 53 mod Z.pos mb).
  set (E := 53 + ka - kb).
  replace (- ka - - kb - 53) with (- E) by lia.
  set (A := a / b).
  assert (HA : 0 <= A < 2 ^ 53).
  { split; [apply Z.div_pos; lia|].
    apply Z.le_lt_trans with a; [|lia]. apply Z.div_le_upper_bound; nia. }
  assert (HAb : A * b <= a < (A + 1) * b).
  { pose proof (Z.div_mod a b ltac:(lia)). pose proof (Z.mod_pos_bound a b ltac:(lia)).
    fold A in H. nia. }
  pose proof (pow2_pos ka ltac:(lia)) as Pka.
  pose proof (pow2_pos kb ltac:(lia)) as Pkb.
  pose proof (pow2_pos E ltac:(lia)) as PE.
  set (W := 2 ^ (53 + ka)).
  assert (EW : Z.pos mb * 2 ^ E = b * W).
  { rewrite Mb. unfold W, E. rewrite <- Z.mul_assoc, <- Z.pow_add_r by lia.
    do 2 f_equal. lia. }
  assert (EY : Z.pos ma * 2 ^ 53 = a * W).
  { rewrite Ma. unfold W. rewrite <- Z.mul_assoc, <- Z.pow_add_r by lia.
    do 2 f_equal. lia. }
  assert (HW : 2 ^ 53 <= W) by (apply Z.pow_le_mono_r; lia).
  assert (Hq : q * Z.pos mb <= Z.pos ma * 2 ^ 53 < (q + 1) * Z.pos mb).
  { pose proof (Z.div_mod (Z.pos ma * 2 ^ 53) (Z.pos mb) ltac:(lia)).
    pose proof (Z.mod_pos_bound (Z.pos ma * 2 ^ 53) (Z.pos mb) ltac:(lia)).
    fold q in H. nia. }
  rewrite EY in Hq.
  assert (Q1 : A * 2 ^ E <= q).
  { apply Z.div_le_lower_bound; [lia|]. rewrite EY.
    replace (Z.pos mb * (A * 2 ^ E)) with (A * (Z.pos mb * 2 ^ E)) by ring.
    rewrite EW. nia. }
  assert (Q2 : q + 2 <= (A + 1) * 2 ^ E).
  { destruct (Z.le_gt_cases (q + 2) ((A + 1) * 2 ^ E)) as [?|G]; [assumption|exfalso].
    assert ((A + 1) * 2 ^ E - 1 <= q) by lia.
    assert (((A + 1) * 2 ^ E - 1) * Z.pos mb <= q * Z.pos mb) by nia.
    assert ((A + 1) * (Z.pos mb * 2 ^ E) - Z.pos mb <= a * W) by nia.
    rewrite EW in *. nia. }
  assert (Bq : 2 ^ 52 <= q < 2 ^ 54).
  { split.
    - apply Z.div_le_lower_bound; [lia|]. nia.
    - apply Z.div_lt_upper_bound; [lia|]. change (2 ^ 54) with (2 * 2 ^ 53). nia. }
  assert (HE : 1 <= E <= 105) by lia.
  destruct (Z.lt_ge_cases q (2 ^ 53)) as [L|G].
  - rewrite (round_normal false q (- E) _ 53);
      [| lia | lia | apply Zdigits2_unique; change (53 - 1) with 52; lia | lia].
    replace (53 - 53) with 0 by lia. rewrite Z.add_0_r.
    pose proof (rne_shifted_0 q (new_location (Z.pos mb) r)) as R.
    apply floor_rounded; lia.
  - rewrite (round_normal false q (- E) _ 54);
      [| lia | lia | apply Zdigits2_unique; change (54 - 1) with 53; lia | lia].
    replace (54 - 53) with 1 by lia.
    set (l := new_location (Z.pos mb) r).
    pose proof (rne_shifted_1 q l) as R.
    replace (- E + 1) with (- (E - 1)) by lia.
    assert (P : 2 ^ E = 2 * 2 ^ (E - 1))
      by (rewrite <- Z.pow_succ_r by lia; f_equal; lia).
    pose proof (pow2_pos (E - 1) ltac:(lia)).
    pose proof (Z.div_mod q 2 ltac:(lia)) as Dq.
    pose proof (Z.mod_pos_bound q 2 ltac:(lia)).
    apply floor_rounded; [| lia | lia | nia].
    change (2 ^ 53) with (2 * 2 ^ 52) in *. change (2 ^ 54) with (2 * (2 * 2 ^ 52)) in Bq.
    lia.
Qed.


(** The quotient of two integers below 2^53, before [Math.floor]: a
    mantissa next to the exact quotient scaled by a power of two. *)
Lemma div_rounded a b :
  0 < a < 2 ^ 53 -> 0 < b < 2 ^ 53 ->
  exists m1 E1,
    div (ofZ a) (ofZ b) = rounded false m1 (- E1) /\
    2 ^ 52 <= m1 <= 2 ^ 53 /\ 0 <= E1 <= 105 /\
    a * 2 ^ E1 / b <= m1 <= a * 2 ^ E1 / b + 1.
Proof.
  intros Ha Hb.
  rewrite (ofZ_repr b), (ofZ_repr a) by lia.
  destruct (repr_mantissa b ltac:(lia)) as (mb & -> & Mb & Bb).
  destruct (repr_mantissa a ltac:(lia)) as (ma & -> & Ma & Ba).
  pose proof (safe_digits a ltac:(lia)) as Da.
  pose proof (safe_digits b ltac:(lia)) as Db.
  set (ka := 53 - Zdigits2 a) in *. set (kb := 53 - Zdigits2 b) in *.
  replace (Zdigits2 a - 53) with (- ka) by lia.
  replace (Zdigits2 b - 53) with (- kb) by lia.
  unfold div, SFdiv. rewrite div_core by lia. simpl xorb.
  set (E := 53 + ka - kb).
  replace (- ka - - kb - 53) with (- E) by lia.
  pose proof (pow2_pos ka ltac:(lia)) as Pka.
  pose proof (pow2_pos kb ltac:(lia)) as Pkb.
  pose proof (pow2_pos E ltac:(lia)) as PE.
  assert (Eq : Z.pos ma * 2 ^ 53 / Z.pos mb = a * 2 ^ E / b).
  { rewrite Ma, Mb.
    replace (a * 2 ^ ka * 2 ^ 53) with (a * 2 ^ E * 2 ^ kb).
    2:{ unfold E. rewrite <- !Z.mul_assoc, <- !Z.pow_add_r by lia.
        do 2 f_equal. lia. }
    apply Z.div_mul_cancel_r; lia. }
  rewrite Eq. set (q := a * 2 ^ E / b).
  set (l := new_location _ _).
  assert (Bq : 2 ^ 52 <= q < 2 ^ 54).
  { unfold q. rewrite <- Eq. split.
    - apply Z.div_le_lower_bound; [lia|]. nia.
    - apply Z.div_lt_upper_bound; [lia|]. change (2 ^ 54) with (2 * 2 ^ 53). nia. }
  destruct (Z.lt_ge_cases q (2 ^ 53)) as [L|G].
  - rewrite (round_normal false q (- E) _ 53);
      [| lia | lia | apply Zdigits2_unique; change (53 - 1) with 52; lia | lia].
    replace (53 - 53) with 0 by lia. rewrite Z.add_0_r.
    pose proof (rne_shifted_0 q l) as R.
    exists (rne (shifted q l 0)), E. repeat split; try lia.
  - rewrite (round_normal false q (- E) _ 54);
      [| lia | lia | apply Zdigits2_unique; change (54 - 1) with 53; lia | lia].
    replace (54 - 53) with 1 by lia.
    pose proof (rne_shifted_1 q l) as R.
    assert (P : 2 ^ E = 2 ^ (E - 1) * 2)
      by (rewrite Z.mul_comm, <- Z.pow_succ_r by lia; f_equal; lia).
    assert (Eh : q / 2 = a * 2 ^ (E - 1) / b).
    { unfold q. rewrite Z.div_div by lia. rewrite P, Z.mul_assoc.
      apply Z.div_mul_cancel_r; lia. }
    pose proof (Z.div_mod q 2 ltac:(lia)) as Dq.
    pose proof (Z.mod_pos_bound q 2 ltac:(lia)).
    exists (rne (shifted q l 1)), (E - 1).
    replace (- (E - 1)) with (- E + 1) by lia.
    rewrite <- Eh.
    change (2 ^ 53) with (2 * 2 ^ 52) in *. change (2 ^ 54) with (2 * (2 * 2 ^ 52)) in Bq.
    repeat split; lia.
Qed.

(** What [Math.round] makes of a rounded value within half a unit of the
    integer [c]. *)
Lemma round_rounded m2 G c :
  2 ^ 52 <= m2 <= 2 ^ 53 -> 2 <= G <= 1074 -> 0 <= c < 2 ^ 53 ->
  (2 * c - 1) * 2 ^ G <= 2 * m2 < (2 * c + 1) * 2 ^ G ->
  Math_round (rounded false m2 (- G)) = ofZ c.
Proof.
  intros Bm HG Hc V. unfold rounded.
  pose proof (pow2_pos G ltac:(lia)) as PG.
  assert (P : 2 ^ G = 2 * 2 ^ (G - 1))
    by (rewrite <- Z.pow_succ_r by lia; f_equal; lia).
  pose proof (pow2_pos (G - 1) ltac:(lia)) as PG1.
  destruct (Z.eqb_spec m2 (2 ^ 53)) as [E|N].
  - subst m2. destruct (Z.leb_spec (- G + 1) 971); [|lia].
    unfold Math_round. destruct (Z.leb_spec 0 (- G + 1)) as [L|L]; [lia|].
    unfold cond_Zopp. rewrite Z2Pos.id by reflexivity.
    replace (- (- G + 1)) with (G - 1) by lia.
    replace (1 - (- G + 1)) with G by lia.
    change (2 ^ 53) with (2 * 2 ^ 52) in V.
    rewrite (div_enclosed _ c) by nia. reflexivity.
  - destruct (Z.leb_spec (- G) 971); [|lia].
    unfold Math_round. destruct (Z.leb_spec 0 (- G)) as [L|L]; [lia|].
    unfold cond_Zopp. rewrite Z2Pos.id by lia.
    rewrite Z.opp_involutive.
    replace (1 - - G) with (G + 1) by lia.
    rewrite Z.pow_add_r by lia. change (2 ^ 1) with 2.
    rewrite (div_enclosed _ c) by nia. reflexivity.
Qed.

Lemma ofZ_100 : ofZ 100 = S754_finite false (Z.to_pos (100 * 2 ^ 46)) (- 46).
Proof. reflexivity. Qed.

(** A count of minor units below 2^50 survives the division by 100 and the
    multiplication by 100 that reads it back. *)
Lemma round_trip_cents c :
  0 <= c < 2 ^ 50 ->
  Math_round (mul (div (ofZ c) (ofZ 100)) (ofZ 100)) = ofZ c.
Proof.
  intros Hc. destruct (Z.eq_dec c 0) as [->|Nc]; [reflexivity|].
  assert (S50 : 2 ^ 50 < 2 ^ 53) by reflexivity.
  destruct (div_rounded c 100 ltac:(lia) ltac:(split; reflexivity))
    as (m1 & E1 & -> & Bm & HE & Q).
  pose proof (Z.div_mod (c * 2 ^ E1) 100 ltac:(lia)) as Dq.
  pose proof (Z.mod_pos_bound (c * 2 ^ E1) 100 ltac:(lia)) as Mq.
  set (q := c * 2 ^ E1 / 100) in *.
  pose proof (pow2_pos E1 ltac:(lia)) as PE.
  assert (C100 : - 100 <= 100 * m1 - c * 2 ^ E1 <= 100) by lia.
  assert (HE9 : 9 <= E1).
  { destruct (Z.le_gt_cases 9 E1) as [?|G]; [assumption|exfalso].
    assert (2 ^ E1 <= 2 ^ 8) by (apply Z.pow_le_mono_r; lia).
    change (2 ^ 8) with 256 in *. change (2 ^ 52) with (4 * 2 ^ 50) in Bm. nia. }
  (* the division, as a finite double with a 53-digit mantissa *)
  assert (D : exists m F, rounded false m1 (- E1) = S754_finite false m (- F) /\
                2 ^ 52 <= Z.pos m < 2 ^ 53 /\ 8 <= F <= 105 /\
                - 100 <= 100 * Z.pos m - c * 2 ^ F <= 100).
  { unfold rounded. destruct (Z.eqb_spec m1 (2 ^ 53)) as [E|N].
    - destruct (Z.leb_spec (- E1 + 1) 971); [|lia].
      exists (Z.to_pos (2 ^ 52)), (E1 - 1).
      replace (- (E1 - 1)) with (- E1 + 1) by lia. split; [reflexivity|].
      rewrite Z2Pos.id by reflexivity.
      assert (P : 2 ^ E1 = 2 * 2 ^ (E1 - 1))
        by (rewrite <- Z.pow_succ_r by lia; f_equal; lia).
      subst m1. change (2 ^ 53) with (2 * 2 ^ 52) in *.
      rewrite P in C100.
      repeat split; try lia.
    - destruct (Z.leb_spec (- E1) 971); [|lia].
      exists (Z.to_pos m1), E1. split; [reflexivity|].
      rewrite Z2Pos.id by lia. repeat split; lia. }
  destruct D as (m & F & -> & Bm' & HF & CF').
  clear C100 Q Dq Mq q.
  assert (HF9 : 9 <= F).
  { destruct (Z.le_gt_cases 9 F) as [?|G]; [assumption|exfalso].
    assert (2 ^ F <= 2 ^ 8) by (apply Z.pow_le_mono_r; lia).
    change (2 ^ 8) with 256 in *. change (2 ^ 52) with (4 * 2 ^ 50) in Bm'. nia. }
  (* the multiplication *)
  rewrite ofZ_100. unfold mul, SFmul. simpl xorb.
  rewrite Pos2Z.inj_mul, Z2Pos.id by reflexivity.
  set (Pm := Z.pos m * (100 * 2 ^ 46)).
  assert (BP : 2 ^ 104 <= Pm < 2 ^ 106).
  { unfold Pm. change (2 ^ 104) with (2 ^ 52 * 2 ^ 52).
    change (2 ^ 106) with (2 ^ 53 * 2 ^ 53).
    assert (2 ^ 52 <= 100 * 2 ^ 46 < 2 ^ 53) by (split; [|reflexivity]; discriminate).
    nia. }
  set (d := Zdigits2 Pm).
  assert (Hd : 105 <= d <= 106).
  { pose proof (Zdigits2_bounds Pm ltac:(lia)) as B. fold d in B.
    split.
    - destruct (Z.le_gt_cases 105 d) as [?|G]; [assumption|exfalso].
      assert (2 ^ d <= 2 ^ 104) by (apply Z.pow_le_mono_r; lia). lia.
    - destruct (Z.le_gt_cases d 106) as [?|G]; [assumption|exfalso].
      assert (2 ^ 106 <= 2 ^ (d - 1)) by (apply Z.pow_le_mono_r; lia). lia. }
  rewrite (round_normal false Pm (- F + - 46) loc_Exact d) by (fold d; lia).
  set (n := d - 53).
  pose proof (rne_bounds (shifted Pm loc_Exact n)) as R.
  assert (Sm : shr_m (shifted Pm loc_Exact n) = Pm / 2 ^ n).
  { unfold shifted. destruct (Z.leb_spec n 0); [lia|reflexivity]. }
  rewrite Sm in R.
  pose proof (shifted_normal Pm loc_Exact d ltac:(lia) eq_refl ltac:(lia)) as BN.
  fold n in BN. rewrite Sm in BN.
  set (m2 := rne (shifted Pm loc_Exact n)) in *.
  set (G := F + 46 - n).
  replace (- F + - 46 + n) with (- G) by lia.
  pose proof (pow2_pos n ltac:(lia)) as Pn.
  pose proof (pow2_pos G ltac:(lia)) as PG.
  pose proof (pow2_pos F ltac:(lia)) as PF.
  pose proof (Z.div_mod Pm (2 ^ n) ltac:(lia)) as DP.
  pose proof (Z.mod_pos_bound Pm (2 ^ n) ltac:(lia)) as MP.
  assert (EG : 2 ^ F * 2 ^ 46 = 2 ^ G * 2 ^ n)
    by (rewrite <- !Z.pow_add_r by lia; f_equal; lia).
  assert (Hn : 2 ^ n <= 2 ^ 53) by (apply Z.pow_le_mono_r; lia).
  assert (HG : 2 ^ 55 <= 2 ^ G * 2 ^ n).
  { rewrite <- EG, <- Z.pow_add_r by lia. apply Z.pow_le_mono_r; lia. }
  apply round_rounded; [lia | lia | lia |].
  assert (K : - (2 ^ n + 100 * 2 ^ 46) <= (m2 - c * 2 ^ G) * 2 ^ n <= 2 ^ n + 100 * 2 ^ 46).
  { replace ((m2 - c * 2 ^ G) * 2 ^ n) with (m2 * 2 ^ n - c * (2 ^ G * 2 ^ n)) by ring.
    rewrite <- EG. unfold Pm in *. nia. }
  assert (T46 : 200 * 2 ^ 46 < 2 ^ 54) by reflexivity.
  change (2 ^ 55) with (2 * 2 ^ 54) in HG. change (2 ^ 53) with (2 ^ 53) in Hn.
  assert (2 * 2 ^ 53 = 2 ^ 54) by reflexivity.
  nia.
Qed.

End Binary64Facts.
(** ** The built-ins on examples *)

Example parseFloat_examples :
  Js.parseFloat "10" = Js.ofZ 10 /\
  Js.parseFloat "  3.34abc" = Js.decimal false 334 (-2) /\
  Js.parseFloat "1e-3" = Js.decimal false 1 (-3) /\
  Js.parseFloat ".5" = Js.decimal false 5 (-1) /\
  Js.parseFloat "5." = Js.ofZ 5 /\
  Js.parseFloat "5.e2" = Js.ofZ 500 /\
  Js.parseFloat "-2.50E+1x" = Js.ofZ (-25) /\
  Js.parseFloat "1e" = Js.ofZ 1 /\
  Js.parseFloat "." = Js.NaN /\
  Js.parseFloat "abc" = Js.NaN /\
  Js.parseFloat "" = Js.NaN /\
  Js.parseFloat "-" = Js.NaN /\
  Js.parseFloat "-Infinity" = Js.Infinity true /\
  Js.parseFloat "-0" = S754_zero true /\
  Js.parseFloat "1e400" = Js.Infinity false /\
  Js.parseFloat "1e-400" = Js.ofZ 0 /\
  Js.parseFloat "0.1" = S754_finite false 7205759403792794 (-56) /\
  Js.parseFloat "90071992547409.93" = Js.parseFloat "90071992547409.94".
Proof. repeat split; reflexivity. Qed.

Example string_examples :
  Js.trim "  a b  " = "a b"%string /\
  Js.trim "   " = ""%string /\
  Js.trim (String (ascii_of_nat 160) "a") = "a"%string /\
  Js.split "." "12.345.6" = ["12"; "345"; "6"]%string /\
  Js.split "." "12" = ["12"%string] /\
  Js.split "." "12." = ["12"; ""]%string /\
  tooManyDecimals "12.345" = true /\
  tooManyDecimals "12.34" = false /\
  tooManyDecimals "1e-3" = false /\
  descriptionPattern_test "Dinner, at Joe's!" = true /\
  descriptionPattern_test "Dinner #2" = false.
Proof. repeat split; reflexivity. Qed.

Example Math_round_examples :
  Js.Math_round (Js.decimal false 25 (-1)) = Js.ofZ 3 /\
  Js.Math_round (Js.decimal true 25 (-1)) = Js.ofZ (-2) /\
  Js.Math_round (Js.decimal false 1 (-1)) = Js.ofZ 0 /\
  Js.Math_round (Js.decimal true 1 (-1)) = S754_zero true /\
  Js.Math_round (Js.decimal false 49999999999999994 (-17)) = Js.ofZ 0 /\
  Js.Math_floor (Js.decimal true 3 (-1)) = Js.ofZ (-1).
Proof. repeat split; reflexivity. Qed.

(** Products and quotients are rounded: [0.07 * 100] is not [7], the share
    [1.005] is worth 100 minor units and the share [9.995] is worth 999,
    [2^53 + 1] is [2^53], and the amount [40000000001957.09] reads back as
    one minor unit more than the 4000000000195709 it was made from. *)
Example rounding_examples :
  Js.mul (Js.parseFloat "0.07") (Js.ofZ 100)
    = S754_finite false 7881299347898369 (-50) /\
  Js.mul (Js.parseFloat "0.07") (Js.ofZ 100) <> Js.ofZ 7 /\
  Js.Math_round (Js.mul (Js.parseFloat "1.005") (Js.ofZ 100)) = Js.ofZ 100 /\
  Js.Math_round (Js.mul (Js.parseFloat "9.995") (Js.ofZ 100)) = Js.ofZ 999 /\
  Js.add (Js.ofZ (2 ^ 53)) (Js.ofZ 1) = Js.ofZ (2 ^ 53) /\
  Js.div (Js.ofZ 4000000000195709) (Js.ofZ 100)
    = Js.parseFloat "40000000001957.09" /\
  Js.Math_round (Js.mul (Js.div (Js.ofZ 4000000000195709) (Js.ofZ 100)) (Js.ofZ 100))
    = Js.ofZ 4000000000195710.
Proof. repeat split; try reflexivity. discriminate. Qed.

(** ** Numbers that hold integers *)

Module JsFacts.

Import Js Binary64 Binary64Facts.

Lemma neg_neg (x : number) : neg (neg x) = x.
Proof. destruct x as [s|s| |s m e]; cbn; now rewrite ?negb_involutive. Qed.

(** A number that is neither [NaN] nor at most zero is above zero. *)
Lemma positive_number (a : number) :
  isNaN a = false -> le a (ofZ 0) = false -> gt a (ofZ 0) = true.
Proof.
  destruct a as [s|s| |s m e]; try discriminate; intros _;
    destruct s; try discriminate; reflexivity.
Qed.

(** The double of a positive integer is positive, finite or not. *)
Lemma ofZ_positive (z : Z) :
  0 < z ->
  (exists m e, ofZ z = S754_finite false m e) \/ ofZ z = S754_infinity false.
Proof.
  intros Hz. destruct (Z.lt_ge_cases z (2 ^ 53)) as [L|G].
  - left. rewrite ofZ_repr by lia. unfold repr. eauto.
  - destruct z as [|p|p]; try lia.
    pose proof (Zdigits2_bounds (Z.pos p) ltac:(lia)) as B.
    assert (D : 54 <= Zdigits2 (Z.pos p)).
    { destruct (Z.le_gt_cases 54 (Zdigits2 (Z.pos p))) as [?|L]; [assumption|exfalso].
      assert (2 ^ Zdigits2 (Z.pos p) <= 2 ^ 53) by (apply Z.pow_le_mono_r; lia).
      lia. }
    unfold ofZ, binary_normalize, binary_round.
    change (Z.pos (digits2_pos p)) with (Zdigits2 (Z.pos p)).
    rewrite fexp_eq.
    pose proof (shl_align_spec p 0 (Z.max (Zdigits2 (Z.pos p) + 0 - 53) (-1074))) as S.
    destruct (shl_align p 0 _) as [mz ez]. destruct S as [Sm Se].
    replace (Z.min 0 (Z.max (Zdigits2 (Z.pos p) + 0 - 53) (-1074))) with 0 in * by lia.
    rewrite Z.sub_diag, Z.mul_1_r in Sm. subst ez. rewrite Sm.
    rewrite (round_normal false (Z.pos p) 0 loc_Exact (Zdigits2 (Z.pos p)))
      by (try reflexivity; lia).
    unfold rounded.
    destruct (_ =? _); destruct (_ <=? _); eauto.
Qed.

Lemma ofZ_nonneg (z : Z) :
  0 <= z ->
  ofZ z = S754_zero false \/
  (exists m e, ofZ z = S754_finite false m e) \/ ofZ z = S754_infinity false.
Proof.
  intros Hz. destruct (Z.eq_dec z 0) as [->|N]; [now left|].
  right. apply ofZ_positive. lia.
Qed.

(** Nothing that counts is below zero. *)
Lemma lt_ofZ_0 (z : Z) : 0 <= z -> lt (ofZ z) (ofZ 0) = false.
Proof.
  intros Hz.
  destruct (ofZ_nonneg z Hz) as [->|[(m & e & ->)| ->]]; reflexivity.
Qed.

(** Zero split between a positive count. *)
Lemma zero_div (z : Z) : 0 < z -> div (ofZ 0) (ofZ z) = ofZ 0.
Proof.
  intros Hz. destruct (ofZ_positive z Hz) as [(m & e & ->)| ->]; reflexivity.
Qed.

End JsFacts.
(** ** The equal split *)

Module EqualSplit.

Import Js Binary64 Binary64Facts JsFacts AddExpense.

Lemma Zsum_app (l k : list Z) : Zsum (l ++ k) = Zsum l + Zsum k.
Proof. unfold Zsum. induction l as [|x l IH]; simpl; lia. Qed.

Lemma Zsum_nonneg (zs : list Z) : Forall (fun z => 0 <= z) zs -> 0 <= Zsum zs.
Proof. unfold Zsum. induction 1; simpl; lia. Qed.

(** The sum, in doubles, of counts that stay below 2^53 is their sum. *)
Lemma fold_add_ofZ (zs : list Z) (a : Z) :
  0 <= a -> Forall (fun z => 0 <= z) zs -> a + Zsum zs < 2 ^ 53 ->
  fold_left add (ofZ <$> zs) (ofZ a) = ofZ (a + Zsum zs).
Proof.
  intros Ha Hzs. revert a Ha.
  induction Hzs as [|z zs Hz Hzs IH]; intros a Ha Hsum.
  - cbn [fmap list_fmap fold_left]. f_equal. unfold Zsum. simpl. lia.
  - pose proof (Zsum_nonneg zs Hzs) as Hn.
    change (Zsum (z :: zs)) with (z + Zsum zs) in Hsum |- *.
    rewrite fmap_cons. cbn [fold_left].
    rewrite add_ofZ by (unfold safe; lia).
    rewrite IH by lia. f_equal. lia.
Qed.

Lemma sumOf_ofZ (zs : list Z) :
  Forall (fun z => 0 <= z) zs -> Zsum zs < 2 ^ 53 ->
  sumOf (ofZ <$> zs) = ofZ (Zsum zs).
Proof. intros Hzs Hsum. unfold sumOf. now rewrite fold_add_ofZ by (try lia; assumption). Qed.

(** [k] shares of [b], the first [r] of them one larger, add up to
    [k * b + min r k]. *)
Lemma Zsum_shares (b r : Z) (k : nat) :
  0 <= r ->
  Zsum ((fun i : nat => b + (if Z.of_nat i <? r then 1 else 0)) <$> seq 0 k)
  = Z.of_nat k * b + Z.min r (Z.of_nat k).
Proof.
  intros Hr. induction k as [|k IH].
  - simpl. unfold Zsum. simpl. lia.
  - rewrite seq_S, fmap_app, Zsum_app, IH. cbn [fmap list_fmap Nat.add].
    unfold Zsum. cbn [foldr].
    destruct (Z.ltb_spec (Z.of_nat k) r); lia.
Qed.

Lemma Zsum_shareCents (T : Z) (N : nat) :
  (0 < N)%nat -> Zsum (shareCents T N <$> seq 0 N) = T.
Proof.
  intros HN. unfold shareCents.
  pose proof (Z.mod_pos_bound T (Z.of_nat N) ltac:(lia)) as Hmod.
  rewrite Zsum_shares by lia.
  pose proof (Z.div_mod T (Z.of_nat N) ltac:(lia)). lia.
Qed.


(** A share is at least zero and at most the total. *)
Lemma shareCents_bounds (T : Z) (N index : nat) :
  0 <= T -> (0 < N)%nat -> 0 <= shareCents T N index <= T.
Proof.
  intros HT HN. unfold shareCents.
  pose proof (Z.div_pos T (Z.of_nat N) HT ltac:(lia)).
  pose proof (Z.div_mod T (Z.of_nat N) ltac:(lia)).
  pose proof (Z.mod_pos_bound T (Z.of_nat N) ltac:(lia)).
  destruct (Z.ltb_spec (Z.of_nat index) (T mod Z.of_nat N)); nia.
Qed.


(** On a total of [T] minor units the loop gives the participant at
    [index] the amount [shareCents T N index / 100]. *)
Lemma equalSplits_ofZ (T : Z) (participantIds : list string) :
  participantIds <> [] ->
  safe T ->
  Z.of_nat (length participantIds) < 2 ^ 53 ->
  equalSplits (ofZ T) participantIds
  = imap (fun index userId =>
            {| SplitRow.user_id := userId;
               SplitRow.amount :=
                 div (ofZ (shareCents T (length participantIds) index)) (ofZ 100) |})
         participantIds.
Proof.
  intros Hne HT HN53. unfold safe in HT. unfold equalSplits, ofNat.
  set (N := Z.of_nat (length participantIds)) in *.
  assert (0 < N) as HN
    by (subst N; destruct participantIds; simpl in *; [congruence | lia]).
  pose proof (Z.div_pos T N ltac:(lia) HN) as Hq.
  pose proof (Z.div_mod T N ltac:(lia)) as Hdm.
  pose proof (Z.mod_pos_bound T N HN) as Hr.
  rewrite floor_div_ofZ by (unfold safe; lia).
  rewrite mul_ofZ by (unfold safe; nia).
  rewrite sub_ofZ by (unfold safe; nia).
  replace (T - T / N * N) with (T mod N) by lia.
  apply imap_ext. intros index userId Hi. unfold equalShare, shareCents, ofNat.
  apply lookup_lt_Some in Hi.
  rewrite lt_ofZ by (unfold safe; lia). fold N. f_equal. f_equal.
  destruct (Z.ltb_spec (Z.of_nat index) (T mod N));
    apply add_ofZ; unfold safe; nia.
Qed.

(** Below 2^50 the amount of each line reads back as the share it was
    made from. *)
Lemma lineCents_equalSplits (T : Z) (participantIds : list string) :
  participantIds <> [] ->
  0 <= T < 2 ^ 50 ->
  Z.of_nat (length participantIds) < 2 ^ 53 ->
  lineCents (equalSplits (ofZ T) participantIds)
  = ofZ <$> (shareCents T (length participantIds) <$> seq 0 (length participantIds)).
Proof.
  intros Hne HT HN.
  assert (2 ^ 50 < 2 ^ 53) as H50 by reflexivity.
  rewrite equalSplits_ofZ by (try assumption; unfold safe; lia). unfold lineCents.
  change (map ?f ?l) with (f <$> l).
  rewrite fmap_imap, <- list_fmap_compose, <- imap_seq_0.
  apply imap_ext. intros index userId _. simpl. unfold minorUnits.
  apply round_trip_cents.
  pose proof (shareCents_bounds T (length participantIds) index ltac:(lia)
                ltac:(destruct participantIds; simpl; [congruence | lia])).
  lia.
Qed.

Lemma users_equalSplits (totalCents : number) (participantIds : list string) :
  map SplitRow.user_id (equalSplits totalCents participantIds) = participantIds.
Proof.
  unfold equalSplits. change (map ?f ?l) with (f <$> l).
  rewrite fmap_imap, (imap_ext _ (const id)) by reflexivity.
  rewrite imap_const. apply list_fmap_id.
Qed.

(** The amounts of the lines depend on the total and on the number of
    participants only. *)
Lemma amounts_imap (base rest : number) (l : list string) :
  map SplitRow.amount (imap (equalShare base rest) l)
  = (fun index : nat =>
       div (add base (if lt (ofNat index) rest then ofZ 1 else ofZ 0)) (ofZ 100))
    <$> seq 0 (length l).
Proof.
  change (map ?f ?l) with (f <$> l).
  rewrite fmap_imap, <- imap_seq_0. apply imap_ext. reflexivity.
Qed.

Lemma amounts_equalSplits (totalCents : number) (l l' : list string) :
  length l = length l' ->
  amounts (equalSplits totalCents l) = amounts (equalSplits totalCents l').
Proof.
  intros Hlen. unfold amounts, equalSplits.
  rewrite !amounts_imap. now rewrite Hlen.
Qed.

(** With a participant, the handler of an equal split goes through to the
    store with the lines of [equalSplits]. *)
Lemma handleSubmit_equal (s : State) d a u :
  validate s = inr (d, a, u) ->
  splitType s <> custom ->
  participantIds s <> [] ->
  handleSubmit s =
    (noErrors,
     Insert {| ExpenseRow.group_id := groupId s;
               ExpenseRow.description := d;
               ExpenseRow.amount := a;
               ExpenseRow.paid_by := paidBy s;
               ExpenseRow.split_type := splitType s;
               ExpenseRow.created_by := AuthUser.id u;
               ExpenseRow.type := expenseType s |}
            (splitRows (equalSplits (minorUnits a) (participantIds s)))).
Proof.
  intros Hv Hst Hne. unfold handleSubmit. rewrite Hv.
  assert ((length (participantIds s) =? 0)%nat = false) as Hcount
    by (destruct (participantIds s); [congruence | reflexivity]).
  rewrite Hcount, andb_false_r.
  unfold buildSplits. fold (minorUnits a).
  assert ((length (equalSplits (minorUnits a) (participantIds s)) =? 0)%nat
          = false) as Hsplits.
  { unfold equalSplits. now rewrite length_imap. }
  destruct (splitType s); try congruence; rewrite Hcount, Hsplits; reflexivity.
Qed.

Lemma splitRows_inj (splits splits' : list SplitRow.t) :
  splitRows splits = splitRows splits' -> splits = splits'.
Proof.
  intros Heq. apply (f_equal (fun rows => rows ""%string)) in Heq.
  unfold splitRows in Heq. revert splits' Heq.
  induction splits as [|[u x] splits IH]; intros [|[u' x'] splits'] Heq;
    try discriminate Heq; [reflexivity|].
  cbn [map] in Heq. injection Heq as -> -> Heq. f_equal. now apply IH.
Qed.

End EqualSplit.
(** * The claims about the equal split *)

Section EqualSplitClaims.

Import Js Binary64 Binary64Facts JsFacts AddExpense EqualSplit Examples.

(** What the handler does with 80000000003914.17 split between [A] and
    [B].  The total is worth 8000000000391417 minor units, below 2^53.  The
    loop counts 4000000000195709 and 4000000000195708, and the lines carry
    the doubles nearest to 40000000001957.09 and 40000000001957.08; read
    back by [Math.round(amount * 100)] they are worth 4000000000195710 and
    4000000000195708 minor units, which add up to one more than the total. *)
Example equal_split_drift :
  let s := dinner "80000000003914.17" equal_selected ["A"; "B"]%string ∅ in
  minorUnits (parseFloat "80000000003914.17") = ofZ 8000000000391417 /\
  (exists expense,
      handleSubmit s
      = (noErrors,
         Insert expense (splitRows
           [ {| SplitRow.user_id := "A";
                SplitRow.amount := div (ofZ 4000000000195709) (ofZ 100) |};
             {| SplitRow.user_id := "B";
                SplitRow.amount := div (ofZ 4000000000195708) (ofZ 100) |} ]))) /\
  lineCents (equalSplits (ofZ 8000000000391417) ["A"; "B"]%string)
    = [ofZ 4000000000195710; ofZ 4000000000195708] /\
  sumOf (lineCents (equalSplits (ofZ 8000000000391417) ["A"; "B"]%string))
    = ofZ 8000000000391418.
Proof.
  split; [vm_compute; reflexivity|].
  split; [eexists; vm_compute; reflexivity|].
  split; vm_compute; reflexivity.
Qed.






(** The scenario of the specification: 1000 minor units between [A], [B]
    and [C] give 334, 333 and 333, the extra unit going to [A]. *)
Example equal_split_1000_by_3 :
  (exists expense,
    handleSubmit (dinner "10.00" equal_all [] ∅)
      = (noErrors, Insert expense (splitRows
           [ {| SplitRow.user_id := "A"; SplitRow.amount := parseFloat "3.34" |};
             {| SplitRow.user_id := "B"; SplitRow.amount := parseFloat "3.33" |};
             {| SplitRow.user_id := "C"; SplitRow.amount := parseFloat "3.33" |} ]))) /\
  lineCents (equalSplits (ofZ 1000) ["A"; "B"; "C"]%string)
    = [ofZ 334; ofZ 333; ofZ 333] /\
  lineCents (equalSplits (ofZ 999) ["A"; "B"; "C"]%string)
    = [ofZ 333; ofZ 333; ofZ 333].
Proof. split; [eexists; reflexivity | split; reflexivity]. Qed.


(** C8. Two forms that pass the guards with the same amount and an equal
    strategy, the participants of one being a permutation of those of the
    other, produce the same amounts position by position, hence the same
    minor-unit amounts, the same multiset of them and the same sum; each
    form attaches them to its own participants in its own order. *)
Theorem C8_equal_split_permutation (s s' : State) d d' a u u' :
  validate s = inr (d, a, u) ->
  validate s' = inr (d', a, u') ->
  splitType s <> custom ->
  splitType s' <> custom ->
  participantIds s <> [] ->
  Permutation (participantIds s) (participantIds s') ->
  exists expense expense' splits splits',
    handleSubmit s = (noErrors, Insert expense (splitRows splits)) /\
    handleSubmit s' = (noErrors, Insert expense' (splitRows splits')) /\
    amounts splits = amounts splits' /\
    lineCents splits = lineCents splits' /\
    Permutation (lineCents splits) (lineCents splits') /\
    sumOf (lineCents splits) = sumOf (lineCents splits') /\
    map SplitRow.user_id splits = participantIds s /\
    map SplitRow.user_id splits' = participantIds s'.
Proof.
  intros Hv Hv' Hst Hst' Hne Hperm.
  assert (participantIds s' <> []) as Hne'.
  { intros Hnil. rewrite Hnil in Hperm.
    apply Permutation_nil_r in Hperm. contradiction. }
  pose proof (amounts_equalSplits (minorUnits a) _ _ (Permutation_length Hperm))
    as Hamounts.
  assert (lineCents (equalSplits (minorUnits a) (participantIds s))
          = lineCents (equalSplits (minorUnits a) (participantIds s'))) as Hsame.
  { unfold lineCents.
    rewrite <- !(map_map SplitRow.amount minorUnits).
    fold (amounts (equalSplits (minorUnits a) (participantIds s))).
    fold (amounts (equalSplits (minorUnits a) (participantIds s'))).
    now rewrite Hamounts. }
  eexists _, _, _, _. split; [|split; [|split; [|split; [|split; [|split; [|split]]]]]].
  - apply (handleSubmit_equal s d a u Hv Hst Hne).
  - apply (handleSubmit_equal s' d' a u' Hv' Hst' Hne').
  - exact Hamounts.
  - exact Hsame.
  - now rewrite Hsame.
  - now rewrite Hsame.
  - apply users_equalSplits.
  - apply users_equalSplits.
Qed.

Lemma C8_witness :
  let s := dinner "10.00" equal_selected ["A"; "B"; "C"]%string ∅ in
  let s' := dinner "10.00" equal_selected ["C"; "A"; "B"]%string ∅ in
  (validate s = inr ("Dinner"%string, ofZ 10, me) /\
   validate s' = inr ("Dinner"%string, ofZ 10, me) /\
   splitType s <> custom /\ splitType s' <> custom /\
   participantIds s <> [] /\
   Permutation (participantIds s) (participantIds s')) /\
  exists expense expense' splits splits',
    handleSubmit s = (noErrors, Insert expense (splitRows splits)) /\
    handleSubmit s' = (noErrors, Insert expense' (splitRows splits')) /\
    amounts splits = amounts splits' /\
    lineCents splits = lineCents splits' /\
    Permutation (lineCents splits) (lineCents splits') /\
    sumOf (lineCents splits) = sumOf (lineCents splits') /\
    map SplitRow.user_id splits = ["A"; "B"; "C"]%string /\
    map SplitRow.user_id splits' = ["C"; "A"; "B"]%string.
Proof.
  intros s s'.
  assert (Permutation (participantIds s) (participantIds s')) as Hperm.
  { change (Permutation ["A"; "B"; "C"] ["C"; "A"; "B"])%string.
    eapply perm_trans; [apply perm_skip, perm_swap | apply perm_swap]. }
  split; [repeat split; try reflexivity; try discriminate; exact Hperm|].
  refine (C8_equal_split_permutation s s' "Dinner"%string "Dinner"%string
            (ofZ 10) me me _ _ _ _ _ Hperm);
    try reflexivity; discriminate.
Defined.

(** A total of zero minor units gives every participant a line of zero,
    however many they are. *)
Lemma equalSplits_zero (participantIds : list string) :
  participantIds <> [] ->
  equalSplits (ofZ 0) participantIds
  = map (fun userId => {| SplitRow.user_id := userId;
                          SplitRow.amount := ofZ 0 |}) participantIds.
Proof.
  intros Hne. unfold equalSplits, ofNat.
  assert (0 < Z.of_nat (length participantIds)) as HN
    by (destruct participantIds; simpl in *; [congruence | lia]).
  rewrite zero_div by exact HN.
  change (Math_floor (ofZ 0)) with (ofZ 0).
  assert (forall index : nat,
            lt (ofZ (Z.of_nat index))
               (sub (ofZ 0) (mul (ofZ 0) (ofZ (Z.of_nat (length participantIds)))))
            = false) as Hlt.
  { intros index.
    destruct (ofZ_positive _ HN) as [(m & e & ->)| ->].
    - apply lt_ofZ_0. lia.
    - destruct (ofZ_nonneg (Z.of_nat index) ltac:(lia)) as [->|[(m & e & ->)| ->]];
        reflexivity. }
  change (map ?f ?l) with (f <$> l). rewrite <- imap_const.
  apply imap_ext. intros index userId _. unfold equalShare, ofNat.
  rewrite Hlt. reflexivity.
Qed.

(** C10. The amount [1e-3] is not empty, parses to a positive number and
    has no part after a full stop, so it passes the guards; it is worth 0
    minor units.  With it, a form with an equal strategy and at least one
    participant goes through to the store with one line per participant,
    each of amount 0. *)
Theorem C10_zero_total_goes_through :
  exists text : string,
    isEmpty text = false /\
    isNaN (parseFloat text) = false /\
    le (parseFloat text) (ofZ 0) = false /\
    tooManyDecimals text = false /\
    minorUnits (parseFloat text) = ofZ 0 /\
    forall s : State,
      amount s = text ->
      isEmpty (trim (description s)) = false ->
      descriptionPattern_test (trim (description s)) = true ->
      currentUser s <> None ->
      splitType s <> custom ->
      participantIds s <> [] ->
      exists expense,
        handleSubmit s
        = (noErrors,
           Insert expense
             (splitRows
                (map (fun userId => {| SplitRow.user_id := userId;
                                       SplitRow.amount := ofZ 0 |})
                   (participantIds s)))).
Proof.
  exists "1e-3"%string. repeat split; try reflexivity.
  intros s Hamount Hblank Hpattern Huser Hst Hne.
  destruct (currentUser s) as [user|] eqn:Hcurrent; [|congruence].
  assert (validate s = inr (trim (description s), parseFloat "1e-3", user)) as Hv.
  { unfold validate. rewrite Hblank, Hpattern, Hamount, Hcurrent. reflexivity. }
  eexists. rewrite (handleSubmit_equal s _ _ _ Hv Hst Hne).
  change (minorUnits (parseFloat "1e-3")) with (ofZ 0).
  now rewrite equalSplits_zero by exact Hne.
Qed.

Example zero_total_dinner :
  exists expense,
    handleSubmit (dinner "1e-3" equal_all [] ∅)
    = (noErrors,
       Insert expense (splitRows
         [ {| SplitRow.user_id := "A"; SplitRow.amount := ofZ 0 |};
           {| SplitRow.user_id := "B"; SplitRow.amount := ofZ 0 |};
           {| SplitRow.user_id := "C"; SplitRow.amount := ofZ 0 |} ])).
Proof. eexists. reflexivity. Qed.

End EqualSplitClaims.
(** ** The custom split *)

Module CustomSplit.

Import Js Binary64 Binary64Facts JsFacts AddExpense EqualSplit.

(** One round of the loop, by the kind of the member's share. *)
Lemma customShare_cases customShares err sumCents customSplits member :
  customShare customShares (err, sumCents, customSplits) member
  = if rejected (entry customShares member) then
      (Some InvalidShare, sumCents, customSplits)
    else if hasPositiveShare customShares member then
      (err, add sumCents (minorUnits (parseFloat (entry customShares member))),
       customSplits ++ [customLine customShares member])
    else (err, sumCents, customSplits).
Proof.
  unfold customShare, rejected, hasPositiveShare, accepted, customLine.
  fold (entry customShares member).
  fold (minorUnits (parseFloat (entry customShares member))).
  destruct (isEmpty (entry customShares member)); [reflexivity|].
  destruct (isNaN (parseFloat (entry customShares member))); [reflexivity|].
  destruct (lt (parseFloat (entry customShares member)) (ofZ 0)); [reflexivity|].
  reflexivity.
Qed.

Lemma rejected_not_accepted (raw : string) :
  rejected raw = true -> accepted raw = false.
Proof.
  unfold rejected, accepted.
  destruct (isEmpty raw), (isNaN (parseFloat raw)), (lt (parseFloat raw) (ofZ 0));
    simpl; congruence.
Qed.

Lemma rejected_not_positive customShares member :
  rejected (entry customShares member) = true ->
  hasPositiveShare customShares member = false.
Proof.
  intros Hrej. unfold hasPositiveShare.
  now rewrite (rejected_not_accepted _ Hrej).
Qed.

Lemma acceptedCents_cons member members customShares :
  acceptedCents (member :: members) customShares
  = if accepted (entry customShares member)
    then minorUnits (parseFloat (entry customShares member))
         :: acceptedCents members customShares
    else acceptedCents members customShares.
Proof.
  unfold acceptedCents. cbn [List.filter].
  now destruct (accepted (entry customShares member)).
Qed.

Lemma positiveCents_cons member members customShares :
  positiveCents (member :: members) customShares
  = if hasPositiveShare customShares member
    then minorUnits (parseFloat (entry customShares member))
         :: positiveCents members customShares
    else positiveCents members customShares.
Proof.
  unfold positiveCents. cbn [List.filter].
  now destruct (hasPositiveShare customShares member).
Qed.

(** The three results of the loop over the members: [splitError] is set as
    soon as one share is rejected, [sumCents] is the sum of the positive
    shares, [customSplits] has a line per member with a positive share. *)
Lemma customLoop_from members customShares err sumCents customSplits :
  fold_left (customShare customShares) members (err, sumCents, customSplits)
  = (if existsb (fun member => rejected (entry customShares member)) members
     then Some InvalidShare else err,
     fold_left add (positiveCents members customShares) sumCents,
     customSplits ++ map (customLine customShares)
                       (List.filter (hasPositiveShare customShares) members)).
Proof.
  revert err sumCents customSplits.
  induction members as [|member members IH]; intros err sumCents customSplits.
  - simpl. now rewrite app_nil_r.
  - cbn [fold_left existsb List.filter].
    rewrite customShare_cases, positiveCents_cons.
    destruct (rejected (entry customShares member)) eqn:Hrej.
    { rewrite IH, (rejected_not_positive _ _ Hrej).
      cbn [orb]. now destruct (existsb _ members). }
    cbn [orb].
    destruct (hasPositiveShare customShares member) eqn:Hpos; rewrite IH.
    + cbn [map fold_left]. now rewrite <- app_assoc.
    + reflexivity.
Qed.

Lemma customLoop_spec members customShares :
  customLoop members customShares
  = (if existsb (fun member => rejected (entry customShares member)) members
     then Some InvalidShare else None,
     sumOf (positiveCents members customShares),
     map (customLine customShares)
       (List.filter (hasPositiveShare customShares) members)).
Proof. unfold customLoop. now rewrite customLoop_from. Qed.

(** The positive shares are the accepted shares worth more than zero. *)
Lemma positiveCents_accepted members customShares :
  positiveCents members customShares
  = List.filter (fun cents => gt cents (ofZ 0))
      (acceptedCents members customShares).
Proof.
  induction members as [|member members IH]; [reflexivity|].
  rewrite positiveCents_cons, acceptedCents_cons. unfold hasPositiveShare.
  destruct (accepted (entry customShares member)); cbn [andb List.filter];
    [|exact IH].
  destruct (gt _ (ofZ 0)); now rewrite IH.
Qed.

Lemma Zsum_filter_positive (zs : list Z) :
  Forall (fun z => 0 <= z) zs ->
  Zsum (List.filter (fun z => 0 <? z) zs) = Zsum zs.
Proof.
  unfold Zsum. induction 1 as [|z zs Hz _ IH]; [reflexivity|].
  cbn [List.filter]. destruct (Z.ltb_spec 0 z); cbn [foldr]; lia.
Qed.

Lemma Zsum_bound (zs : list Z) (z : Z) :
  Forall (fun z => 0 <= z) zs -> In z zs -> z <= Zsum zs.
Proof.
  unfold Zsum. induction 1 as [|y zs Hy Hzs IH]; [contradiction|].
  pose proof (Zsum_nonneg zs Hzs) as Hn. unfold Zsum in Hn.
  intros [->|Hin]; cbn [foldr]; [lia|]. specialize (IH Hin). lia.
Qed.

Lemma filter_gt_ofZ (cents : list Z) (bound : Z) :
  bound < 2 ^ 53 ->
  Forall (fun c => 0 <= c) cents ->
  Forall (fun c => c <= bound) cents ->
  List.filter (fun c => gt c (ofZ 0)) (ofZ <$> cents)
  = ofZ <$> List.filter (fun z => 0 <? z) cents.
Proof.
  intros Hbound Hnonneg. induction Hnonneg as [|c cents Hc _ IH];
    intros Hle; [reflexivity|].
  apply Forall_cons in Hle as [HcS Hle].
  rewrite fmap_cons. cbn [List.filter].
  rewrite gt_ofZ by (unfold safe; lia).
  rewrite (IH Hle). now destruct (0 <? c).
Qed.

(** When the accepted shares are worth [cents], counts that add up to less
    than 2^53, the sum of the loop is their sum. *)
Lemma sumOf_positiveCents members customShares (cents : list Z) :
  acceptedCents members customShares = ofZ <$> cents ->
  Forall (fun c => 0 <= c) cents ->
  Zsum cents < 2 ^ 53 ->
  sumOf (positiveCents members customShares) = ofZ (Zsum cents).
Proof.
  intros Hcents Hnonneg Hsum.
  rewrite positiveCents_accepted, Hcents.
  rewrite (filter_gt_ofZ cents (Zsum cents) Hsum Hnonneg)
    by (apply Forall_forall; intros c Hc%list_elem_of_In;
        now apply Zsum_bound).
  rewrite sumOf_ofZ.
  - now rewrite Zsum_filter_positive.
  - apply Forall_forall. intros c Hc%list_elem_of_In.
    apply List.filter_In in Hc as [Hc _].
    rewrite Forall_forall in Hnonneg. now apply Hnonneg, list_elem_of_In.
  - now rewrite Zsum_filter_positive.
Qed.

(** The handler of a custom split, once the guards are passed: the three
    ways out, in the order of the source. *)
Lemma handleSubmit_custom (s : State) d a u :
  validate s = inr (d, a, u) ->
  splitType s = custom ->
  handleSubmit s =
    if negb (strictEq (sumOf (positiveCents (members s) (customShares s)))
               (minorUnits a))
    then (setSplitError (Some TotalMismatch), Return)
    else
      match List.filter (hasPositiveShare (customShares s)) (members s) with
      | [] => (setSplitError (Some EmptyCustomSet), Return)
      | positive =>
          (setSplitError
             (if existsb (fun member => rejected (entry (customShares s) member))
                   (members s)
              then Some InvalidShare else None),
           Insert {| ExpenseRow.group_id := groupId s;
                     ExpenseRow.description := d;
                     ExpenseRow.amount := a;
                     ExpenseRow.paid_by := paidBy s;
                     ExpenseRow.split_type := custom;
                     ExpenseRow.created_by := AuthUser.id u;
                     ExpenseRow.type := expenseType s |}
                  (splitRows (map (customLine (customShares s)) positive)))
      end.
Proof.
  intros Hv Hst. unfold handleSubmit. rewrite Hv, Hst.
  replace (bool_decide (custom = equal_selected)) with false by reflexivity.
  cbn [andb]. unfold buildSplits. rewrite customLoop_spec.
  fold (minorUnits a).
  destruct (negb (strictEq _ (minorUnits a))); [reflexivity|].
  destruct (List.filter (hasPositiveShare (customShares s)) (members s))
    as [|member positive]; [reflexivity|].
  rewrite length_map. reflexivity.
Qed.

(** Without a positive share the loop sums nothing and pushes no line. *)
Lemma no_positive_share members customShares :
  (forall member, In member members ->
                  hasPositiveShare customShares member = false) ->
  List.filter (hasPositiveShare customShares) members = [].
Proof.
  intros Hnone. induction members as [|member members IH]; [reflexivity|].
  cbn [List.filter]. rewrite (Hnone member (or_introl eq_refl)).
  apply IH. intros m Hm. apply Hnone. now right.
Qed.

End CustomSplit.

(** * The claims about the custom split *)

Section CustomSplitClaims.

Import Js Binary64 Binary64Facts JsFacts AddExpense EqualSplit CustomSplit Examples.

(** C3, as stated, fails.  The total 90071992547409.92 is worth 2^53 minor
    units; the shares 90071992547409.92 and 0.01 are accepted and worth
    2^53 and 1 minor units, one minor unit more than the total.  The
    handler adds them up to 2^53 and sends the expense. *)
Lemma C3_counterexample :
  ~ (forall (s : State) d a u (T : Z) (cents : list Z),
        validate s = inr (d, a, u) ->
        splitType s = custom ->
        minorUnits a = ofZ T ->
        acceptedCents (members s) (customShares s) = ofZ <$> cents ->
        Zsum cents <> T ->
        handleSubmit s = (setSplitError (Some TotalMismatch), Return)).
Proof.
  intros Hclaim.
  set (s := dinner "90071992547409.92" custom []
              (shares "90071992547409.92" "0.01")).
  assert (handleSubmit s = (setSplitError (Some TotalMismatch), Return))
    as Hsubmit.
  { apply (Hclaim s "Dinner"%string (parseFloat "90071992547409.92") me
             (2 ^ 53) [2 ^ 53; 1]).
    - reflexivity.
    - reflexivity.
    - vm_compute. reflexivity.
    - vm_compute. reflexivity.
    - discriminate. }
  vm_compute in Hsubmit. discriminate Hsubmit.
Qed.

(** C3, amended.  For a custom split that passes the guards, with a total
    worth [T] minor units and accepted shares (not blank, parsed, not
    negative) worth [cents] minor units, [T] and the sum of [cents] below
    2^53: when [cents] add up to anything else than [T], the handler stops
    with the message [TotalMismatch] and sends nothing; when they add up to
    [T], the message it leaves is not [TotalMismatch].  The minor units of a
    share are those the handler takes, [Math.round(value * 100)]. *)
Theorem C3_custom_total_mismatch (s : State) d a u (T : Z) (cents : list Z) :
  validate s = inr (d, a, u) ->
  splitType s = custom ->
  minorUnits a = ofZ T ->
  acceptedCents (members s) (customShares s) = ofZ <$> cents ->
  0 <= T < 2 ^ 53 ->
  Forall (fun c => 0 <= c) cents ->
  Zsum cents < 2 ^ 53 ->
  (Zsum cents <> T ->
   handleSubmit s = (setSplitError (Some TotalMismatch), Return)) /\
  (Zsum cents = T ->
   splitError (fst (handleSubmit s)) <> Some TotalMismatch).
Proof.
  intros Hv Hst HT Hcents Hbound Hnonneg Hsum.
  rewrite (handleSubmit_custom s d a u Hv Hst), HT.
  rewrite (sumOf_positiveCents _ _ cents Hcents Hnonneg Hsum).
  pose proof (Zsum_nonneg cents Hnonneg) as Hn.
  rewrite strictEq_ofZ by (unfold safe; lia).
  destruct (Z.eqb_spec (Zsum cents) T) as [Heq|Hne]; cbn [negb]; split.
  - contradiction.
  - intros _.
    destruct (List.filter _ (members s)); cbn [fst splitError setSplitError].
    + discriminate.
    + destruct (existsb _ (members s)); discriminate.
  - reflexivity.
  - contradiction.
Qed.

Lemma C3_witness :
  let s := dinner "1000.00" custom [] (shares "250" "740") in
  validate s = inr ("Dinner"%string, ofZ 1000, me) /\
  splitType s = custom /\
  minorUnits (ofZ 1000) = ofZ 100000 /\
  acceptedCents (members s) (customShares s) = ofZ <$> [25000; 74000] /\
  0 <= 100000 < 2 ^ 53 /\
  Forall (fun c => 0 <= c) [25000; 74000] /\
  Zsum [25000; 74000] < 2 ^ 53 /\
  (Zsum [25000; 74000] <> 100000 ->
   handleSubmit s = (setSplitError (Some TotalMismatch), Return)) /\
  (Zsum [25000; 74000] = 100000 ->
   splitError (fst (handleSubmit s)) <> Some TotalMismatch).
Proof.
  intros s.
  assert (validate s = inr ("Dinner"%string, ofZ 1000, me)) as Hv by reflexivity.
  assert (splitType s = custom) as Hst by reflexivity.
  assert (minorUnits (ofZ 1000) = ofZ 100000) as HT by reflexivity.
  assert (acceptedCents (members s) (customShares s) = ofZ <$> [25000; 74000])
    as Hcents by reflexivity.
  assert (0 <= 100000 < 2 ^ 53) as Hbound by (split; [lia | reflexivity]).
  assert (Forall (fun c => 0 <= c) [25000; 74000]) as Hnonneg
    by (repeat constructor; lia).
  assert (Zsum [25000; 74000] < 2 ^ 53) as Hsum by reflexivity.
  split; [exact Hv | split; [exact Hst | split; [exact HT|]]].
  split; [exact Hcents | split; [exact Hbound | split; [exact Hnonneg|]]].
  split; [exact Hsum|].
  exact (C3_custom_total_mismatch s _ _ _ _ _ Hv Hst HT Hcents Hbound Hnonneg Hsum).
Defined.

(** The scenarios of the specification for a total of 1000.00: shares of
    250 and 750 are accepted; shares of 250 and 740, and shares one minor
    unit short or one minor unit over, are rejected with [TotalMismatch]. *)
Example custom_split_scenarios :
  (exists expense,
      handleSubmit (dinner "1000.00" custom [] (shares "250" "750"))
      = (noErrors,
         Insert expense (splitRows
           [ {| SplitRow.user_id := "A"; SplitRow.amount := ofZ 250 |};
             {| SplitRow.user_id := "B"; SplitRow.amount := ofZ 750 |} ]))) /\
  handleSubmit (dinner "1000.00" custom [] (shares "250" "740"))
    = (setSplitError (Some TotalMismatch), Return) /\
  handleSubmit (dinner "1000.00" custom [] (shares "250" "749.99"))
    = (setSplitError (Some TotalMismatch), Return) /\
  handleSubmit (dinner "1000.00" custom [] (shares "250" "750.01"))
    = (setSplitError (Some TotalMismatch), Return).
Proof.
  split; [eexists; vm_compute; reflexivity | repeat split; vm_compute; reflexivity].
Qed.

(** The minor units of a share are rounded from a rounded product: with a
    total of 1 the share 1.005 is worth 100 minor units and is sent, and
    with a total of 10 the share 9.995 is worth 999 and is refused. *)
Example custom_split_half_units :
  (exists expense rows,
      handleSubmit (dinner "1" custom [] (shares "1.005" ""))
      = (noErrors, Insert expense rows)) /\
  handleSubmit (dinner "10" custom [] (shares "9.995" ""))
    = (setSplitError (Some TotalMismatch), Return).
Proof.
  split; [eexists _, _; vm_compute; reflexivity | vm_compute; reflexivity].
Qed.

(** C4. The handler at two forms with a rejected share.  The share of [A]
    does not parse and the share of [B] covers the total: the message
    [InvalidShare] is set, and yet the expense and the line of [B] are sent
    to the store.  The share of [A] is negative and the shares do not cover
    the total: the message left is [TotalMismatch], not [InvalidShare]. *)
Example C4_invalid_share_is_not_final :
  rejected (entry (shares "abc" "10") (member "A")) = true /\
  (exists expense,
      handleSubmit (dinner "10" custom [] (shares "abc" "10"))
      = (setSplitError (Some InvalidShare),
         Insert expense (splitRows
           [ {| SplitRow.user_id := "B"; SplitRow.amount := ofZ 10 |} ]))) /\
  rejected (entry (shares "-5" "3") (member "A")) = true /\
  handleSubmit (dinner "10" custom [] (shares "-5" "3"))
    = (setSplitError (Some TotalMismatch), Return).
Proof.
  split; [reflexivity|].
  split; [eexists; vm_compute; reflexivity|].
  split; [reflexivity | vm_compute; reflexivity].
Qed.

(** A custom split in which nobody has a positive share stops at the
    comparison of the sums: the loop has summed nothing, so the message is
    [TotalMismatch] unless the total itself is worth zero minor units, and
    the test of the empty set that follows is reached for such totals
    only. *)
Lemma nobody_with_a_share (s : State) d a u :
  validate s = inr (d, a, u) ->
  splitType s = custom ->
  (forall member, In member (members s) ->
                  hasPositiveShare (customShares s) member = false) ->
  handleSubmit s
  = (setSplitError
       (Some (if strictEq (ofZ 0) (minorUnits a)
              then EmptyCustomSet else TotalMismatch)), Return).
Proof.
  intros Hv Hst Hnone.
  rewrite (handleSubmit_custom s d a u Hv Hst).
  unfold positiveCents. rewrite (no_positive_share _ _ Hnone).
  change (sumOf (map _ [])) with (ofZ 0).
  now destruct (strictEq (ofZ 0) (minorUnits a)).
Qed.

(** C5. The handler at a total of 10.00 with every share left blank: no
    member has a positive share, and the message is [TotalMismatch], not
    [EmptyCustomSet]; the same with shares of zero. *)
Example C5_empty_set_reported_as_mismatch :
  (forall m, In m (members (dinner "10.00" custom [] ∅)) ->
             hasPositiveShare ∅ m = false) /\
  handleSubmit (dinner "10.00" custom [] ∅)
    = (setSplitError (Some TotalMismatch), Return) /\
  (forall m, In m (members (dinner "10.00" custom [] (shares "0" "0.00"))) ->
             hasPositiveShare (shares "0" "0.00") m = false) /\
  handleSubmit (dinner "10.00" custom [] (shares "0" "0.00"))
    = (setSplitError (Some TotalMismatch), Return) /\
  TotalMismatch <> EmptyCustomSet.
Proof.
  split; [intros m [<- | [<- | [<- | []]]]; reflexivity|].
  split; [vm_compute; reflexivity|].
  split; [intros m [<- | [<- | [<- | []]]]; reflexivity|].
  split; [vm_compute; reflexivity | discriminate].
Qed.

End CustomSplitClaims.
(** * From an equal split to a custom split *)

Module RoundTrip.

Import Js Binary64 Binary64Facts JsFacts AddExpense EqualSplit CustomSplit.

Lemma Zsum_Permutation (l k : list Z) : Permutation l k -> Zsum l = Zsum k.
Proof.
  unfold Zsum. induction 1; simpl; lia.
Qed.

(** A rearrangement of integer-valued numbers is integer-valued. *)
Lemma Permutation_ofZ (zs : list Z) (l : list number) :
  Permutation (ofZ <$> zs) l ->
  exists zs', l = ofZ <$> zs' /\ Permutation zs zs'.
Proof.
  intros Hperm. symmetry in Hperm.
  apply Permutation_map_inv in Hperm as (zs' & -> & Hzs).
  exists zs'. split; [reflexivity | now symmetry].
Qed.

(** A decimal amount [c / 100] with [0 <= c < 2^53], read back as a custom
    share, is accepted. *)
Lemma accepted_cents (raw : string) (c : Z) :
  0 <= c < 2 ^ 53 ->
  parseFloat raw = div (ofZ c) (ofZ 100) -> accepted raw = true.
Proof.
  intros Hc Hraw. unfold accepted. rewrite Hraw.
  assert (isNaN (div (ofZ c) (ofZ 100)) = false /\
          lt (div (ofZ c) (ofZ 100)) (ofZ 0) = false) as [Hnan Hlt].
  { destruct (Z.eq_dec c 0) as [->|Hne]; [split; reflexivity|].
    destruct (div_rounded c 100 ltac:(lia) ltac:(split; reflexivity))
      as (m1 & E1 & -> & _ & _ & _).
    unfold rounded.
    destruct (m1 =? 2 ^ 53), (- E1 + 1 <=? 971), (- E1 <=? 971);
      split; reflexivity. }
  rewrite Hnan, Hlt.
  destruct raw as [|ch raw]; [|reflexivity].
  rewrite <- Hraw in Hnan. discriminate Hnan.
Qed.

Lemma acceptedCents_filter members customShares (P : string -> bool) :
  (forall member, In member members ->
                  accepted (entry customShares member) = P (Member.userId member)) ->
  acceptedCents members customShares
  = map (fun userId =>
           minorUnits (parseFloat (trim (default ""%string (customShares !! userId)))))
        (List.filter P (map Member.userId members)).
Proof.
  induction members as [|member members IH]; intros HP; [reflexivity|].
  rewrite acceptedCents_cons. cbn [map List.filter].
  rewrite (HP member (or_introl eq_refl)).
  rewrite IH by (intros m Hm; apply HP; now right).
  now destruct (P (Member.userId member)).
Qed.

Lemma none_rejected members customShares :
  (forall member, In member members ->
                  rejected (entry customShares member) = false) ->
  existsb (fun member => rejected (entry customShares member)) members = false.
Proof.
  intros Hnone. destruct (existsb _ members) eqn:Hex; [|reflexivity].
  apply existsb_exists in Hex as (member & Hin & Hrej).
  now rewrite (Hnone member Hin) in Hrej.
Qed.

Lemma accepted_not_rejected (raw : string) :
  accepted raw = true -> rejected raw = false.
Proof.
  intros Hacc. destruct (rejected raw) eqn:Hrej; [|reflexivity].
  now rewrite (rejected_not_accepted _ Hrej) in Hacc.
Qed.

Lemma blank_entry (raw : string) :
  raw = ""%string -> accepted raw = false /\ rejected raw = false.
Proof. now intros ->. Qed.

(** The statement behind C9, on the lines of the equal split. *)
Lemma custom_accepts_equal_split (s' : State) d' a u' (T : Z)
    (participantIds : list string) :
  validate s' = inr (d', a, u') ->
  splitType s' = custom ->
  minorUnits a = ofZ T ->
  0 < T < 2 ^ 50 ->
  participantIds <> [] ->
  Z.of_nat (length participantIds) < 2 ^ 53 ->
  Permutation participantIds
    (List.filter (fun userId => bool_decide (userId ∈ participantIds))
       (map Member.userId (members s'))) ->
  (forall line, In line (equalSplits (ofZ T) participantIds) ->
     parseFloat (trim (default ""%string (customShares s' !! SplitRow.user_id line)))
     = SplitRow.amount line) ->
  (forall member, In member (members s') ->
     Member.userId member ∉ participantIds ->
     entry (customShares s') member = ""%string) ->
  sumOf (acceptedCents (members s') (customShares s')) = ofZ T /\
  exists expense' splits',
    handleSubmit s' = (noErrors, Insert expense' (splitRows splits')).
Proof.
  intros Hv Hst HT Hpos Hne HN53 Hperm Hfeed Hblank.
  assert (2 ^ 50 < 2 ^ 53) as H50 by reflexivity.
  set (N := length participantIds) in *.
  assert (0 < N)%nat as HN
    by (subst N; destruct participantIds; simpl; [congruence | lia]).
  (* what a participant's entry parses to *)
  assert (forall userId, userId ∈ participantIds ->
            exists c, 0 <= c < 2 ^ 53 /\
              parseFloat (trim (default ""%string (customShares s' !! userId)))
              = div (ofZ c) (ofZ 100)) as Hentry.
  { intros userId Hin. apply list_elem_of_lookup in Hin as [i Hi].
    exists (shareCents T N i).
    split; [pose proof (shareCents_bounds T N i ltac:(lia) HN); lia|].
    apply (Hfeed {| SplitRow.user_id := userId;
                    SplitRow.amount := div (ofZ (shareCents T N i)) (ofZ 100) |}).
    rewrite equalSplits_ofZ by (try assumption; unfold safe; lia).
    apply list_elem_of_In.
    apply list_elem_of_lookup. exists i.
    rewrite list_lookup_imap, Hi. reflexivity. }
  (* which entries are accepted *)
  assert (forall member, In member (members s') ->
            accepted (entry (customShares s') member)
            = bool_decide (Member.userId member ∈ participantIds)) as Hacc.
  { intros member Hin. case_bool_decide as Hmem.
    - destruct (Hentry _ Hmem) as (c & Hc & Hparse).
      now apply (accepted_cents _ c).
    - now apply blank_entry, Hblank. }
  (* the accepted shares are the shares of the equal split, rearranged *)
  set (shares := shareCents T N <$> seq 0 N).
  assert (exists cents, acceptedCents (members s') (customShares s') = ofZ <$> cents
                        /\ Permutation shares cents) as (cents & Hcents & Hshares).
  { apply Permutation_ofZ. subst shares N.
    rewrite <- lineCents_equalSplits by (try assumption; lia).
    rewrite (acceptedCents_filter _ _
               (fun userId => bool_decide (userId ∈ participantIds)) Hacc).
    unfold lineCents.
    rewrite (map_ext_in _
               (fun line => minorUnits (parseFloat (trim (default ""%string
                  (customShares s' !! SplitRow.user_id line))))))
      by (intros line Hline; now rewrite (Hfeed line Hline)).
    rewrite <- (map_map SplitRow.user_id
                  (fun userId => minorUnits (parseFloat (trim (default ""%string
                     (customShares s' !! userId)))))).
    rewrite users_equalSplits. now apply Permutation_map. }
  assert (Zsum cents = T) as HZ
    by (rewrite <- (Zsum_Permutation _ _ Hshares); apply Zsum_shareCents, HN).
  assert (Forall (fun c => 0 <= c) cents) as Hnonneg.
  { apply (Permutation_Forall Hshares). subst shares.
    apply Forall_fmap, Forall_forall. intros i _. simpl.
    pose proof (shareCents_bounds T N i ltac:(lia) HN). lia. }
  assert (sumOf (acceptedCents (members s') (customShares s')) = ofZ T) as Hsum
    by (rewrite Hcents, sumOf_ofZ, HZ by (try assumption; lia); reflexivity).
  split; [exact Hsum|].
  rewrite (handleSubmit_custom s' d' a u' Hv Hst), HT.
  rewrite (sumOf_positiveCents _ _ cents Hcents Hnonneg) by lia.
  rewrite HZ, strictEq_ofZ, Z.eqb_refl by (unfold safe; lia). cbn [negb].
  rewrite none_rejected.
  2:{ intros member Hin. specialize (Hacc member Hin).
      case_bool_decide as Hmem.
      - now apply accepted_not_rejected.
      - now apply blank_entry, Hblank. }
  destruct (List.filter (hasPositiveShare (customShares s')) (members s'))
    as [|member positive] eqn:Hfilter.
  - exfalso.
    pose proof (sumOf_positiveCents _ _ cents Hcents Hnonneg ltac:(lia)) as Hzero.
    unfold positiveCents in Hzero. rewrite Hfilter, HZ in Hzero.
    change (sumOf (map _ [])) with (ofZ 0) in Hzero.
    pose proof (strictEq_ofZ 0 T ltac:(unfold safe; lia) ltac:(unfold safe; lia))
      as Heq.
    rewrite Hzero, strictEq_ofZ, Z.eqb_refl in Heq by (unfold safe; lia).
    symmetry in Heq. apply Z.eqb_eq in Heq. lia.
  - eexists _, _. reflexivity.
Qed.

End RoundTrip.

Section RoundTripClaim.

Import Js Binary64 Binary64Facts JsFacts AddExpense EqualSplit CustomSplit RoundTrip.
Import Examples.

(** C9, as stated, fails.  The lines of 80000000003914.17 split between
    [A] and [B], typed as custom shares 40000000001957.09 and
    40000000001957.08 for the same total, are refused with
    [TotalMismatch]. *)
Lemma C9_counterexample :
  ~ (forall (s s' : State) d d' a u u' (T : Z) expense splits,
        validate s = inr (d, a, u) ->
        splitType s <> custom ->
        participantIds s <> [] ->
        minorUnits a = ofZ T ->
        0 < T ->
        handleSubmit s = (noErrors, Insert expense (splitRows splits)) ->
        validate s' = inr (d', a, u') ->
        splitType s' = custom ->
        members s' = members s ->
        Permutation (participantIds s)
          (List.filter (fun userId => bool_decide (userId ∈ participantIds s))
             (map Member.userId (members s))) ->
        (forall line, In line splits ->
           parseFloat (trim (default ""%string
                               (customShares s' !! SplitRow.user_id line)))
           = SplitRow.amount line) ->
        (forall member, In member (members s) ->
           Member.userId member ∉ participantIds s ->
           entry (customShares s') member = ""%string) ->
        sumOf (acceptedCents (members s') (customShares s')) = ofZ T /\
        exists expense' splits',
          handleSubmit s' = (noErrors, Insert expense' (splitRows splits'))).
Proof.
  intros Hclaim.
  set (s := dinner "80000000003914.17" equal_selected ["A"; "B"]%string ∅).
  set (s' := dinner "80000000003914.17" custom []
               (shares "40000000001957.09" "40000000001957.08")).
  set (splits :=
         [ {| SplitRow.user_id := "A"%string;
              SplitRow.amount := div (ofZ 4000000000195709) (ofZ 100) |};
           {| SplitRow.user_id := "B"%string;
              SplitRow.amount := div (ofZ 4000000000195708) (ofZ 100) |} ]).
  assert (handleSubmit s' = (setSplitError (Some TotalMismatch), Return))
    as Hrefused by (vm_compute; reflexivity).
  destruct (Hclaim s s' "Dinner"%string "Dinner"%string
              (parseFloat "80000000003914.17") me me 8000000000391417
              {| ExpenseRow.group_id := "g1";
                 ExpenseRow.description := "Dinner";
                 ExpenseRow.amount := parseFloat "80000000003914.17";
                 ExpenseRow.paid_by := "A";
                 ExpenseRow.split_type := equal_selected;
                 ExpenseRow.created_by := "A";
                 ExpenseRow.type := expense |}
              splits)
    as (_ & expense' & splits' & Hsent).
  - reflexivity.
  - discriminate.
  - discriminate.
  - vm_compute. reflexivity.
  - lia.
  - vm_compute. reflexivity.
  - reflexivity.
  - reflexivity.
  - reflexivity.
  - vm_compute. apply Permutation_refl.
  - intros line [<- | [<- | []]]; vm_compute; reflexivity.
  - intros m [<- | [<- | [<- | []]]] Hm; try reflexivity;
      exfalso; apply Hm; vm_compute; repeat constructor.
  - rewrite Hrefused in Hsent. discriminate Hsent.
Qed.

(** C9, amended.  Take a form with an equal strategy that passes the
    guards, with at least one participant and a total worth [T] minor units,
    [0 < T < 2^50], and the lines [splits] it hands to the store.  Take the
    same form with the custom strategy, where the share typed for the
    participant of each line reads as the amount of the line and the other
    members are left blank (the participants being members, each listed
    once).  Then the accepted shares add up to exactly [T] and the custom
    form goes through to the store without any error message. *)
Theorem C9_equal_split_round_trip (s s' : State) d d' a u u' (T : Z)
    expense splits :
  validate s = inr (d, a, u) ->
  splitType s <> custom ->
  participantIds s <> [] ->
  minorUnits a = ofZ T ->
  0 < T < 2 ^ 50 ->
  Z.of_nat (length (participantIds s)) < 2 ^ 53 ->
  handleSubmit s = (noErrors, Insert expense (splitRows splits)) ->
  validate s' = inr (d', a, u') ->
  splitType s' = custom ->
  members s' = members s ->
  Permutation (participantIds s)
    (List.filter (fun userId => bool_decide (userId ∈ participantIds s))
       (map Member.userId (members s))) ->
  (forall line, In line splits ->
     parseFloat (trim (default ""%string (customShares s' !! SplitRow.user_id line)))
     = SplitRow.amount line) ->
  (forall member, In member (members s) ->
     Member.userId member ∉ participantIds s ->
     entry (customShares s') member = ""%string) ->
  sumOf (acceptedCents (members s') (customShares s')) = ofZ T /\
  exists expense' splits',
    handleSubmit s' = (noErrors, Insert expense' (splitRows splits')).
Proof.
  intros Hv Hst Hne HT Hpos HN Hsubmit Hv' Hst' Hmembers Hperm Hfeed Hblank.
  rewrite (handleSubmit_equal s d a u Hv Hst Hne), HT in Hsubmit.
  injection Hsubmit as _ Hrows. apply splitRows_inj in Hrows. subst splits.
  rewrite <- Hmembers in Hperm, Hblank.
  exact (custom_accepts_equal_split s' d' a u' T (participantIds s)
           Hv' Hst' HT Hpos Hne HN Hperm Hfeed Hblank).
Qed.

Lemma C9_witness :
  let s := dinner "10.01" equal_selected ["C"; "A"]%string ∅ in
  let s' := dinner "10.01" custom []
              (typed [("C", "5.01"); ("A", " 5 ")]%string) in
  let expense :=
    {| ExpenseRow.group_id := "g1";
       ExpenseRow.description := "Dinner";
       ExpenseRow.amount := parseFloat "10.01";
       ExpenseRow.paid_by := "A";
       ExpenseRow.split_type := equal_selected;
       ExpenseRow.created_by := "A";
       ExpenseRow.type := expense |} in
  let splits :=
    [ {| SplitRow.user_id := "C"; SplitRow.amount := parseFloat "5.01" |};
      {| SplitRow.user_id := "A"; SplitRow.amount := ofZ 5 |} ]%string in
  (validate s = inr ("Dinner"%string, parseFloat "10.01", me) /\
   splitType s <> custom /\
   participantIds s <> [] /\
   minorUnits (parseFloat "10.01") = ofZ 1001 /\
   0 < 1001 < 2 ^ 50 /\
   Z.of_nat (length (participantIds s)) < 2 ^ 53 /\
   handleSubmit s = (noErrors, Insert expense (splitRows splits)) /\
   validate s' = inr ("Dinner"%string, parseFloat "10.01", me) /\
   splitType s' = custom /\
   members s' = members s) /\
  (Permutation (participantIds s)
     (List.filter (fun userId => bool_decide (userId ∈ participantIds s))
        (map Member.userId (members s))) /\
   (forall line, In line splits ->
      parseFloat (trim (default ""%string
                          (customShares s' !! SplitRow.user_id line)))
      = SplitRow.amount line) /\
   (forall m, In m (members s) ->
      Member.userId m ∉ participantIds s ->
      entry (customShares s') m = ""%string)) /\
  sumOf (acceptedCents (members s') (customShares s')) = ofZ 1001 /\
  exists expense' splits',
    handleSubmit s' = (noErrors, Insert expense' (splitRows splits')).
Proof.
  intros s s' expense splits.
  assert (validate s = inr ("Dinner"%string, parseFloat "10.01", me)) as Hv
    by reflexivity.
  assert (splitType s <> custom) as Hst by discriminate.
  assert (participantIds s <> []) as Hne by discriminate.
  assert (minorUnits (parseFloat "10.01") = ofZ 1001) as HT
    by (vm_compute; reflexivity).
  assert (0 < 1001 < 2 ^ 50) as Hpos by (split; reflexivity).
  assert (Z.of_nat (length (participantIds s)) < 2 ^ 53) as HN by reflexivity.
  assert (handleSubmit s = (noErrors, Insert expense (splitRows splits)))
    as Hsubmit by (vm_compute; reflexivity).
  assert (validate s' = inr ("Dinner"%string, parseFloat "10.01", me)) as Hv'
    by reflexivity.
  assert (splitType s' = custom) as Hst' by reflexivity.
  assert (members s' = members s) as Hmembers by reflexivity.
  assert (Permutation (participantIds s)
            (List.filter (fun userId => bool_decide (userId ∈ participantIds s))
               (map Member.userId (members s)))) as Hperm
    by (vm_compute; apply perm_swap).
  assert (forall line, In line splits ->
            parseFloat (trim (default ""%string
                                (customShares s' !! SplitRow.user_id line)))
            = SplitRow.amount line) as Hfeed
    by (intros line [<- | [<- | []]]; vm_compute; reflexivity).
  assert (forall m, In m (members s) ->
            Member.userId m ∉ participantIds s ->
            entry (customShares s') m = ""%string) as Hblank.
  { intros m [<- | [<- | [<- | []]]] Hm; try reflexivity;
      exfalso; apply Hm; vm_compute; repeat constructor. }
  split; [repeat split; try assumption; reflexivity|].
  split; [repeat split; assumption|].
  exact (C9_equal_split_round_trip s s' "Dinner"%string "Dinner"%string
           (parseFloat "10.01") me me 1001 expense splits
           Hv Hst Hne HT Hpos HN Hsubmit Hv' Hst' Hmembers Hperm Hfeed Hblank).
Defined.

End RoundTripClaim.
(** * The claims about credits *)

Module Credit.

Import Js JsFacts AddCredit.

Lemma validate_amount (s : State) d A :
  validate s = inr (d, A) -> A = parseFloat (amount s).
Proof.
  unfold validate.
  destruct (isEmpty (trim (description s))); [discriminate|].
  destruct (negb (descriptionPattern_test (trim (description s)))); [discriminate|].
  destruct (isEmpty (amount s) || isNaN (parseFloat (amount s))
            || le (parseFloat (amount s)) (ofZ 0)); [discriminate|].
  destruct (tooManyDecimals (amount s)); [discriminate|].
  now intros [= _ <-].
Qed.

End Credit.

Section CreditClaims.

Import Js JsFacts AddCredit Credit Examples.

(** C6. A credit that passes the guards on description and amount, with a
    payer and a recipient selected and distinct and a signed-in user, goes
    to the store with exactly two lines, the payer with [-A] and then the
    recipient with [A].  With payer and recipient exchanged the lines are
    the recipient with [-A] and then the payer with [A]: each participant
    gets the negation of what they had. *)
Theorem C6_credit_lines (s : State) d A :
  validate s = inr (d, A) ->
  isEmpty (paidBy s) = false ->
  isEmpty (paidTo s) = false ->
  paidBy s <> paidTo s ->
  currentUser s <> None ->
  exists expense expense' rows rows',
    handleSubmit s = (noErrors, Insert expense rows) /\
    handleSubmit (swapParticipants s) = (noErrors, Insert expense' rows') /\
    forall expenseId,
      rows expenseId
      = [ {| ExpenseSplitRow.expense_id := expenseId;
             ExpenseSplitRow.user_id := paidBy s;
             ExpenseSplitRow.amount := neg A |};
          {| ExpenseSplitRow.expense_id := expenseId;
             ExpenseSplitRow.user_id := paidTo s;
             ExpenseSplitRow.amount := A |} ] /\
      rows' expenseId
      = [ {| ExpenseSplitRow.expense_id := expenseId;
             ExpenseSplitRow.user_id := paidTo s;
             ExpenseSplitRow.amount := neg A |};
          {| ExpenseSplitRow.expense_id := expenseId;
             ExpenseSplitRow.user_id := paidBy s;
             ExpenseSplitRow.amount := A |} ] /\
      rows' expenseId = rev (map negateLine (rows expenseId)).
Proof.
  intros Hv Hby Hto Hne Huser.
  destruct (currentUser s) as [user|] eqn:Hcurrent; [|congruence].
  assert (String.eqb (paidBy s) (paidTo s) = false) as Hdistinct
    by now apply String.eqb_neq.
  assert (String.eqb (paidTo s) (paidBy s) = false) as Hdistinct'
    by (apply String.eqb_neq; congruence).
  assert (validate (swapParticipants s) = inr (d, A)) as Hv' by exact Hv.
  unfold handleSubmit. rewrite Hv, Hv'. cbn [swapParticipants paidBy paidTo
    currentUser groupId].
  rewrite Hby, Hto, Hdistinct, Hdistinct', Hcurrent. cbn [orb].
  eexists _, _, _, _. split; [reflexivity | split; [reflexivity|]].
  intros expenseId. split; [reflexivity | split; [reflexivity|]].
  unfold splits, negateLine. cbn [map rev app ExpenseSplitRow.expense_id
    ExpenseSplitRow.user_id ExpenseSplitRow.amount].
  now rewrite neg_neg.
Qed.

Lemma C6_witness :
  let s := repayment "12.50" "A" "B" in
  (validate s = inr ("Settling up"%string, parseFloat "12.50") /\
   isEmpty (paidBy s) = false /\ isEmpty (paidTo s) = false /\
   paidBy s <> paidTo s /\ currentUser s <> None) /\
  exists expense expense' rows rows',
    handleSubmit s = (noErrors, Insert expense rows) /\
    handleSubmit (swapParticipants s) = (noErrors, Insert expense' rows') /\
    forall expenseId,
      rows expenseId
      = [ {| ExpenseSplitRow.expense_id := expenseId;
             ExpenseSplitRow.user_id := "A";
             ExpenseSplitRow.amount := neg (parseFloat "12.50") |};
          {| ExpenseSplitRow.expense_id := expenseId;
             ExpenseSplitRow.user_id := "B";
             ExpenseSplitRow.amount := parseFloat "12.50" |} ] /\
      rows' expenseId
      = [ {| ExpenseSplitRow.expense_id := expenseId;
             ExpenseSplitRow.user_id := "B";
             ExpenseSplitRow.amount := neg (parseFloat "12.50") |};
          {| ExpenseSplitRow.expense_id := expenseId;
             ExpenseSplitRow.user_id := "A";
             ExpenseSplitRow.amount := parseFloat "12.50" |} ] /\
      rows' expenseId = rev (map negateLine (rows expenseId)).
Proof.
  intros s.
  split; [repeat split; try reflexivity; discriminate|].
  refine (C6_credit_lines s "Settling up"%string (parseFloat "12.50") _ _ _ _ _);
    try reflexivity; discriminate.
Defined.

(** C7. A credit that passes the guards on description and amount, with
    the same participant selected as payer and as recipient, stops with
    the message [SameParticipant]; nothing is sent to the store. *)
Theorem C7_same_participant (s : State) d A :
  validate s = inr (d, A) ->
  isEmpty (paidBy s) = false ->
  paidBy s = paidTo s ->
  handleSubmit s = (setParticipantError SameParticipant, Return).
Proof.
  intros Hv Hby Hsame. unfold handleSubmit. rewrite Hv, <- Hsame, Hby.
  cbn [orb]. now rewrite String.eqb_refl.
Qed.

Lemma C7_witness :
  let s := repayment "12.50" "A" "A" in
  validate s = inr ("Settling up"%string, parseFloat "12.50") /\
  isEmpty (paidBy s) = false /\
  paidBy s = paidTo s /\
  handleSubmit s = (setParticipantError SameParticipant, Return).
Proof.
  intros s. split; [reflexivity | split; [reflexivity | split; [reflexivity|]]].
  exact (C7_same_participant s "Settling up"%string (parseFloat "12.50")
           eq_refl eq_refl eq_refl).
Defined.

(** Whatever the rest of the form, a credit with the same payer and
    recipient never reaches the store. *)
Lemma same_participant_never_inserts (s : State) expense rows :
  paidBy s = paidTo s -> snd (handleSubmit s) <> Insert expense rows.
Proof.
  intros Hsame. unfold handleSubmit.
  destruct (validate s) as [[errors effect]|[d A]] eqn:Hv.
  - unfold validate in Hv.
    repeat match type of Hv with
           | (if ?b then _ else _) = _ => destruct b
           end; try (injection Hv as <- <-; discriminate); discriminate.
  - rewrite <- Hsame, String.eqb_refl.
    destruct (isEmpty (paidBy s) || isEmpty (paidBy s)); discriminate.
Qed.

End CreditClaims.
(** * The rest of the add-expense page *)

(** ** The check boxes of the selected members *)

Module Selection.

Import Js AddExpense AddExpensePage.

Lemma includes_In (userId : string) (prev : list string) :
  includes userId prev = true <-> In userId prev.
Proof.
  unfold includes. rewrite existsb_exists. split.
  - intros (id & Hin & Heq). apply String.eqb_eq in Heq. now subst.
  - intros Hin. exists userId. split; [exact Hin | apply String.eqb_refl].
Qed.

Lemma includes_not_In (userId : string) (prev : list string) :
  includes userId prev = false <-> ~ In userId prev.
Proof.
  rewrite <- includes_In. now destruct (includes userId prev).
Qed.

(** Who is selected after a click on the box of [userId]. *)
Lemma toggled_In (userId : string) (prev : list string) (id : string) :
  In id (toggled userId prev)
  <-> (id = userId /\ ~ In userId prev) \/ (id <> userId /\ In id prev).
Proof.
  unfold toggled. destruct (includes userId prev) eqn:Hinc.
  - apply includes_In in Hinc. rewrite List.filter_In, negb_true_iff, String.eqb_neq.
    split.
    + intros [Hin Hne]. right. now split.
    + intros [[_ Hout] | [Hne Hin]]; [contradiction | now split].
  - apply includes_not_In in Hinc. rewrite in_app_iff. simpl. split.
    + intros [Hin | [<- | []]].
      * right. split; [|exact Hin]. intros ->. contradiction.
      * left. now split.
    + intros [[-> _] | [_ Hin]]; [right; now left | now left].
Qed.

Lemma toggled_NoDup (userId : string) (prev : list string) :
  List.NoDup prev -> List.NoDup (toggled userId prev).
Proof.
  intros Hnd. unfold toggled. destruct (includes userId prev) eqn:Hinc.
  - now apply List.NoDup_filter.
  - apply includes_not_In in Hinc.
    apply NoDup_ListNoDup, NoDup_app. split; [now apply NoDup_ListNoDup|].
    split; [|apply NoDup_singleton].
    intros id Hid ->%list_elem_of_singleton. apply Hinc.
    now apply list_elem_of_In.
Qed.

Lemma clicked_snoc (clicks : list string) (userId : string) :
  clicked (clicks ++ [userId]) = toggled userId (clicked clicks).
Proof. unfold clicked. now rewrite fold_left_app. Qed.

Lemma filter_absent (userId : string) (prev : list string) :
  ~ In userId prev ->
  List.filter (fun id => negb (String.eqb id userId)) prev = prev.
Proof.
  induction prev as [|id prev IH]; intros Hout; [reflexivity|].
  cbn [List.filter]. destruct (String.eqb_spec id userId) as [->|Hne].
  - exfalso. apply Hout. now left.
  - cbn [negb]. f_equal. apply IH. intros Hin. apply Hout. now right.
Qed.

(** The selection after a series of clicks. *)
Lemma clicked_NoDup_odd (clicks : list string) :
  List.NoDup (clicked clicks) /\
  forall id, In id (clicked clicks)
             <-> Nat.Odd (count_occ string_dec clicks id).
Proof.
  induction clicks as [|userId clicks [IHnd IHin]] using rev_ind.
  - split; [constructor|]. intros id. simpl. split; [contradiction|].
    intros [k Hk]. lia.
  - rewrite clicked_snoc. split; [now apply toggled_NoDup|].
    intros id. rewrite toggled_In, count_occ_app. cbn [count_occ].
    destruct (string_dec userId id) as [->|Hne].
    + rewrite Nat.add_1_r, Nat.Odd_succ, IHin.
      pose proof (Nat.Even_or_Odd (count_occ string_dec clicks id)) as Hpar.
      pose proof (Nat.Even_Odd_False (count_occ string_dec clicks id)) as Hexc.
      split.
      * intros [[_ Hout] | [Hne _]]; [|congruence].
        destruct Hpar as [Heven | Hodd]; [exact Heven | contradiction].
      * intros Heven. left. split; [reflexivity|]. intros Hodd. eauto.
    + rewrite Nat.add_0_r, <- IHin. split.
      * intros [[Heq _] | [_ Hin]]; [congruence | exact Hin].
      * intros Hin. right. split; [congruence | exact Hin].
Qed.

End Selection.

Section SelectionProperties.

Import Js AddExpense AddExpensePage Selection Examples.

(** X1. A click on the check box of [userId] keeps a selection free of
    duplicates; after it [userId] is selected exactly when it was not, and
    every other member is selected exactly when it was. *)
Theorem X1_toggle_flips_one (userId : string) (prev : list string) :
  List.NoDup prev ->
  List.NoDup (toggled userId prev) /\
  (In userId (toggled userId prev) <-> ~ In userId prev) /\
  (forall id, id <> userId -> In id (toggled userId prev) <-> In id prev).
Proof.
  intros Hnd. split; [now apply toggled_NoDup | split].
  - rewrite toggled_In. split.
    + intros [[_ Hout] | [Hne _]]; [exact Hout | congruence].
    + intros Hout. left. now split.
  - intros id Hne. rewrite toggled_In. split.
    + intros [[Heq _] | [_ Hin]]; [congruence | exact Hin].
    + intros Hin. right. now split.
Qed.

Lemma X1_witness :
  List.NoDup ["A"; "B"]%string /\
  List.NoDup (toggled "A" ["A"; "B"]%string) /\
  (In "A"%string (toggled "A" ["A"; "B"]%string)
   <-> ~ In "A"%string ["A"; "B"]%string) /\
  (forall id, id <> "A"%string ->
     In id (toggled "A" ["A"; "B"]%string) <-> In id ["A"; "B"]%string).
Proof.
  assert (List.NoDup ["A"; "B"]%string) as Hnd.
  { repeat constructor; simpl; intuition discriminate. }
  split; [exact Hnd|].
  exact (X1_toggle_flips_one "A" ["A"; "B"]%string Hnd).
Defined.

(** X2. Starting with nobody selected, after any series of clicks the
    selection has no duplicate, and a member is selected exactly when its
    box was clicked an odd number of times. *)
Theorem X2_clicked_odd (clicks : list string) :
  List.NoDup (clicked clicks) /\
  forall id, In id (clicked clicks)
             <-> Nat.Odd (count_occ string_dec clicks id).
Proof. exact (clicked_NoDup_odd clicks). Qed.

(** X3. Two clicks on the same box give back the selection: the very same
    list when the member was not selected, and when it was, the same
    members with that one moved to the end. *)
Theorem X3_toggle_twice (userId : string) (prev : list string) :
  List.NoDup prev ->
  Permutation (toggled userId (toggled userId prev)) prev /\
  (~ In userId prev -> toggled userId (toggled userId prev) = prev) /\
  (In userId prev ->
   toggled userId (toggled userId prev)
   = List.filter (fun id => negb (String.eqb id userId)) prev ++ [userId]).
Proof.
  intros Hnd. split; [|split].
  - apply NoDup_Permutation.
    + apply NoDup_ListNoDup. now do 2 apply toggled_NoDup.
    + now apply NoDup_ListNoDup.
    + intros id. rewrite !list_elem_of_In, !toggled_In.
      destruct (in_dec string_dec userId prev);
        destruct (string_dec id userId) as [->|Hne]; tauto.
  - intros Hout. unfold toggled at 2.
    rewrite (proj2 (includes_not_In userId prev) Hout).
    unfold toggled.
    rewrite (proj2 (includes_In userId (prev ++ [userId]))
               ltac:(apply in_app_iff; right; now left)).
    rewrite List.filter_app, (filter_absent _ _ Hout). cbn [List.filter].
    rewrite String.eqb_refl. cbn [negb]. apply app_nil_r.
  - intros Hin. unfold toggled at 2.
    rewrite (proj2 (includes_In userId prev) Hin).
    unfold toggled.
    rewrite (proj2 (includes_not_In userId _)); [reflexivity|].
    rewrite List.filter_In, String.eqb_refl. intros [_ Hf]. discriminate Hf.
Qed.

Lemma X3_witness :
  List.NoDup ["A"; "B"; "C"]%string /\
  Permutation (toggled "A" (toggled "A" ["A"; "B"; "C"]%string))
    ["A"; "B"; "C"]%string /\
  (~ In "A"%string ["A"; "B"; "C"]%string ->
   toggled "A" (toggled "A" ["A"; "B"; "C"]%string) = ["A"; "B"; "C"]%string) /\
  (In "A"%string ["A"; "B"; "C"]%string ->
   toggled "A" (toggled "A" ["A"; "B"; "C"]%string)
   = List.filter (fun id => negb (String.eqb id "A")) ["A"; "B"; "C"]%string
     ++ ["A"%string]).
Proof.
  assert (List.NoDup ["A"; "B"; "C"]%string) as Hnd.
  { repeat constructor; simpl; intuition discriminate. }
  split; [exact Hnd|].
  exact (X3_toggle_twice "A" ["A"; "B"; "C"]%string Hnd).
Defined.

(** X4. When the members are listed once each and the boxes clicked are
    boxes of members, the participants of an equal split between the
    selected members are, up to their order, the members whose box ends up
    ticked: the precondition under which the lines of the split can be fed
    back as custom shares. *)
Theorem X4_selection_of_members (s : State) (clicks : list string) :
  splitType s = equal_selected ->
  selectedMemberIds s = clicked clicks ->
  List.NoDup (map Member.userId (members s)) ->
  (forall id, In id clicks -> In id (map Member.userId (members s))) ->
  Permutation (participantIds s)
    (List.filter (fun userId => bool_decide (userId ∈ participantIds s))
       (map Member.userId (members s))).
Proof.
  intros Hst Hsel Hnd Hclicks. unfold participantIds. rewrite Hst, Hsel.
  destruct (clicked_NoDup_odd clicks) as [Hnd' Hin'].
  apply NoDup_Permutation.
  - now apply NoDup_ListNoDup.
  - apply NoDup_ListNoDup. now apply List.NoDup_filter.
  - intros id. rewrite !list_elem_of_In, List.filter_In, bool_decide_eq_true.
    rewrite list_elem_of_In. split; [|tauto].
    intros Hin. split; [|exact Hin].
    apply Hclicks. apply Hin' in Hin.
    apply (count_occ_In string_dec). destruct Hin as [k Hk]. lia.
Qed.

End SelectionProperties.

Section SelectionWitness.

Import Js AddExpense AddExpensePage Examples.

Lemma X4_witness :
  let clicks := ["C"; "A"; "B"; "B"]%string in
  let s := dinner "10.01" equal_selected (clicked clicks) ∅ in
  (splitType s = equal_selected /\
   selectedMemberIds s = clicked clicks /\
   List.NoDup (map Member.userId (members s)) /\
   (forall id, In id clicks -> In id (map Member.userId (members s)))) /\
  Permutation (participantIds s)
    (List.filter (fun userId => bool_decide (userId ∈ participantIds s))
       (map Member.userId (members s))).
Proof.
  intros clicks s.
  assert (List.NoDup (map Member.userId (members s))) as Hnd.
  { repeat constructor; simpl; intuition discriminate. }
  assert (forall id, In id clicks -> In id (map Member.userId (members s)))
    as Hclicks by (simpl; intuition).
  split; [split; [reflexivity | split; [reflexivity | split; assumption]]|].
  exact (X4_selection_of_members s clicks eq_refl eq_refl Hnd Hclicks).
Defined.

End SelectionWitness.

(** ** The custom shares and their running total *)

Module Shares.

Import Js JsFacts AddExpense EqualSplit CustomSplit AddExpensePage.

(** What the loop of the custom split reads of [customShares]: the trimmed
    entries of the members. *)
Lemma customLoop_entries members (shares shares' : gmap string string) :
  (forall member, In member members -> entry shares member = entry shares' member) ->
  customLoop members shares = customLoop members shares'.
Proof.
  intros Hsame. unfold customLoop. generalize (@None string, ofZ 0, @nil SplitRow.t).
  induction members as [|member members IH]; intros acc; [reflexivity|].
  cbn [fold_left].
  assert (customShare shares acc member = customShare shares' acc member) as ->.
  { destruct acc as [[err sumCents] customSplits]. unfold customShare.
    fold (entry shares member). fold (entry shares' member).
    now rewrite (Hsame member (or_introl eq_refl)). }
  apply IH. intros m Hm. apply Hsame. now right.
Qed.

(** [handleSubmit] reads the custom shares only through the loop of the
    custom split. *)
Lemma handleSubmit_shares (s : State) (shares : gmap string string) :
  splitType s <> custom \/
  customLoop (members s) shares = customLoop (members s) (customShares s) ->
  handleSubmit (setCustomShares s shares) = handleSubmit s.
Proof.
  intros Hcase. unfold handleSubmit.
  change (validate (setCustomShares s shares)) with (validate s).
  destruct (validate s) as [stop|[[d a] u]]; [reflexivity|].
  change (participantIds (setCustomShares s shares)) with (participantIds s).
  cbn [setCustomShares splitType members customShares groupId paidBy expenseType].
  destruct (bool_decide (splitType s = equal_selected)
            && (length (participantIds s) =? 0)%nat);
    [reflexivity|].
  unfold buildSplits. destruct (splitType s) eqn:Hst; try reflexivity.
  destruct Hcase as [Hne | ->]; [congruence | reflexivity].
Qed.

Lemma entry_insert_other shares userId value member :
  Member.userId member <> userId ->
  entry (<[userId := value]> shares) member = entry shares member.
Proof.
  intros Hne. unfold entry. rewrite lookup_insert_ne by congruence. reflexivity.
Qed.

Lemma entry_blank shares userId value member :
  trim value = ""%string ->
  entry (<[userId := value]> shares) member
  = entry (delete userId shares) member.
Proof.
  intros Hblank. unfold entry.
  destruct (decide (userId = Member.userId member)) as [->|Hne].
  - rewrite lookup_insert_eq, lookup_delete_eq. exact Hblank.
  - rewrite lookup_insert_ne, lookup_delete_ne by exact Hne. reflexivity.
Qed.

(** One round of the running total. *)
Lemma addShare_accepted shares sum member :
  addShare shares sum member
  = if accepted (entry shares member)
    then add sum (parseFloat (entry shares member)) else sum.
Proof.
  unfold addShare, accepted. fold (entry shares member).
  destruct (isEmpty (entry shares member)); [reflexivity|].
  destruct (isNaN (parseFloat (entry shares member))); [reflexivity|].
  now destruct (lt (parseFloat (entry shares member)) (ofZ 0)).
Qed.

Lemma expense_amount (s : State) d a u :
  validate s = inr (d, a, u) ->
  a = parseFloat (amount s) /\ isNaN a = false /\ le a (ofZ 0) = false.
Proof.
  unfold validate.
  destruct (isEmpty (trim (description s))); [discriminate|].
  destruct (negb (descriptionPattern_test (trim (description s)))); [discriminate|].
  destruct (isEmpty (amount s)); [discriminate|]. cbn [orb].
  destruct (isNaN (parseFloat (amount s))) eqn:Hnan; [discriminate|]. cbn [orb].
  destruct (le (parseFloat (amount s)) (ofZ 0)) eqn:Hle; [discriminate|].
  destruct (tooManyDecimals (amount s)); [discriminate|].
  destruct (currentUser s); [|discriminate].
  intros [= _ <- _]. now repeat split.
Qed.

End Shares.

Section SharesProperties.

Import Js JsFacts AddExpense EqualSplit CustomSplit AddExpensePage Shares Examples.

(** X5. Typing a share for somebody who is not listed as a member, or
    typing any share while the strategy is not the custom one, changes
    nothing to what [handleSubmit] does. *)
Theorem X5_share_of_outsider (s : State) (userId value : string) :
  splitType s <> custom \/
  (forall member, In member (members s) -> Member.userId member <> userId) ->
  handleSubmit (handleCustomShareChange s userId value) = handleSubmit s.
Proof.
  intros Hcase. apply handleSubmit_shares.
  destruct Hcase as [Hst | Hout]; [now left | right].
  apply customLoop_entries. intros member Hin.
  apply entry_insert_other. now apply Hout.
Qed.

Lemma X5_witness :
  let s := dinner "10" custom [] (shares "4" "6") in
  (splitType s <> custom \/
   (forall m, In m (members s) -> Member.userId m <> "Z"%string)) /\
  handleSubmit (handleCustomShareChange s "Z" "100") = handleSubmit s.
Proof.
  intros s.
  assert (forall m, In m (members s) -> Member.userId m <> "Z"%string) as Hout
    by (intros m [<- | [<- | [<- | []]]]; discriminate).
  split; [right; exact Hout|].
  exact (X5_share_of_outsider s "Z" "100" (or_intror Hout)).
Defined.

(** X6. A share made of white space only counts as a share that was never
    typed: [handleSubmit] does the same as on the form without the entry. *)
Theorem X6_blank_share (s : State) (userId value : string) :
  trim value = ""%string ->
  handleSubmit (handleCustomShareChange s userId value)
  = handleSubmit (setCustomShares s (delete userId (customShares s))).
Proof.
  intros Hblank.
  transitivity (handleSubmit
                  (setCustomShares
                     (setCustomShares s (delete userId (customShares s)))
                     (<[userId := value]> (customShares s)))); [reflexivity|].
  apply handleSubmit_shares. right.
  apply customLoop_entries. intros member _. now apply entry_blank.
Qed.

Lemma X6_witness :
  let s := dinner "10" custom [] (shares "4" "6") in
  trim "  " = ""%string /\
  handleSubmit (handleCustomShareChange s "A" "  ")
  = handleSubmit (setCustomShares s (delete "A"%string (customShares s))).
Proof.
  intros s. split; [reflexivity|].
  exact (X6_blank_share s "A" "  " eq_refl).
Defined.

End SharesProperties.
(** ** What [handleSubmit] sends to the store *)

Module Submit.

Import Js JsFacts AddExpense EqualSplit CustomSplit AddExpensePage Shares.

(** The guards never stop with a request to the store. *)
Lemma validate_stops (s : State) errors effect :
  validate s = inl (errors, effect) ->
  effect = Return \/ effect = RouterReplace "/login".
Proof.
  unfold validate.
  repeat match goal with
         | |- (if ?b then _ else _) = _ -> _ => destruct b
         | |- match ?o with Some _ => _ | None => _ end = _ -> _ => destruct o
         end; intros [= <- <-]; auto.
Qed.

Lemma positive_accepted shares member :
  hasPositiveShare shares member = true -> accepted (entry shares member) = true.
Proof. unfold hasPositiveShare. now intros [? _]%andb_true_iff. Qed.

(** [handleSubmit], way out by way out. *)
Lemma expense_cases (s : State) :
  handleSubmit s =
    match validate s with
    | inl stop => stop
    | inr (d, a, u) =>
        let expense :=
          {| ExpenseRow.group_id := groupId s;
             ExpenseRow.description := d;
             ExpenseRow.amount := a;
             ExpenseRow.paid_by := paidBy s;
             ExpenseRow.split_type := splitType s;
             ExpenseRow.created_by := AuthUser.id u;
             ExpenseRow.type := expenseType s |} in
        match splitType s with
        | custom =>
            if negb (strictEq (sumOf (positiveCents (members s) (customShares s)))
                       (minorUnits a))
            then (setSplitError (Some TotalMismatch), Return)
            else
              match List.filter (hasPositiveShare (customShares s)) (members s) with
              | [] => (setSplitError (Some EmptyCustomSet), Return)
              | positive =>
                  (setSplitError
                     (if existsb (fun member =>
                                    rejected (entry (customShares s) member))
                           (members s)
                      then Some InvalidShare else None),
                   Insert expense
                     (splitRows (map (customLine (customShares s)) positive)))
              end
        | strategy =>
            match participantIds s with
            | [] =>
                (setSplitError
                   (Some (match strategy with
                          | equal_selected => NoneSelected
                          | _ => NoParticipants
                          end)), Return)
            | _ =>
                (noErrors,
                 Insert expense
                   (splitRows (equalSplits (minorUnits a) (participantIds s))))
            end
        end
    end.
Proof.
  destruct (validate s) as [stop|[[d a] u]] eqn:Hv.
  - unfold handleSubmit. now rewrite Hv.
  - destruct (splitType s) eqn:Hst.
    + destruct (participantIds s) as [|x l] eqn:Hp.
      * unfold handleSubmit. rewrite Hv, Hp, Hst. reflexivity.
      * rewrite <- Hp, <- Hst.
        apply (handleSubmit_equal s d a u Hv); congruence.
    + destruct (participantIds s) as [|x l] eqn:Hp.
      * unfold handleSubmit. rewrite Hv, Hp, Hst. reflexivity.
      * rewrite <- Hp, <- Hst.
        apply (handleSubmit_equal s d a u Hv); congruence.
    + cbn zeta. rewrite (handleSubmit_custom s d a u Hv Hst). reflexivity.
Qed.

End Submit.

Section SubmitProperties.

Import Js JsFacts AddExpense EqualSplit CustomSplit AddExpensePage Shares Submit.
Import Examples.

(** X8. Whatever the strategy, when [handleSubmit] sends an expense to the
    store it sends at least one line and every line belongs to a
    participant.  The lines of an equal split are one per participant, in
    the order of the participants.  Each line of a custom split is the line
    of a member whose share is accepted and worth more than zero minor
    units, and its amount is that count of minor units divided by 100. *)
Theorem X8_lines_sent (s : State) errors expense rows :
  handleSubmit s = (errors, Insert expense rows) ->
  exists splits,
    rows = splitRows splits /\
    splits <> [] /\
    (forall line, In line splits ->
                  In (SplitRow.user_id line) (participantIds s)) /\
    (splitType s <> custom ->
     map SplitRow.user_id splits = participantIds s) /\
    (splitType s = custom ->
     forall line, In line splits ->
       exists member,
         In member (members s) /\
         accepted (entry (customShares s) member) = true /\
         gt (minorUnits (parseFloat (entry (customShares s) member))) (ofZ 0)
         = true /\
         SplitRow.user_id line = Member.userId member /\
         SplitRow.amount line
         = div (minorUnits (parseFloat (entry (customShares s) member)))
             (ofZ 100)).
Proof.
  rewrite expense_cases.
  destruct (validate s) as [[errors' effect]|[[d a] u]] eqn:Hv.
  { intros [= _ ->]. destruct (validate_stops s _ _ Hv); discriminate. }
  cbn zeta.
  assert (forall l, l <> [] ->
            (noErrors,
             Insert {| ExpenseRow.group_id := groupId s;
                       ExpenseRow.description := d;
                       ExpenseRow.amount := a;
                       ExpenseRow.paid_by := paidBy s;
                       ExpenseRow.split_type := splitType s;
                       ExpenseRow.created_by := AuthUser.id u;
                       ExpenseRow.type := expenseType s |}
               (splitRows (equalSplits (minorUnits a) l)))
            = (errors, Insert expense rows) ->
            exists splits,
              rows = splitRows splits /\ splits <> [] /\
              (forall line, In line splits -> In (SplitRow.user_id line) l) /\
              map SplitRow.user_id splits = l)
    as Hequal.
  { intros l Hne [= _ _ <-]. eexists. split; [reflexivity|].
    split; [|split].
    - intros Hnil. apply Hne. rewrite <- (users_equalSplits (minorUnits a) l).
      now rewrite Hnil.
    - intros line Hin.
      apply (in_map SplitRow.user_id) in Hin.
      now rewrite users_equalSplits in Hin.
    - apply users_equalSplits. }
  destruct (splitType s) eqn:Hst.
  - destruct (participantIds s) as [|x l] eqn:Hp; [discriminate|].
    intros Heq.
    destruct (Hequal (x :: l) ltac:(discriminate) Heq)
      as (splits & Hrows & Hne & Husers & Horder).
    exists splits.
    split; [exact Hrows | split; [exact Hne | split; [exact Husers|]]].
    split; [intros _; exact Horder | discriminate].
  - destruct (participantIds s) as [|x l] eqn:Hp; [discriminate|].
    intros Heq.
    destruct (Hequal (x :: l) ltac:(discriminate) Heq)
      as (splits & Hrows & Hne & Husers & Horder).
    exists splits.
    split; [exact Hrows | split; [exact Hne | split; [exact Husers|]]].
    split; [intros _; exact Horder | discriminate].
  - clear Hequal.
    destruct (negb _); [discriminate|].
    destruct (List.filter (hasPositiveShare (customShares s)) (members s))
      as [|member positive] eqn:Hfilter; [discriminate|].
    intros [= _ _ <-].
    exists (map (customLine (customShares s)) (member :: positive)).
    split; [reflexivity|].
    assert (forall m, In m (member :: positive) ->
              In m (members s) /\ hasPositiveShare (customShares s) m = true)
      as Hpos by (intros m Hm; rewrite <- Hfilter in Hm;
                  now apply List.filter_In in Hm).
    split; [discriminate | split; [|split]].
    + intros line Hline. apply in_map_iff in Hline as (m & <- & Hm).
      unfold participantIds. rewrite Hst. cbn [customLine SplitRow.user_id].
      now apply in_map, Hpos.
    + congruence.
    + intros _ line Hline. apply in_map_iff in Hline as (m & <- & Hm).
      destruct (Hpos m Hm) as [Hin Hp]. exists m.
      unfold hasPositiveShare in Hp. apply andb_true_iff in Hp as [Hacc Hgt].
      now repeat split.
Qed.

Lemma X8_witness :
  let s := dinner "10" custom [] (shares "abc" "10") in
  exists errors expense rows,
    handleSubmit s = (errors, Insert expense rows) /\
    exists splits,
      rows = splitRows splits /\
      splits <> [] /\
      (forall line, In line splits ->
                    In (SplitRow.user_id line) (participantIds s)) /\
      (splitType s <> custom ->
       map SplitRow.user_id splits = participantIds s) /\
      (splitType s = custom ->
       forall line, In line splits ->
         exists m,
           In m (members s) /\
           accepted (entry (customShares s) m) = true /\
           gt (minorUnits (parseFloat (entry (customShares s) m))) (ofZ 0)
           = true /\
           SplitRow.user_id line = Member.userId m /\
           SplitRow.amount line
           = div (minorUnits (parseFloat (entry (customShares s) m)))
               (ofZ 100)).
Proof.
  intros s. eexists _, _, _.
  assert (handleSubmit s
          = (setSplitError (Some InvalidShare),
             Insert {| ExpenseRow.group_id := "g1";
                       ExpenseRow.description := "Dinner";
                       ExpenseRow.amount := ofZ 10;
                       ExpenseRow.paid_by := "A";
                       ExpenseRow.split_type := custom;
                       ExpenseRow.created_by := "A";
                       ExpenseRow.type := expense |}
                    (splitRows [ {| SplitRow.user_id := "B";
                                    SplitRow.amount := ofZ 10 |} ])))
    as Hsubmit by (vm_compute; reflexivity).
  split; [exact Hsubmit|].
  exact (X8_lines_sent s _ _ _ Hsubmit).
Defined.

(** X9. [handleSubmit] reaches the store exactly when the form passes the
    guards and, for an equal strategy, there is a participant; for the
    custom strategy, the handler's own sum of the positive shares in minor
    units, added up as doubles in the order of the members, compares equal
    to the minor units of the total, and some member has a positive
    share. *)
Theorem X9_reaches_store (s : State) :
  (exists errors expense rows, handleSubmit s = (errors, Insert expense rows))
  <-> exists d a u,
        validate s = inr (d, a, u) /\
        match splitType s with
        | custom =>
            strictEq (sumOf (positiveCents (members s) (customShares s)))
              (minorUnits a) = true /\
            exists member, In member (members s) /\
                           hasPositiveShare (customShares s) member = true
        | _ => participantIds s <> []
        end.
Proof.
  rewrite expense_cases.
  destruct (validate s) as [[errors' effect]|[[d a] u]] eqn:Hv.
  { split.
    - intros (errors & expense & rows & [= _ ->]).
      destruct (validate_stops s _ _ Hv); discriminate.
    - intros (d & a & u & Habs & _). discriminate Habs. }
  cbn zeta. split.
  - intros (errors & expense & rows & Hsubmit). exists d, a, u.
    split; [reflexivity|].
    destruct (splitType s).
    + destruct (participantIds s); [discriminate Hsubmit | discriminate].
    + destruct (participantIds s); [discriminate Hsubmit | discriminate].
    + destruct (strictEq (sumOf (positiveCents (members s) (customShares s)))
                  (minorUnits a)) eqn:Hsum; [|discriminate Hsubmit].
      split; [reflexivity|].
      destruct (List.filter (hasPositiveShare (customShares s)) (members s))
        as [|member positive] eqn:Hfilter; [discriminate Hsubmit|].
      exists member. apply List.filter_In. rewrite Hfilter. now left.
  - intros (d' & a' & u' & [= <- <- <-] & Hcase).
    destruct (splitType s).
    + destruct (participantIds s); [congruence | eauto].
    + destruct (participantIds s); [congruence | eauto].
    + destruct Hcase as [Hsum (member & Hin & Hpos)].
      rewrite Hsum. cbn [negb].
      destruct (List.filter (hasPositiveShare (customShares s)) (members s))
        as [|m positive] eqn:Hfilter; [|eauto].
      exfalso. assert (In member []) as [].
      rewrite <- Hfilter. apply List.filter_In. now split.
Qed.

(** X10. The expense row that [handleSubmit] sends carries the trimmed
    description, which is made of allowed characters only, the parsed
    amount, which is above zero, the id of the signed-in user as creator,
    and the payer, type and strategy of the form as they are.  The only
    message that can be on display then is [InvalidShare], on a custom
    split. *)
Theorem X10_expense_row (s : State) errors expense rows :
  handleSubmit s = (errors, Insert expense rows) ->
  ExpenseRow.description expense = trim (description s) /\
  descriptionPattern_test (ExpenseRow.description expense) = true /\
  ExpenseRow.amount expense = parseFloat (amount s) /\
  gt (ExpenseRow.amount expense) (ofZ 0) = true /\
  (exists user, currentUser s = Some user /\
                ExpenseRow.created_by expense = AuthUser.id user) /\
  ExpenseRow.group_id expense = groupId s /\
  ExpenseRow.paid_by expense = paidBy s /\
  ExpenseRow.split_type expense = splitType s /\
  ExpenseRow.type expense = expenseType s /\
  (errors = noErrors \/
   splitType s = custom /\ errors = setSplitError (Some InvalidShare)).
Proof.
  rewrite expense_cases.
  destruct (validate s) as [[errors' effect]|[[d a] u]] eqn:Hv.
  { intros [= _ ->]. destruct (validate_stops s _ _ Hv); discriminate. }
  destruct (expense_amount s d a u Hv) as (Ha & Hnan & Hle).
  pose proof (positive_number a Hnan Hle) as Hpos.
  assert (d = trim (description s) /\ descriptionPattern_test d = true /\
          currentUser s = Some u) as (Hd & Hpattern & Hu).
  { revert Hv. unfold validate.
    destruct (isEmpty (trim (description s))); [discriminate|].
    destruct (descriptionPattern_test (trim (description s))) eqn:Hp;
      [|discriminate]. cbn [negb].
    destruct (isEmpty (amount s) || isNaN (parseFloat (amount s))
              || le (parseFloat (amount s)) (ofZ 0)); [discriminate|].
    destruct (tooManyDecimals (amount s)); [discriminate|].
    destruct (currentUser s); [|discriminate].
    intros [= <- _ <-]. now repeat split. }
  cbn zeta. intros Hsubmit.
  assert (expense = {| ExpenseRow.group_id := groupId s;
                       ExpenseRow.description := d;
                       ExpenseRow.amount := a;
                       ExpenseRow.paid_by := paidBy s;
                       ExpenseRow.split_type := splitType s;
                       ExpenseRow.created_by := AuthUser.id u;
                       ExpenseRow.type := expenseType s |} /\
          (errors = noErrors \/
           splitType s = custom /\ errors = setSplitError (Some InvalidShare)))
    as [-> Herrors].
  { destruct (splitType s).
    - destruct (participantIds s); [discriminate Hsubmit|].
      injection Hsubmit as <- <- _. auto.
    - destruct (participantIds s); [discriminate Hsubmit|].
      injection Hsubmit as <- <- _. auto.
    - destruct (negb _); [discriminate Hsubmit|].
      destruct (List.filter _ (members s)); [discriminate Hsubmit|].
      injection Hsubmit as <- <- _. split; [reflexivity|].
      destruct (existsb _ (members s)); auto. }
  cbn. subst d a. repeat split; try assumption; try reflexivity.
  exists u. now split.
Qed.

Lemma X10_witness :
  let s := dinner "  12.50" equal_all [] ∅ in
  exists errors expense rows,
    handleSubmit s = (errors, Insert expense rows) /\
    ExpenseRow.description expense = trim (description s) /\
    descriptionPattern_test (ExpenseRow.description expense) = true /\
    ExpenseRow.amount expense = parseFloat (amount s) /\
    gt (ExpenseRow.amount expense) (ofZ 0) = true /\
    (exists user, currentUser s = Some user /\
                  ExpenseRow.created_by expense = AuthUser.id user) /\
    ExpenseRow.group_id expense = groupId s /\
    ExpenseRow.paid_by expense = paidBy s /\
    ExpenseRow.split_type expense = splitType s /\
    ExpenseRow.type expense = expenseType s /\
    (errors = noErrors \/
     splitType s = custom /\ errors = setSplitError (Some InvalidShare)).
Proof.
  intros s.
  destruct (handleSubmit s) as [errors [| |expense rows]] eqn:Hsubmit;
    try discriminate Hsubmit.
  exists errors, expense, rows. split; [reflexivity|].
  exact (X10_expense_row s errors expense rows Hsubmit).
Defined.

(** X11. With an equal strategy and nobody to split between, a form that
    passes the guards stops without sending anything: with the message
    [NoneSelected] when no member is selected, and with [NoParticipants]
    when the group has no member. *)
Theorem X11_nobody_to_split_between (s : State) d a u :
  validate s = inr (d, a, u) ->
  splitType s <> custom ->
  participantIds s = [] ->
  handleSubmit s
  = (setSplitError
       (Some (match splitType s with
              | equal_selected => NoneSelected
              | _ => NoParticipants
              end)), Return).
Proof.
  intros Hv Hst Hnone. rewrite expense_cases, Hv, Hnone.
  now destruct (splitType s).
Qed.

Lemma X11_witness :
  let s := dinner "10" equal_selected (clicked ["A"; "B"; "A"; "B"]%string) ∅ in
  validate s = inr ("Dinner"%string, ofZ 10, me) /\
  splitType s <> custom /\
  participantIds s = [] /\
  handleSubmit s = (setSplitError (Some NoneSelected), Return).
Proof.
  intros s.
  assert (splitType s <> custom) as Hst by discriminate.
  split; [reflexivity | split; [exact Hst | split; [reflexivity|]]].
  exact (X11_nobody_to_split_between s "Dinner"%string (ofZ 10) me
           eq_refl Hst eq_refl).
Defined.

End SubmitProperties.

Section RunningTotal.

Import Js AddExpense AddExpensePage Examples.

(** The running total under the custom shares is added up from the typed
    amounts, not from their minor units, and may disagree with the handler:
    with a total of 0.01 and two shares of 0.005 the running total is shown
    in green, and [handleSubmit] stops with [TotalMismatch]. *)
Example running_total_green_but_mismatch :
  totalIsGreen (dinner "0.01" custom [] (shares "0.005" "0.005")) = true /\
  handleSubmit (dinner "0.01" custom [] (shares "0.005" "0.005"))
  = (setSplitError (Some TotalMismatch), Return).
Proof. split; vm_compute; reflexivity. Qed.

End RunningTotal.
(** * The rest of the add-credit page *)

Module CreditSubmit.

Import Js Binary64Facts JsFacts AddCredit Credit AddCreditPage.

(** The guards of the credit form stop by returning. *)
Lemma validate_returns (s : State) errors effect :
  validate s = inl (errors, effect) -> effect = Return.
Proof.
  unfold validate.
  repeat match goal with
         | |- (if ?b then _ else _) = _ -> _ => destruct b
         end; intros [= <- <-]; reflexivity.
Qed.

Lemma validate_facts (s : State) d A :
  validate s = inr (d, A) ->
  d = trim (description s) /\ descriptionPattern_test d = true /\
  A = parseFloat (amount s) /\ isNaN A = false /\ le A (ofZ 0) = false.
Proof.
  unfold validate.
  destruct (isEmpty (trim (description s))); [discriminate|].
  destruct (descriptionPattern_test (trim (description s))) eqn:Hp;
    [|discriminate]. cbn [negb].
  destruct (isEmpty (amount s)); [discriminate|]. cbn [orb].
  destruct (isNaN (parseFloat (amount s))) eqn:Hnan; [discriminate|]. cbn [orb].
  destruct (le (parseFloat (amount s)) (ofZ 0)) eqn:Hle; [discriminate|].
  destruct (tooManyDecimals (amount s)); [discriminate|].
  intros [= <- <-]. now repeat split.
Qed.

Lemma isEmpty_false (text : string) : isEmpty text = false <-> text <> ""%string.
Proof. destruct text; simpl; split; congruence. Qed.

(** [handleSubmit], way out by way out. *)
Lemma credit_cases (s : State) :
  handleSubmit s =
    match validate s with
    | inl stop => stop
    | inr (d, A) =>
        if isEmpty (paidBy s) || isEmpty (paidTo s) then
          (setParticipantError MissingParticipant, Return)
        else if String.eqb (paidBy s) (paidTo s) then
          (setParticipantError SameParticipant, Return)
        else
          match currentUser s with
          | None => (noErrors, RouterReplace "/login")
          | Some user =>
              (noErrors,
               Insert {| ExpenseRow.group_id := groupId s;
                         ExpenseRow.description := d;
                         ExpenseRow.amount := A;
                         ExpenseRow.paid_by := paidBy s;
                         ExpenseRow.split_type := custom;
                         ExpenseRow.created_by := AuthUser.id user;
                         ExpenseRow.type := credit |}
                      (splits (paidBy s) (paidTo s) A))
          end
    end.
Proof.
  unfold handleSubmit. destruct (validate s) as [stop|[d A]]; [reflexivity|].
  destruct (isEmpty (paidBy s) || isEmpty (paidTo s)); [reflexivity|].
  destruct (String.eqb (paidBy s) (paidTo s)); [reflexivity|].
  now destruct (currentUser s).
Qed.

(** A finite amount and its negation cancel. *)
Lemma total_splits (paidBy paidTo : string) (A : number) (expenseId : string) :
  isFinite A = true ->
  total (splits paidBy paidTo A expenseId) = ofZ 0.
Proof.
  unfold total, splits. cbn [map fold_left ExpenseSplitRow.amount].
  destruct A as [negative|negative| |negative m e]; try discriminate; intros _.
  - now destruct negative.
  - rewrite ofZ_0. unfold add, neg. cbn [SFopp SFadd].
    rewrite Z.min_id. unfold shl_align. rewrite Z.sub_diag. cbn [fst].
    replace (cond_Zopp (negb negative) (Z.pos m) + cond_Zopp negative (Z.pos m))
      with 0 by (destruct negative; cbn [negb cond_Zopp]; lia).
    reflexivity.
Qed.

End CreditSubmit.

Section CreditSubmitProperties.

Import Js JsFacts AddCredit Credit AddCreditPage CreditSubmit Examples.

(** X12. The credit form reaches the store exactly when the description
    and the amount pass the guards, a payer and a recipient are selected
    and differ, and a user is signed in; no message is then on display. *)
Theorem X12_credit_reaches_store (s : State) :
  (exists errors expense rows, handleSubmit s = (errors, Insert expense rows))
  <-> (exists d A, validate s = inr (d, A)) /\
      paidBy s <> ""%string /\ paidTo s <> ""%string /\
      paidBy s <> paidTo s /\ currentUser s <> None.
Proof.
  rewrite credit_cases.
  destruct (validate s) as [[errors' effect]|[d A]] eqn:Hv.
  { split.
    - intros (errors & expense & rows & [= _ ->]).
      pose proof (validate_returns s _ _ Hv) as Habs. discriminate Habs.
    - intros [(d & A & Habs) _]. discriminate Habs. }
  rewrite <- !isEmpty_false.
  destruct (isEmpty (paidBy s)), (isEmpty (paidTo s)); cbn [orb];
    try (split; [intros (? & ? & ? & [=]) | intros (_ & ? & ? & _); congruence]).
  destruct (String.eqb_spec (paidBy s) (paidTo s)) as [Heq|Hne].
  { split; [intros (? & ? & ? & [=]) | intros (_ & _ & _ & ? & _); congruence]. }
  destruct (currentUser s).
  - split; [|eauto]. intros _. repeat split; eauto; congruence.
  - split; [intros (? & ? & ? & [=]) | intros (_ & _ & _ & _ & ?); congruence].
Qed.

(** X13. When the credit form reaches the store, the expense row carries
    the trimmed description, the parsed amount, which is above zero, the
    payer, the strategy [custom] and the type [credit]; no message is on
    display; there are two split rows, the payer then the recipient, and
    for a finite amount their amounts add up to zero. *)
Theorem X13_credit_rows (s : State) errors expense rows :
  handleSubmit s = (errors, Insert expense rows) ->
  errors = noErrors /\
  ExpenseRow.description expense = trim (description s) /\
  ExpenseRow.amount expense = parseFloat (amount s) /\
  gt (ExpenseRow.amount expense) (ofZ 0) = true /\
  ExpenseRow.paid_by expense = paidBy s /\
  ExpenseRow.split_type expense = custom /\
  ExpenseRow.type expense = credit /\
  forall expenseId,
    map ExpenseSplitRow.user_id (rows expenseId) = [paidBy s; paidTo s] /\
    (forall row, In row (rows expenseId) ->
                 ExpenseSplitRow.expense_id row = expenseId) /\
    (isFinite (ExpenseRow.amount expense) = true ->
     total (rows expenseId) = ofZ 0).
Proof.
  rewrite credit_cases.
  destruct (validate s) as [[errors' effect]|[d A]] eqn:Hv.
  { intros [= _ ->]. pose proof (validate_returns s _ _ Hv) as Habs.
    discriminate Habs. }
  destruct (validate_facts s d A Hv) as (Hd & _ & HA & Hnan & Hle).
  destruct (isEmpty (paidBy s) || isEmpty (paidTo s)); [discriminate|].
  destruct (String.eqb (paidBy s) (paidTo s)); [discriminate|].
  destruct (currentUser s) as [user|]; [|discriminate].
  intros [= <- <- <-]. cbn [ExpenseRow.description ExpenseRow.amount
    ExpenseRow.paid_by ExpenseRow.split_type ExpenseRow.type].
  repeat split; try assumption; try reflexivity.
  - apply positive_number; assumption.
  - intros row [<- | [<- | []]]; reflexivity.
  - apply total_splits.
Qed.

Lemma X13_witness :
  let s := repayment "12.50" "A" "B" in
  exists errors expense rows,
    handleSubmit s = (errors, Insert expense rows) /\
    errors = noErrors /\
    ExpenseRow.description expense = trim (description s) /\
    ExpenseRow.amount expense = parseFloat (amount s) /\
    gt (ExpenseRow.amount expense) (ofZ 0) = true /\
    ExpenseRow.paid_by expense = paidBy s /\
    ExpenseRow.split_type expense = custom /\
    ExpenseRow.type expense = credit /\
    forall expenseId,
      map ExpenseSplitRow.user_id (rows expenseId) = [paidBy s; paidTo s] /\
      (forall row, In row (rows expenseId) ->
                   ExpenseSplitRow.expense_id row = expenseId) /\
      (isFinite (ExpenseRow.amount expense) = true ->
       total (rows expenseId) = ofZ 0).
Proof.
  intros s.
  destruct (handleSubmit s) as [errors [| |expense rows]] eqn:Hsubmit;
    try discriminate Hsubmit.
  exists errors, expense, rows. split; [reflexivity|].
  exact (X13_credit_rows s errors expense rows Hsubmit).
Defined.

End CreditSubmitProperties.
(** * Loading the two pages *)

Module Load.

Import Js.

(** The email that [emailById] holds for an id is the email of the last
    profile row with that id. *)
Lemma emailById_from (rows : list Store.ProfileRow)
    (emails : gmap string (option string)) (userId : string) :
  fold_left (fun emails p => <[Store.id p := Store.email p]> emails) rows emails
    !! userId
  = match List.find (fun p => String.eqb (Store.id p) userId) (rev rows) with
    | Some p => Some (Store.email p)
    | None => emails !! userId
    end.
Proof.
  revert emails. induction rows as [|p rows IH] using rev_ind; intros emails;
    [reflexivity|].
  rewrite fold_left_app, rev_app_distr. cbn [fold_left rev app List.find].
  destruct (String.eqb_spec (Store.id p) userId) as [<-|Hne].
  - apply lookup_insert_eq.
  - rewrite lookup_insert_ne by exact Hne. apply IH.
Qed.

Lemma emailById_lookup (profiles : option (list Store.ProfileRow))
    (userId : string) :
  default None (Store.emailById profiles !! userId)
  = match List.find (fun p => String.eqb (Store.id p) userId)
            (rev (default [] profiles)) with
    | Some p => Store.email p
    | None => None
    end.
Proof.
  unfold Store.emailById. rewrite emailById_from, lookup_empty.
  now destruct (List.find _ _).
Qed.

Lemma mappedMembers_userIds (userIds : list string) emails :
  map Member.userId (Store.mappedMembers userIds emails) = userIds.
Proof.
  unfold Store.mappedMembers. rewrite map_map. apply map_id.
Qed.

Lemma existsb_userId (userId : string) (userIds : list string) emails :
  existsb (fun m => String.eqb (Member.userId m) userId)
    (Store.mappedMembers userIds emails) = true
  <-> In userId userIds.
Proof.
  rewrite existsb_exists. split.
  - intros (m & Hin & Heq). apply String.eqb_eq in Heq. subst userId.
    rewrite <- (mappedMembers_userIds userIds emails). now apply in_map.
  - intros Hin. rewrite <- (mappedMembers_userIds userIds emails) in Hin.
    apply in_map_iff in Hin as (m & <- & Hm). exists m.
    split; [exact Hm | apply String.eqb_refl].
Qed.

(** The default payer of the expense form. *)
Lemma defaultPaidBy_spec (authUser : AuthUser.t) (userIds : list string) emails :
  let paidBy :=
    AddExpensePage.defaultPaidBy authUser (Store.mappedMembers userIds emails) in
  (In (AuthUser.id authUser) userIds -> paidBy = AuthUser.id authUser) /\
  (~ In (AuthUser.id authUser) userIds -> paidBy = hd ""%string userIds).
Proof.
  unfold AddExpensePage.defaultPaidBy.
  pose proof (existsb_userId (AuthUser.id authUser) userIds emails) as Hex.
  destruct (existsb _ (Store.mappedMembers userIds emails)); split.
  - reflexivity.
  - intros Hout. exfalso. apply Hout, Hex. reflexivity.
  - intros Hin. apply Hex in Hin. discriminate Hin.
  - intros _. now destruct userIds.
Qed.

(** The default recipient of the credit form. *)
Lemma defaultPaidTo_spec (authUser : AuthUser.t) (userIds : list string) emails :
  AddCreditPage.defaultPaidTo authUser (Store.mappedMembers userIds emails)
  = match List.find (fun userId => negb (String.eqb userId (AuthUser.id authUser)))
            userIds with
    | Some firstOther => firstOther
    | None => hd ""%string userIds
    end.
Proof.
  unfold AddCreditPage.defaultPaidTo, Store.mappedMembers.
  assert (forall l,
            List.find (fun m => negb (String.eqb (Member.userId m)
                                                  (AuthUser.id authUser)))
              (map (fun userId => {| Member.userId := userId;
                                     Member.email := default None (emails !! userId) |}) l)
            = option_map (fun userId => {| Member.userId := userId;
                                           Member.email := default None (emails !! userId) |})
                (List.find (fun userId => negb (String.eqb userId (AuthUser.id authUser))) l))
    as Hfind.
  { induction l as [|x l IH]; [reflexivity|]. cbn [map List.find Member.userId].
    destruct (negb (String.eqb x (AuthUser.id authUser))); [reflexivity | exact IH]. }
  rewrite Hfind.
  destruct (List.find _ userIds); [reflexivity | now destruct userIds].
Qed.

Ltac loaded_fields :=
  cbn [AddExpensePage.Loaded.currentUser AddExpensePage.Loaded.members
       AddExpensePage.Loaded.paidBy AddExpensePage.Loaded.generalError
       AddExpensePage.Loaded.isLoading AddExpensePage.Loaded.redirect
       AddCreditPage.Loaded.currentUser AddCreditPage.Loaded.members
       AddCreditPage.Loaded.paidBy AddCreditPage.Loaded.paidTo
       AddCreditPage.Loaded.generalError AddCreditPage.Loaded.isLoading
       AddCreditPage.Loaded.redirect default from_option id].

(** What [loadData] of the expense page leaves when it ends with members. *)
Lemma expense_loaded (answers : Store.Answers) :
  let loaded := AddExpensePage.loadData answers in
  AddExpensePage.Loaded.members loaded <> [] ->
  exists authUser userIds,
    Store.user answers = Some authUser /\
    Store.memberRows answers = Some userIds /\
    AddExpensePage.Loaded.currentUser loaded = Some authUser /\
    map Member.userId (AddExpensePage.Loaded.members loaded) = userIds /\
    AddExpensePage.Loaded.generalError loaded = None /\
    AddExpensePage.Loaded.isLoading loaded = false /\
    AddExpensePage.Loaded.redirect loaded = None /\
    In (AddExpensePage.Loaded.paidBy loaded) userIds /\
    (In (AuthUser.id authUser) userIds ->
     AddExpensePage.Loaded.paidBy loaded = AuthUser.id authUser) /\
    (~ In (AuthUser.id authUser) userIds ->
     AddExpensePage.Loaded.paidBy loaded = hd ""%string userIds).
Proof.
  unfold AddExpensePage.loadData, AddExpensePage.stopped,
    AddExpensePage.redirected. cbn zeta.
  destruct (Store.userError answers) as [err|];
    destruct (Store.user answers) as [authUser|]; loaded_fields;
    try congruence.
  destruct (Store.membershipFailed answers); loaded_fields; [congruence|].
  destruct (Store.membership answers) as [row|]; loaded_fields; [|congruence].
  destruct (Store.membersError answers); loaded_fields; [congruence|].
  destruct (Store.memberRows answers) as [userIds|]; loaded_fields;
    [|cbn; congruence].
  destruct (length userIds =? 0)%nat; loaded_fields; [congruence|].
  destruct (Store.profilesError answers); loaded_fields; [congruence|].
  intros Hne. exists authUser, userIds.
  destruct (defaultPaidBy_spec authUser userIds
              (Store.emailById (Store.profiles answers))) as [Hlisted Hfirst].
  repeat split; try assumption; try apply mappedMembers_userIds.
  destruct (in_dec string_dec (AuthUser.id authUser) userIds) as [Hin|Hout].
  - now rewrite (Hlisted Hin).
  - rewrite (Hfirst Hout). destruct userIds; [|now left].
    exfalso. now apply Hne.
Qed.

(** What [loadData] of the credit page leaves when it ends with members. *)
Lemma credit_loaded (answers : Store.Answers) :
  let loaded := AddCreditPage.loadData answers in
  AddCreditPage.Loaded.members loaded <> [] ->
  exists authUser userIds,
    Store.user answers = Some authUser /\
    Store.memberRows answers = Some userIds /\
    userIds <> [] /\
    AddCreditPage.Loaded.currentUser loaded = Some authUser /\
    map Member.userId (AddCreditPage.Loaded.members loaded) = userIds /\
    AddCreditPage.Loaded.paidBy loaded = AuthUser.id authUser /\
    AddCreditPage.Loaded.paidTo loaded
    = match List.find (fun userId =>
                         negb (String.eqb userId (AuthUser.id authUser)))
              userIds with
      | Some firstOther => firstOther
      | None => hd ""%string userIds
      end.
Proof.
  unfold AddCreditPage.loadData, AddCreditPage.stopped,
    AddCreditPage.redirected. cbn zeta.
  destruct (Store.userError answers) as [err|];
    destruct (Store.user answers) as [authUser|]; loaded_fields;
    try congruence.
  destruct (Store.membershipFailed answers); loaded_fields; [congruence|].
  destruct (Store.membership answers) as [row|]; loaded_fields; [|congruence].
  destruct (Store.membersError answers); loaded_fields; [congruence|].
  destruct (Store.memberRows answers) as [userIds|]; loaded_fields;
    [|cbn; congruence].
  destruct (length userIds =? 0)%nat; loaded_fields; [congruence|].
  destruct (Store.profilesError answers); loaded_fields; [congruence|].
  intros Hne. exists authUser, userIds.
  assert (userIds <> []) as Hnonempty by (intros ->; now apply Hne).
  assert ((0 <? length (Store.mappedMembers userIds
                          (Store.emailById (Store.profiles answers))))%nat = true)
    as ->.
  { apply Nat.ltb_lt. unfold Store.mappedMembers. rewrite length_map.
    destruct userIds; simpl; [congruence | lia]. }
  repeat split; try assumption; try apply mappedMembers_userIds.
  apply defaultPaidTo_spec.
Qed.

(** The first member who is not the given user. *)
Lemma firstOther_spec (userId : string) (userIds : list string) :
  match List.find (fun id => negb (String.eqb id userId)) userIds with
  | Some firstOther => In firstOther userIds /\ firstOther <> userId
  | None => forall id, In id userIds -> id = userId
  end.
Proof.
  destruct (List.find _ userIds) as [firstOther|] eqn:Hfind.
  - apply find_some in Hfind as [Hin Hne]. split; [exact Hin|].
    now apply negb_true_iff, String.eqb_neq in Hne.
  - intros id Hin. pose proof (find_none _ _ Hfind id Hin) as Heq.
    now apply negb_false_iff, String.eqb_eq in Heq.
Qed.

End Load.

Section LoadProperties.

Import Js Load Examples.

(** X14. On either page [loadData] never leaves the page loading for ever:
    every way out either clears [isLoading] or redirects.  It redirects to
    the login page exactly when there is no signed-in user, and to the
    dashboard exactly when there is one, the membership request did not
    fail (the error code PGRST116 does not count as a failure) and returned
    no row; and when it leaves an error message it lists no member. *)
Theorem X14_loading_ends (answers : Store.Answers) :
  let e := AddExpensePage.loadData answers in
  let c := AddCreditPage.loadData answers in
  let noUser := Store.userError answers <> None \/ Store.user answers = None in
  let notMember :=
    ~ noUser /\ Store.membershipFailed answers = false /\
    Store.membership answers = None in
  ((AddExpensePage.Loaded.isLoading e = false /\
    AddExpensePage.Loaded.redirect e = None) \/
   (AddExpensePage.Loaded.isLoading e = true /\
    AddExpensePage.Loaded.redirect e <> None)) /\
  (AddExpensePage.Loaded.redirect e = Some "/login"%string <-> noUser) /\
  (AddExpensePage.Loaded.redirect e = Some "/dashboard"%string <-> notMember) /\
  (AddExpensePage.Loaded.generalError e <> None ->
   AddExpensePage.Loaded.members e = []) /\
  AddCreditPage.Loaded.isLoading c = AddExpensePage.Loaded.isLoading e /\
  AddCreditPage.Loaded.redirect c = AddExpensePage.Loaded.redirect e /\
  AddCreditPage.Loaded.generalError c = AddExpensePage.Loaded.generalError e /\
  AddCreditPage.Loaded.members c = AddExpensePage.Loaded.members e /\
  AddCreditPage.Loaded.currentUser c = AddExpensePage.Loaded.currentUser e.
Proof.
  unfold AddExpensePage.loadData, AddCreditPage.loadData. cbn zeta.
  destruct (Store.userError answers) as [err|];
    destruct (Store.user answers) as [authUser|]; cbn;
    try (intuition congruence).
  destruct (Store.membershipFailed answers); cbn; [intuition congruence|].
  destruct (Store.membership answers) as [row|]; cbn; [|intuition congruence].
  destruct (Store.membersError answers); cbn; [intuition congruence|].
  destruct (length (default [] (Store.memberRows answers)) =? 0)%nat; cbn;
    [intuition congruence|].
  destruct (Store.profilesError answers); cbn; intuition congruence.
Qed.


(** X15. When [loadData] of the expense page ends with members, they are
    the member rows of the store in the same order, nothing is in error, and
    the payer selected by default is one of them: the signed-in user when
    listed, the first member otherwise. *)
Theorem X15_expense_defaults (answers : Store.Answers) :
  let loaded := AddExpensePage.loadData answers in
  AddExpensePage.Loaded.members loaded <> [] ->
  exists authUser userIds,
    Store.user answers = Some authUser /\
    Store.memberRows answers = Some userIds /\
    AddExpensePage.Loaded.currentUser loaded = Some authUser /\
    map Member.userId (AddExpensePage.Loaded.members loaded) = userIds /\
    AddExpensePage.Loaded.generalError loaded = None /\
    AddExpensePage.Loaded.isLoading loaded = false /\
    AddExpensePage.Loaded.redirect loaded = None /\
    In (AddExpensePage.Loaded.paidBy loaded) userIds /\
    (In (AuthUser.id authUser) userIds ->
     AddExpensePage.Loaded.paidBy loaded = AuthUser.id authUser) /\
    (~ In (AuthUser.id authUser) userIds ->
     AddExpensePage.Loaded.paidBy loaded = hd ""%string userIds).
Proof. exact (expense_loaded answers). Qed.

Lemma X15_witness :
  let loaded := AddExpensePage.loadData (answersFor ["B"; "C"]%string) in
  AddExpensePage.Loaded.members loaded <> [] /\
  exists authUser userIds,
    Store.user (answersFor ["B"; "C"]%string) = Some authUser /\
    Store.memberRows (answersFor ["B"; "C"]%string) = Some userIds /\
    AddExpensePage.Loaded.currentUser loaded = Some authUser /\
    map Member.userId (AddExpensePage.Loaded.members loaded) = userIds /\
    AddExpensePage.Loaded.generalError loaded = None /\
    AddExpensePage.Loaded.isLoading loaded = false /\
    AddExpensePage.Loaded.redirect loaded = None /\
    In (AddExpensePage.Loaded.paidBy loaded) userIds /\
    (In (AuthUser.id authUser) userIds ->
     AddExpensePage.Loaded.paidBy loaded = AuthUser.id authUser) /\
    (~ In (AuthUser.id authUser) userIds ->
     AddExpensePage.Loaded.paidBy loaded = hd ""%string userIds).
Proof.
  intros loaded.
  assert (AddExpensePage.Loaded.members loaded <> []) as Hne by discriminate.
  split; [exact Hne|].
  exact (X15_expense_defaults (answersFor ["B"; "C"]%string) Hne).
Defined.

(** X16. On both pages the members are listed with the id of their member
    row, and the email shown for a member is the email of the last profile
    row carrying that id, or none when there is no such row. *)
Theorem X16_member_emails (userIds : list string)
    (profiles : option (list Store.ProfileRow)) :
  let members := Store.mappedMembers userIds (Store.emailById profiles) in
  map Member.userId members = userIds /\
  forall member, In member members ->
    Member.email member
    = match List.find (fun p => String.eqb (Store.id p) (Member.userId member))
              (rev (default [] profiles)) with
      | Some p => Store.email p
      | None => None
      end.
Proof.
  split; [apply mappedMembers_userIds|].
  intros member Hin. unfold Store.mappedMembers in Hin.
  apply in_map_iff in Hin as (userId & <- & _).
  cbn [Member.email Member.userId]. apply emailById_lookup.
Qed.

(** X17. An expense of a freshly loaded form split equally between all:
    once the form passes the guards, the lines sent to the store follow the
    member rows of the store, one line per row in the same order, and the
    payer and the creator are the defaults of the load; a total of [T]
    minor units with [T < 2^50] gives [T / N + 1] to the first [T mod N]
    rows and [T / N] to the others. *)
Theorem X17_loaded_equal_all (answers : Store.Answers)
    (groupId description amount : string) (expenseType : ExpenseType)
    (selected : list string) (shares : gmap string string) d a u :
  let loaded := AddExpensePage.loadData answers in
  let s := AddExpensePage.form loaded groupId description amount expenseType
             equal_all selected shares in
  AddExpensePage.Loaded.members loaded <> [] ->
  AddExpense.validate s = inr (d, a, u) ->
  exists userIds expense splits,
    Store.memberRows answers = Some userIds /\
    AddExpense.handleSubmit s
    = (AddExpense.noErrors, Insert expense (AddExpense.splitRows splits)) /\
    map AddExpense.SplitRow.user_id splits = userIds /\
    Store.user answers = Some u /\
    ExpenseRow.created_by expense = AuthUser.id u /\
    In (ExpenseRow.paid_by expense) userIds /\
    forall T, AddExpense.minorUnits a = ofZ T ->
      0 <= T < 2 ^ 50 ->
      Z.of_nat (length userIds) < 2 ^ 53 ->
      AddExpense.lineCents splits
      = map (fun index => ofZ (AddExpense.shareCents T (length userIds) index))
          (seq 0 (length userIds)).
Proof.
  intros loaded s Hne Hv.
  destruct (expense_loaded answers Hne)
    as (authUser & userIds & Huser & Hrows & Hcurrent & Hids & _ & _ & _ & Hpaid & _).
  assert (AddExpense.participantIds s = userIds) as Hparticipants by exact Hids.
  assert (userIds <> []) as Hnonempty.
  { intros ->. apply Hne. now apply map_eq_nil in Hids. }
  assert (u = authUser) as ->.
  { revert Hv. unfold AddExpense.validate.
    change (AddExpense.currentUser s)
      with (AddExpensePage.Loaded.currentUser (AddExpensePage.loadData answers)).
    rewrite Hcurrent.
    repeat match goal with
           | |- (if ?b then _ else _) = _ -> _ => destruct b
           end; congruence. }
  exists userIds. eexists _, _.
  split; [exact Hrows|]. split.
  { apply (EqualSplit.handleSubmit_equal s d a authUser Hv).
    - discriminate.
    - now rewrite Hparticipants. }
  rewrite Hparticipants.
  split; [apply EqualSplit.users_equalSplits|].
  split; [exact Huser|]. split; [reflexivity|]. split; [exact Hpaid|].
  intros T -> HT HN.
  rewrite EqualSplit.lineCents_equalSplits by assumption.
  change (?f <$> ?l) with (map f l). now rewrite map_map.
Qed.

Lemma X17_witness :
  let loaded := AddExpensePage.loadData (answersFor ["C"; "A"; "B"]%string) in
  let s := AddExpensePage.form loaded "g1" "Dinner" "10.00" expense
             equal_all [] ∅ in
  (AddExpensePage.Loaded.members loaded <> [] /\
   AddExpense.validate s = inr ("Dinner"%string, ofZ 10, me)) /\
  exists userIds expense splits,
    Store.memberRows (answersFor ["C"; "A"; "B"]%string) = Some userIds /\
    AddExpense.handleSubmit s
    = (AddExpense.noErrors, Insert expense (AddExpense.splitRows splits)) /\
    map AddExpense.SplitRow.user_id splits = userIds /\
    Store.user (answersFor ["C"; "A"; "B"]%string) = Some me /\
    ExpenseRow.created_by expense = AuthUser.id me /\
    In (ExpenseRow.paid_by expense) userIds /\
    forall T, AddExpense.minorUnits (ofZ 10) = ofZ T ->
      0 <= T < 2 ^ 50 ->
      Z.of_nat (length userIds) < 2 ^ 53 ->
      AddExpense.lineCents splits
      = map (fun index => ofZ (AddExpense.shareCents T (length userIds) index))
          (seq 0 (length userIds)).
Proof.
  intros loaded s.
  assert (AddExpensePage.Loaded.members loaded <> []) as Hne by discriminate.
  split; [split; [exact Hne | reflexivity]|].
  exact (X17_loaded_equal_all (answersFor ["C"; "A"; "B"]%string)
           "g1" "Dinner" "10.00" expense [] ∅ "Dinner" (ofZ 10) me
           Hne eq_refl).
Defined.

(** X18. When [loadData] of the credit page ends with members, the payer
    selected by default is the signed-in user and the recipient is a listed
    member: the first one who is not the signed-in user, and the first
    member when there is no other.  The two defaults differ exactly when
    the list has somebody else than the signed-in user. *)
Theorem X18_credit_defaults (answers : Store.Answers) :
  let loaded := AddCreditPage.loadData answers in
  AddCreditPage.Loaded.members loaded <> [] ->
  exists authUser userIds,
    Store.user answers = Some authUser /\
    Store.memberRows answers = Some userIds /\
    map Member.userId (AddCreditPage.Loaded.members loaded) = userIds /\
    AddCreditPage.Loaded.paidBy loaded = AuthUser.id authUser /\
    In (AddCreditPage.Loaded.paidTo loaded) userIds /\
    (AddCreditPage.Loaded.paidTo loaded <> AddCreditPage.Loaded.paidBy loaded
     <-> exists other, In other userIds /\ other <> AuthUser.id authUser) /\
    (forall before other after,
        userIds = before ++ other :: after ->
        (forall id, In id before -> id = AuthUser.id authUser) ->
        other <> AuthUser.id authUser ->
        AddCreditPage.Loaded.paidTo loaded = other).
Proof.
  intros loaded Hne.
  destruct (credit_loaded answers Hne)
    as (authUser & userIds & Huser & Hrows & Hnonempty & _ & Hids & Hby & Hto).
  exists authUser, userIds.
  split; [exact Huser|]. split; [exact Hrows|]. split; [exact Hids|].
  split; [exact Hby|].
  fold loaded in Hto, Hby. rewrite Hto, Hby.
  pose proof (firstOther_spec (AuthUser.id authUser) userIds) as Hfirst.
  split; [|split].
  - destruct (List.find _ userIds); [tauto|].
    destruct userIds; [congruence | now left].
  - destruct (List.find _ userIds) as [firstOther|].
    + split; [eauto | tauto].
    + split.
      * intros Hdiff. exfalso. apply Hdiff, Hfirst.
        destruct userIds; [congruence | now left].
      * intros (other & Hin & Hother). exfalso. now apply Hother, Hfirst.
  - intros before other after -> Hbefore Hother.
    assert (List.find (fun userId =>
                         negb (String.eqb userId (AuthUser.id authUser)))
              (before ++ other :: after) = Some other) as ->; [|reflexivity].
    clear Hfirst Hto Hids Hrows Hnonempty.
    induction before as [|id before IH]; cbn [app List.find].
    + apply String.eqb_neq in Hother. now rewrite Hother.
    + rewrite (Hbefore id (or_introl eq_refl)), String.eqb_refl. cbn [negb].
      apply IH. intros id' Hin. apply Hbefore. now right.
Qed.

Lemma X18_witness :
  let loaded := AddCreditPage.loadData (answersFor ["A"; "C"; "B"]%string) in
  AddCreditPage.Loaded.members loaded <> [] /\
  exists authUser userIds,
    Store.user (answersFor ["A"; "C"; "B"]%string) = Some authUser /\
    Store.memberRows (answersFor ["A"; "C"; "B"]%string) = Some userIds /\
    map Member.userId (AddCreditPage.Loaded.members loaded) = userIds /\
    AddCreditPage.Loaded.paidBy loaded = AuthUser.id authUser /\
    In (AddCreditPage.Loaded.paidTo loaded) userIds /\
    (AddCreditPage.Loaded.paidTo loaded <> AddCreditPage.Loaded.paidBy loaded
     <-> exists other, In other userIds /\ other <> AuthUser.id authUser) /\
    (forall before other after,
        userIds = before ++ other :: after ->
        (forall id, In id before -> id = AuthUser.id authUser) ->
        other <> AuthUser.id authUser ->
        AddCreditPage.Loaded.paidTo loaded = other).
Proof.
  intros loaded.
  assert (AddCreditPage.Loaded.members loaded <> []) as Hne by discriminate.
  split; [exact Hne|].
  exact (X18_credit_defaults (answersFor ["A"; "C"; "B"]%string) Hne).
Defined.

(** X19. A credit of a freshly loaded form, the selectors left as they
    are, with ids that are not empty and a description and an amount that
    pass the guards: when the group lists somebody else than the signed-in
    user, the credit goes to the store, from the signed-in user to the first
    such member; when it lists nobody else, the form stops with the message
    [SameParticipant]. *)
Theorem X19_loaded_credit (answers : Store.Answers)
    (groupId description amount : string) d A :
  let loaded := AddCreditPage.loadData answers in
  let s := AddCreditPage.form loaded groupId description amount in
  AddCreditPage.Loaded.members loaded <> [] ->
  AddCredit.validate s = inr (d, A) ->
  (forall member, In member (AddCreditPage.Loaded.members loaded) ->
                  Member.userId member <> ""%string) ->
  AddCreditPage.Loaded.paidBy loaded <> ""%string ->
  ((exists member, In member (AddCreditPage.Loaded.members loaded) /\
                   Member.userId member <> AddCreditPage.Loaded.paidBy loaded) ->
   exists expense,
     AddCredit.handleSubmit s
     = (AddCredit.noErrors,
        Insert expense
          (AddCredit.splits (AddCreditPage.Loaded.paidBy loaded)
             (AddCreditPage.Loaded.paidTo loaded) A)) /\
     AddCreditPage.Loaded.paidTo loaded <> AddCreditPage.Loaded.paidBy loaded) /\
  ((forall member, In member (AddCreditPage.Loaded.members loaded) ->
                   Member.userId member = AddCreditPage.Loaded.paidBy loaded) ->
   AddCredit.handleSubmit s
   = (AddCredit.setParticipantError AddCredit.SameParticipant, Return)).
Proof.
  intros loaded s Hne Hv Hids Hby.
  destruct (credit_loaded answers Hne)
    as (authUser & userIds & _ & _ & Hnonempty & Hcurrent & Hmembers & Hpayer & Hto).
  fold loaded in Hcurrent, Hmembers, Hpayer, Hto.
  assert (forall id, In id userIds <->
            exists member, In member (AddCreditPage.Loaded.members loaded) /\
                           Member.userId member = id) as Hin.
  { intros id. rewrite <- Hmembers, in_map_iff. split.
    - intros (m & Heq & Hm). eauto.
    - intros (m & Hm & Heq). eauto. }
  pose proof (firstOther_spec (AuthUser.id authUser) userIds) as Hfirst.
  rewrite CreditSubmit.credit_cases, Hv.
  change (AddCredit.paidBy s) with (AddCreditPage.Loaded.paidBy loaded).
  change (AddCredit.paidTo s) with (AddCreditPage.Loaded.paidTo loaded).
  change (AddCredit.currentUser s) with (AddCreditPage.Loaded.currentUser loaded).
  rewrite Hcurrent. rewrite Hpayer in Hby |- *.
  apply CreditSubmit.isEmpty_false in Hby. rewrite Hby. cbn [orb].
  assert (In (AddCreditPage.Loaded.paidTo loaded) userIds) as Hlisted.
  { rewrite Hto. destruct (List.find _ userIds); [tauto|].
    destruct userIds; [congruence | now left]. }
  assert (isEmpty (AddCreditPage.Loaded.paidTo loaded) = false) as ->.
  { apply CreditSubmit.isEmpty_false.
    apply Hin in Hlisted as (m & Hm & <-). now apply Hids. }
  split.
  - intros (member & Hm & Hother).
    assert (AddCreditPage.Loaded.paidTo loaded <> AuthUser.id authUser) as Hdiff.
    { rewrite Hto. destruct (List.find _ userIds); [tauto|].
      exfalso. apply Hother, Hfirst, Hin. eauto. }
    assert (String.eqb (AuthUser.id authUser) (AddCreditPage.Loaded.paidTo loaded)
            = false) as -> by (apply String.eqb_neq; congruence).
    eexists. split; [reflexivity | exact Hdiff].
  - intros Hsole.
    assert (AddCreditPage.Loaded.paidTo loaded = AuthUser.id authUser) as ->.
    { apply Hin in Hlisted as (m & Hm & <-). now apply Hsole. }
    now rewrite String.eqb_refl.
Qed.

Lemma X19_witness :
  let loaded := AddCreditPage.loadData (answersFor ["A"]%string) in
  let s := AddCreditPage.form loaded "g1" "Settling up" "12.50" in
  (AddCreditPage.Loaded.members loaded <> [] /\
   AddCredit.validate s = inr ("Settling up"%string, parseFloat "12.50") /\
   (forall member, In member (AddCreditPage.Loaded.members loaded) ->
                   Member.userId member <> ""%string) /\
   AddCreditPage.Loaded.paidBy loaded <> ""%string) /\
  (forall member, In member (AddCreditPage.Loaded.members loaded) ->
                  Member.userId member = AddCreditPage.Loaded.paidBy loaded) /\
  AddCredit.handleSubmit s
  = (AddCredit.setParticipantError AddCredit.SameParticipant, Return).
Proof.
  intros loaded s.
  assert (AddCreditPage.Loaded.members loaded <> []) as Hne by discriminate.
  assert (forall member, In member (AddCreditPage.Loaded.members loaded) ->
                         Member.userId member <> ""%string) as Hids
    by (intros m [<- | []]; discriminate).
  assert (AddCreditPage.Loaded.paidBy loaded <> ""%string) as Hby
    by discriminate.
  assert (forall member, In member (AddCreditPage.Loaded.members loaded) ->
            Member.userId member = AddCreditPage.Loaded.paidBy loaded) as Hsole
    by (intros m [<- | []]; reflexivity).
  split; [split; [exact Hne | split; [reflexivity | split; assumption]]|].
  split; [exact Hsole|].
  exact (proj2 (X19_loaded_credit (answersFor ["A"]%string)
                  "g1" "Settling up" "12.50" "Settling up" (parseFloat "12.50")
                  Hne eq_refl Hids Hby) Hsole).
Defined.

End LoadProperties.
